(** * Species candidate location finder: a model of [run.py]

    The pipeline of [run.py] fetches occurrence records, samples the
    embedding mosaic at the occurrences, draws background points away from
    them, fits a k-nearest-neighbour classifier, scores every pixel of the
    mosaic in batches and writes a raster and two feature collections.

    Python values are modelled as the code has them: [float] and
    [numpy.float64] as IEEE 754 binary64 values, [numpy.float32] as binary32
    values (both through [SpecFloat], the executable specification of the
    IEEE operations), [int] as [Z], lists as lists, JSON objects as finite
    maps with string keys.  The libraries the script calls (numpy's random
    generator, rasterio's transforms, scikit-learn's classifier, the GBIF web
    service, the tile cache) are interfaces: type classes whose operations
    are arbitrary, constrained only where a contract of the library is
    needed and said so. *)

From stdpp Require Import gmap strings list.
From Stdlib Require Import ZArith Floats.SpecFloat.

Open Scope Z_scope.

(** ** Exceptions and results *)

Inductive exn :=
  | ValueError (msg : string)
  | IndexError (msg : string)
  | TypeError (msg : string)
  | AttributeError (msg : string)
  | KeyError (key : string)
  | OverflowError (msg : string)
  | HTTPError
  | LibraryError (msg : string).

Inductive result (A : Type) :=
  | Ok (a : A)
  | Raise (e : exn).
Arguments Ok {A} a.
Arguments Raise {A} e.

#[global] Instance result_ret : MRet result := fun A a => Ok a.
#[global] Instance result_bind : MBind result := fun A B f m =>
  match m with
  | Ok a => f a
  | Raise e => Raise e
  end.
#[global] Instance result_fmap : FMap result := fun A B f m =>
  match m with
  | Ok a => Ok (f a)
  | Raise e => Raise e
  end.

Definition is_ok {A} (r : result A) : bool :=
  match r with Ok _ => true | Raise _ => false end.

(** ** Floating point *)

Abbreviation float64 := spec_float (only parsing).
Abbreviation float32 := spec_float (only parsing).

Module F64.
Definition prec : Z := 53.
Definition emax : Z := 1024.
Definition of_Z (n : Z) : float64 := binary_normalize prec emax n 0 false.
Definition add : float64 -> float64 -> float64 := SFadd prec emax.
Definition sub : float64 -> float64 -> float64 := SFsub prec emax.
Definition mul : float64 -> float64 -> float64 := SFmul prec emax.
Definition div : float64 -> float64 -> float64 := SFdiv prec emax.
Definition sqrt : float64 -> float64 := SFsqrt prec emax.
(** [x ** 2] on a float64 array is the elementwise square. *)
Definition square (x : float64) : float64 := mul x x.
Definition ltb : float64 -> float64 -> bool := SFltb.
Definition gtb (x y : float64) : bool := SFltb y x.
Definition geb (x y : float64) : bool := SFleb y x.
Definition is_nan (x : float64) : bool :=
  match x with S754_nan => true | _ => false end.
Definition is_zero (x : float64) : bool :=
  match x with S754_zero _ => true | _ => false end.
(** [np.isfinite]: neither an infinity nor NaN. *)
Definition is_finite (x : float64) : bool :=
  match x with S754_zero _ | S754_finite _ _ _ => true | _ => false end.
End F64.

Module F32.
Definition prec : Z := 24.
Definition emax : Z := 128.
Definition valid (x : float32) : bool := valid_binary prec emax x.
(** The cast numpy applies when a float64 is stored into a float32 array
    or compared with one: round to nearest, ties to even. *)
Definition of_f64 (x : float64) : float32 :=
  match x with
  | S754_finite s m e => binary_round prec emax s m e
  | _ => x
  end.
(** [float(x)] of a float32: the same number with a 53 bit mantissa.
    Every finite binary32 value, subnormal ones included, is a normal
    binary64 value, so the mantissa is only shifted. *)
Definition to_f64 (x : float32) : float64 :=
  match x with
  | S754_finite s m e =>
      let d := F64.prec - Z.pos (digits2_pos m) in
      S754_finite s (Pos.shiftl m (Z.to_N d)) (e - d)
  | _ => x
  end.
Definition geb (x y : float32) : bool := SFleb y x.
End F32.

(** The decimal literals of the script, as the binary64 values Python reads
    them as. *)
Definition lit_0_005 : float64 := S754_finite false 5764607523034235 (-60).
Definition lit_0_6 : float64 := S754_finite false 5404319552844595 (-53).

(** ** The order of the floating-point comparisons

    [SFcompare] orders the values that are not NaN by sign, then exponent,
    then mantissa.  [SFkey] reads that order off as a lexicographic one on
    triples of integers. *)

Definition SFkey (x : spec_float) : option (Z * Z * Z) :=
  match x with
  | S754_nan => None
  | S754_infinity true => Some (-2, 0, 0)
  | S754_finite true m e => Some (-1, - e, Z.neg m)
  | S754_zero _ => Some (0, 0, 0)
  | S754_finite false m e => Some (1, e, Z.pos m)
  | S754_infinity false => Some (2, 0, 0)
  end.

Definition lex3_compare (a b : Z * Z * Z) : comparison :=
  match a, b with
  | (a1, a2, a3), (b1, b2, b3) =>
      match a1 ?= b1 with
      | Eq => match a2 ?= b2 with
              | Eq => a3 ?= b3
              | c => c
              end
      | c => c
      end
  end.

Definition lex3_lt (a b : Z * Z * Z) : Prop :=
  a.1.1 < b.1.1 \/
  (a.1.1 = b.1.1 /\ (a.1.2 < b.1.2 \/ (a.1.2 = b.1.2 /\ a.2 < b.2))).

(** ** numpy: arrays and the global random generator *)

(** [a.min()] of a float array: the reduction by [np.minimum], which
    propagates NaN; an empty array has no minimum. *)
Definition np_minimum (a b : float64) : float64 :=
  if F64.is_nan a then a else if F64.ltb a b then a else b.

Definition np_min (a : list float64) : result float64 :=
  match a with
  | [] => Raise (ValueError "zero-size array to reduction operation minimum which has no identity")
  | x :: xs => Ok (foldl np_minimum x xs)
  end.

(** The legacy generator behind [np.random.*]: one process-wide state, set by
    [np.random.seed] and advanced by every draw.  Which numbers come out is
    the library's business: the operations of the class are arbitrary
    functions of the state.  They are what the generator does once numpy has
    accepted the arguments; the checks numpy makes on the arguments, and the
    errors it raises for them, are [np_seed] and [np_uniform] below. *)
Class NumpyRandom := {
  rng_state : Type;
  np_random_seed : Z -> rng_state;
  (** [np.random.uniform(low, high)] *)
  np_random_uniform : float64 -> float64 -> rng_state -> float64 * rng_state;
  (** [np.random.choice(n, size, replace=False)] *)
  np_random_choice : nat -> nat -> rng_state -> list nat * rng_state
}.

(** [np.random.seed(seed)] for an [int]: the seed has to fit 32 bits, or
    the call raises and leaves the generator as it was. *)
Definition np_seed `{NumpyRandom} (seed : Z) (g0 : rng_state) : result unit * rng_state :=
  if decide (0 <= seed < 2 ^ 32) then (Ok tt, np_random_seed seed)
  else (Raise (ValueError "Seed must be between 0 and 2**32 - 1"), g0).

(** [np.random.uniform(low, high)] for two floats: the width [high - low]
    has to be finite, or the call raises before it draws. *)
Definition np_uniform `{NumpyRandom} (low high : float64) (g : rng_state)
    : result float64 * rng_state :=
  if F64.is_finite (F64.sub high low) then
    let '(x, g') := np_random_uniform low high g in (Ok x, g')
  else (Raise (OverflowError "Range exceeds valid bounds"), g).

Arguments np_seed : simpl never.
Arguments np_uniform : simpl never.

(** The contract of [choice] without replacement: [size] distinct indices
    below [n], whenever [size <= n]. *)
Class NumpyRandomSpec (R : NumpyRandom) := {
  choice_length : forall n size g,
    (size <= n)%nat -> length (np_random_choice n size g).1 = size;
  choice_NoDup : forall n size g,
    (size <= n)%nat -> NoDup (np_random_choice n size g).1;
  choice_bound : forall n size g i,
    (size <= n)%nat -> i ∈ (np_random_choice n size g).1 -> (i < n)%nat
}.

(** ** Coordinates and bounding boxes *)

(** A point is the tuple [(lon, lat)]. *)
Definition coord := (float64 * float64)%type.

(** [bbox = (min_lon, min_lat, max_lon, max_lat)] *)
Record bbox := BBox {
  min_lon : float64;
  min_lat : float64;
  max_lon : float64;
  max_lat : float64
}.

(** The two widths of a box are finite: what [np.random.uniform] asks of
    its arguments. *)
Definition finite_widths (b : bbox) : Prop :=
  F64.is_finite (F64.sub (max_lon b) (min_lon b)) = true /\
  F64.is_finite (F64.sub (max_lat b) (min_lat b)) = true.

(** ** [generate_negatives] *)

(** [np.array(positives)] has shape (n, 2) for n >= 1 points and shape (0,)
    for the empty list; [pos_arr[:, j]] needs two dimensions. *)
Definition pos_column (j : nat) (positives : list coord) : result (list float64) :=
  match positives with
  | [] => Raise (IndexError "too many indices for array: array is 1-dimensional, but 2 were indexed")
  | _ => Ok (map (fun p : coord => if decide (j = 0%nat) then p.1 else p.2) positives)
  end.

(** One entry of [np.sqrt((pos_arr[:, 0] - lon)**2 + (pos_arr[:, 1] - lat)**2)]. *)
Definition degree_dist (p : coord) (lon lat : float64) : float64 :=
  F64.sqrt (F64.add (F64.square (F64.sub p.1 lon)) (F64.square (F64.sub p.2 lat))).

Definition dists (positives : list coord) (lon lat : float64) : result (list float64) :=
  xs ← pos_column 0 positives;
  ys ← pos_column 1 positives;
  Ok (map F64.sqrt
        (zip_with F64.add
           (map (fun x => F64.square (F64.sub x lon)) xs)
           (map (fun y => F64.square (F64.sub y lat)) ys))).

Definition min_dist : float64 := lit_0_005.

(** The state of the rejection loop: the accepted points, in the order they
    were appended, and the number of times the loop body was entered so far,
    the iteration that leaves by [break] included (the latter is not a
    variable of the script; it counts the iterations). *)
Record neg_loop := NegLoop {
  negatives : list coord;
  iterations : nat
}.

(** [for _ in range(n_samples * 100): ...], by recursion on the iterations
    that are left. *)
Fixpoint negatives_loop `{NumpyRandom} (budget : nat) (positives : list coord)
    (b : bbox) (n_samples : Z) (st : neg_loop) (g : rng_state)
    : result neg_loop * rng_state :=
  match budget with
  | O => (Ok st, g)
  | S budget' =>
      if Z.of_nat (length (negatives st)) >=? n_samples
      then (Ok (NegLoop (negatives st) (S (iterations st))), g)
      else
        match np_uniform (min_lon b) (max_lon b) g with
        | (Raise e, g1) => (Raise e, g1)
        | (Ok lon, g1) =>
            match np_uniform (min_lat b) (max_lat b) g1 with
            | (Raise e, g2) => (Raise e, g2)
            | (Ok lat, g2) =>
                match dists positives lon lat ≫= np_min with
                | Raise e => (Raise e, g2)
                | Ok d =>
                    let accepted :=
                      if F64.gtb d min_dist then negatives st ++ [(lon, lat)]
                      else negatives st in
                    negatives_loop budget' positives b n_samples
                      (NegLoop accepted (S (iterations st))) g2
                end
            end
        end
  end.

(** [generate_negatives(positives, bbox, n_samples, seed)], run from the
    global generator state [g0]. *)
Definition generate_negatives_loop `{NumpyRandom} (positives : list coord)
    (b : bbox) (n_samples : Z) (seed : Z) (g0 : rng_state)
    : result neg_loop * rng_state :=
  match np_seed seed g0 with
  | (Raise e, g) => (Raise e, g)
  | (Ok _, g) =>
      negatives_loop (Z.to_nat (n_samples * 100)) positives b n_samples (NegLoop [] 0) g
  end.

Definition generate_negatives `{NumpyRandom} (positives : list coord)
    (b : bbox) (n_samples : Z) (seed : Z) (g0 : rng_state)
    : result (list coord) * rng_state :=
  let '(r, g) := generate_negatives_loop positives b n_samples seed g0 in
  (negatives <$> r, g).

(** A point is separated from the positives when the distance the script
    computes to each of them is greater than [min_dist]. *)
Definition separated (positives : list coord) (q : coord) : Prop :=
  forall p, p ∈ positives -> F64.gtb (degree_dist p q.1 q.2) min_dist = true.

(** ** The mosaic and rasterio's transforms *)

Definition pixel := list float32.

(** The stitched array of shape (mosaic_h, mosaic_w, n_channels), as numpy
    stores it: one row-major buffer. *)
Record mosaic := Mosaic {
  mosaic_h : nat;
  mosaic_w : nat;
  n_channels : nat;
  mosaic_data : list float32
}.

(** Row [i] of [mosaic.reshape(-1, n_channels)]. *)
Definition flat_pixel (m : mosaic) (i : nat) : pixel :=
  take (n_channels m) (drop (i * n_channels m) (mosaic_data m)).

(** [mosaic[row, col, :]] *)
Definition mosaic_at (m : mosaic) (row col : nat) : pixel :=
  flat_pixel m (row * mosaic_w m + col).

(** [mosaic.reshape(-1, n_channels)]; with no channel the length of the
    first axis cannot be inferred. *)
Definition reshape_pixels (m : mosaic) : result (list pixel) :=
  if decide (n_channels m = 0)%nat
  then Raise (ValueError "cannot reshape array of size 0 into shape (0)")
  else Ok (map (flat_pixel m) (seq 0 (mosaic_h m * mosaic_w m))).

(** [rasterio.transform.rowcol] and [rasterio.transform.xy] for an affine
    transform. *)
Class Rasterio := {
  transform : Type;
  rowcol : transform -> float64 -> float64 -> Z * Z;
  xy : transform -> nat -> nat -> float64 * float64
}.

(** A 1-D or 2-D float array.  [np.array] of a list of n >= 1 vectors of c
    entries has shape (n, c); of the empty list, shape (0,). *)
Inductive ndarray :=
  | Array1 (items : list float32)
  | Array2 (ncols : nat) (rows : list (list float32)).

Definition np_array (c : nat) (vectors : list pixel) : ndarray :=
  match vectors with
  | [] => Array1 []
  | _ => Array2 c vectors
  end.

(** [len(a)]: the size of the first axis. *)
Definition array_len (a : ndarray) : nat :=
  match a with
  | Array1 items => length items
  | Array2 _ rows => length rows
  end.

Definition atleast_2d (a : ndarray) : nat * list (list float32) :=
  match a with
  | Array1 items => (length items, [items])
  | Array2 c rows => (c, rows)
  end.

(** [np.vstack([a, b])]: both made 2-D, then joined along the first axis,
    which needs the same number of columns. *)
Definition np_vstack (a b : ndarray) : result ndarray :=
  let '(ca, ra) := atleast_2d a in
  let '(cb, rb) := atleast_2d b in
  if decide (ca = cb) then Ok (Array2 ca (ra ++ rb))
  else Raise (ValueError "all the input array dimensions except for the concatenation axis must match exactly").

(** ** [sample_embeddings] *)

Definition in_mosaic (m : mosaic) (rc : Z * Z) : bool :=
  (0 <=? rc.1) && (rc.1 <? Z.of_nat (mosaic_h m)) &&
  (0 <=? rc.2) && (rc.2 <? Z.of_nat (mosaic_w m)).

(** The loop [for lon, lat in coords], with the two lists it appends to. *)
Fixpoint sample_loop `{Rasterio} (m : mosaic) (t : transform) (coords : list coord)
    (embeddings : list pixel) (valid_coords : list coord)
    : list pixel * list coord :=
  match coords with
  | [] => (embeddings, valid_coords)
  | (lon, lat) :: rest =>
      let '(row, col) := rowcol t lon lat in
      if in_mosaic m (row, col) then
        sample_loop m t rest
          (embeddings ++ [mosaic_at m (Z.to_nat row) (Z.to_nat col)])
          (valid_coords ++ [(lon, lat)])
      else sample_loop m t rest embeddings valid_coords
  end.

Definition sample_embeddings `{Rasterio} (m : mosaic) (t : transform)
    (coords : list coord) : ndarray * list coord :=
  let '(embeddings, valid_coords) := sample_loop m t coords [] [] in
  (np_array (n_channels m) embeddings, valid_coords).

(** The predicate of the specification: the pixel a coordinate resolves to
    lies in [0, height) x [0, width). *)
Definition resolves_inside `{Rasterio} (m : mosaic) (t : transform) (c : coord) : bool :=
  in_mosaic m (rowcol t c.1 c.2).

(** The embedding the sampler reads for a coordinate. *)
Definition embedding_at `{Rasterio} (m : mosaic) (t : transform) (c : coord) : pixel :=
  let rc := rowcol t c.1 c.2 in
  mosaic_at m (Z.to_nat rc.1) (Z.to_nat rc.2).

(** ** The classifier *)

(** scikit-learn's [Pipeline([StandardScaler(), KNeighborsClassifier(
    n_neighbors=k, weights='distance')])]: [fit] and [predict_proba].
    [predict_proba] returns one row of class probabilities per input row. *)
Class Sklearn := {
  model : Type;
  fit : Z -> ndarray -> list Z -> result model;
  predict_proba : model -> list pixel -> list (list float64)
}.

(** The contract of [predict_proba] used below: the rows of the answer are
    the answers to the rows, so scoring a concatenation is concatenating the
    scores. *)
Class SklearnSpec (S : Sklearn) := {
  predict_proba_length : forall (md : model) (X : list pixel),
    length (predict_proba md X) = length X;
  predict_proba_app : forall (md : model) (X1 X2 : list pixel),
    predict_proba md (X1 ++ X2) = predict_proba md X1 ++ predict_proba md X2
}.

(** [k = min(10, len(X_train) // 2)] *)
Definition n_neighbors (training_set_size : nat) : Z :=
  Z.min 10 (Z.of_nat training_set_size `div` 2).

(** ** Batched prediction *)

(** [range(start, stop, step)] for a positive step, and its error for a zero
    step. *)
Fixpoint range_from (fuel start stop step : nat) : list nat :=
  match fuel with
  | O => []
  | S fuel' =>
      if decide (start < stop)%nat
      then start :: range_from fuel' (start + step) stop step
      else []
  end.

Definition py_range (start stop step : nat) : result (list nat) :=
  if decide (step = 0%nat) then Raise (ValueError "range() arg 3 must not be zero")
  else Ok (range_from stop start stop step).

(** [a[i:j]] for 0 <= i, j. *)
Definition slice {A} (i j : nat) (a : list A) : list A :=
  take (j - i) (drop i a).

(** [probs[:, 1]] *)
Definition column (j : nat) (a : list (list float64)) : result (list float64) :=
  mapM (fun row : list float64 =>
          match row !! j with
          | Some x => Ok x
          | None => Raise (IndexError "index is out of bounds for axis 1")
          end) a.

(** [a[i:j] = values] on a float32 array: the values are cast; a single
    value is broadcast over the slice; any other length mismatch is an
    error. *)
Definition slice_assign (a : list float32) (i j : nat) (values : list float64)
    : result (list float32) :=
  let n := length (slice i j a) in
  if decide (length values = n) then
    Ok (take i a ++ map F32.of_f64 values ++ drop (i + n) a)
  else match values with
       | [v] => Ok (take i a ++ replicate n (F32.of_f64 v) ++ drop (i + n) a)
       | _ => Raise (ValueError "could not broadcast input array")
       end.

(** A [for] loop whose body may raise. *)
Fixpoint for_each {A S} (body : S -> A -> result S) (xs : list A) (s : S) : result S :=
  match xs with
  | [] => Ok s
  | x :: xs' => body s x ≫= for_each body xs'
  end.

Definition batch_size : Z := 15000.

(** The body of [for i in range(0, n_pixels, batch_size)]. *)
Definition predict_batch `{Sklearn} (B : nat) (md : model) (all_pixels : list pixel)
    (probabilities : list float32) (i : nat) : result (list float32) :=
  let n_pixels := length all_pixels in
  let end_ := ((i + B) `min` n_pixels)%nat in
  let probs := predict_proba md (slice i end_ all_pixels) in
  col ← column 1 probs;
  slice_assign probabilities i end_ col.

(** The prediction loop for batch size [B], from [np.zeros(n_pixels)]. *)
Definition predict_batched `{Sklearn} (B : nat) (md : model) (all_pixels : list pixel)
    : result (list float32) :=
  let n_pixels := length all_pixels in
  starts ← py_range 0 n_pixels B;
  for_each (predict_batch B md all_pixels) starts (replicate n_pixels (S754_zero false)).

(** Scoring the whole flattened mosaic at once, in the words of the
    specification: one call of the probability operation, the positive-class
    column stored as float32. *)
Definition predict_whole `{Sklearn} (md : model) (all_pixels : list pixel)
    : result (list float32) :=
  col ← column 1 (predict_proba md all_pixels);
  Ok (map F32.of_f64 col).

(** ** Candidate extraction *)

Definition threshold : float64 := lit_0_6.
Definition candidate_cap : Z := 5000.

(** A point feature of [candidates.geojson]. *)
Record feature := Feature {
  probability : float64;
  coordinates : float64 * float64
}.

(** The feature of the cell with flat index [i], at row [i / w] and column
    [i mod w]. *)
Definition cell_feature `{Rasterio} (t : transform) (w : nat)
    (probabilities : list float32) (i : nat) : feature :=
  Feature (F32.to_f64 (default (S754_zero false) (probabilities !! i)))
          (xy t (i `div` w)%nat (i `mod` w)%nat).

(** The flat indices [i, i + 1, ...] of the entries that pass
    [prob_map >= threshold]; the Python float is cast to the array's
    float32. *)
Fixpoint where_ge (i : nat) (a : list float32) (thr : float64) : list nat :=
  match a with
  | [] => []
  | x :: a' =>
      if F32.geb x (F32.of_f64 thr) then i :: where_ge (S i) a' thr
      else where_ge (S i) a' thr
  end.

(** [np.where(prob_map >= threshold)] for [prob_map] the buffer reshaped to
    [w] columns: the row and the column indices, in row-major order. *)
Definition np_where_ge (w : nat) (probabilities : list float32) (thr : float64)
    : list nat * list nat :=
  let flat := where_ge 0 probabilities thr in
  (map (fun i => (i `div` w)%nat) flat, map (fun i => (i `mod` w)%nat) flat).

(** [a[idx]] for an index array. *)
Definition take_indices (a : list nat) (idx : list nat) : result (list nat) :=
  mapM (fun i => match a !! i with
                 | Some x => Ok x
                 | None => Raise (IndexError "index is out of bounds for axis 0")
                 end) idx.

(** [prob_map[row, col]] *)
Definition prob_at (w : nat) (probabilities : list float32) (row col : nat)
    : result float32 :=
  match probabilities !! (row * w + col)%nat with
  | Some x => Ok x
  | None => Raise (IndexError "index is out of bounds")
  end.

(** The feature built for one cell: its coordinates by [xy], its
    probability by [float(prob_map[row, col])]. *)
Definition candidate_feature `{Rasterio} (t : transform) (w : nat)
    (probabilities : list float32) (cell : nat * nat) : result feature :=
  let lonlat := xy t cell.1 cell.2 in
  p ← prob_at w probabilities cell.1 cell.2;
  Ok (Feature (F32.to_f64 p) lonlat).

(** The loop [for row, col in zip(rows, cols)] that appends the features. *)
Definition candidate_features `{Rasterio} (t : transform) (w : nat)
    (probabilities : list float32) (cells : list (nat * nat)) : result (list feature) :=
  for_each (fun (candidates : list feature) (cell : nat * nat) =>
              f ← candidate_feature t w probabilities cell;
              Ok (candidates ++ [f]))
           cells [].

(** [candidates.sort(key=lambda f: f["properties"]["probability"])]: a
    stable sort, ascending. *)
Fixpoint insert_feature (f : feature) (l : list feature) : list feature :=
  match l with
  | [] => [f]
  | g :: l' =>
      if F64.ltb (probability g) (probability f) then g :: insert_feature f l'
      else f :: g :: l'
  end.

Definition sort_features (l : list feature) : list feature :=
  foldr insert_feature [] l.

(** Lines 243-260: the cells at or above the threshold, subsampled when
    there are more than the cap, turned into features and sorted.  The
    subsampling draws from the global generator. *)
Definition extract_candidates `{NumpyRandom} `{Rasterio} (t : transform) (w : nat)
    (probabilities : list float32) (g : rng_state)
    : result (list feature) * rng_state :=
  let '(rows, cols) := np_where_ge w probabilities threshold in
  let '(sel, g') :=
    if Z.of_nat (length rows) >? candidate_cap then
      let '(idx, g') := np_random_choice (length rows) (Z.to_nat candidate_cap) g in
      ((rows' ← take_indices rows idx;
        cols' ← take_indices cols idx;
        Ok (rows', cols')), g')
    else (Ok (rows, cols), g) in
  (sel ≫= (fun rc => sort_features <$> candidate_features t w probabilities (zip rc.1 rc.2)), g').

(** ** JSON values and the GBIF service *)

(** What [resp.json()] returns.  A JSON number is kept as the binary64 it
    denotes: Python reads some numbers as [int], but [int] and [float] are
    falsy at the same values (zero) and numpy converts both to float64. *)
#[warnings="-register-all"]
Inductive json :=
  | JNull
  | JBool (b : bool)
  | JNumber (x : float64)
  | JString (s : string)
  | JArray (items : list json)
  | JObject (fields : gmap string json).

(** Python's truth value: [None], [False], zero (of either sign), the empty
    string, list and dict are falsy; NaN is truthy. *)
Definition truthy (v : json) : bool :=
  match v with
  | JNull => false
  | JBool b => b
  | JNumber x => negb (F64.is_zero x)
  | JString s => negb (bool_decide (s = EmptyString))
  | JArray items => negb (bool_decide (length items = 0%nat))
  | JObject fields => negb (bool_decide (dom fields = ∅))
  end.

(** [d.get(key)]: [None] when the key is absent. *)
Definition dict_get (d : gmap string json) (key : string) : json :=
  default JNull (d !! key).

(** [d.get(key, dflt)] *)
Definition dict_get_default (d : gmap string json) (key : string) (dflt : json) : json :=
  default dflt (d !! key).

(** The two requests of the script: the species match and one page of the
    occurrence search at an offset.  [Raise] is what [raise_for_status]
    raises. *)
Class Gbif := {
  species_match : string -> result (gmap string json);
  occurrence_search : json -> bbox -> nat -> result (gmap string json)
}.

(** [get_species_key] *)
Definition get_species_key `{Gbif} (species_name : string) : result json :=
  data ← species_match species_name;
  let key := dict_get data "usageKey" in
  if truthy key then Ok key
  else Raise (ValueError "Species not found").

(** [len(results) >= data.get("count", 0)] *)
Definition reached_count (n : nat) (count : json) : result bool :=
  match count with
  | JNumber c => Ok (F64.geb (F64.of_Z (Z.of_nat n)) c)
  | JBool b => Ok (Z.of_nat n >=? (if b then 1 else 0))
  | _ => Raise (TypeError ">= not supported between instances")
  end.

(** The [while True] loop of [fetch_occurrences]; [None] when the fuel runs
    out before the loop leaves. *)
Fixpoint fetch_pages `{Gbif} (fuel : nat) (taxon_key : json) (b : bbox)
    (results : list json) (offset : nat) : option (result (list json)) :=
  match fuel with
  | O => None
  | S fuel' =>
      match occurrence_search taxon_key b offset with
      | Raise e => Some (Raise e)
      | Ok data =>
          let batch := dict_get_default data "results" (JArray []) in
          if negb (truthy batch) then Some (Ok results)
          else match batch with
               | JArray items =>
                   let results' := results ++ items in
                   match reached_count (length results') (dict_get_default data "count" (JNumber (S754_zero false))) with
                   | Raise e => Some (Raise e)
                   | Ok true => Some (Ok results')
                   | Ok false => fetch_pages fuel' taxon_key b results' (offset + 300)
                   end
               | _ => Some (Raise (TypeError "results is not a list of records"))
               end
      end
  end.

(** One step of the final comprehension: the record is kept when both
    [r.get("decimalLatitude")] and [r.get("decimalLongitude")] are truthy,
    and contributes [(r["decimalLongitude"], r["decimalLatitude"])]. *)
Definition keep_record (r : json) : result (option (json * json)) :=
  match r with
  | JObject fields =>
      if truthy (dict_get fields "decimalLatitude") && truthy (dict_get fields "decimalLongitude")
      then match fields !! "decimalLongitude", fields !! "decimalLatitude" with
           | Some lon, Some lat => Ok (Some (lon, lat))
           | None, _ => Raise (KeyError "decimalLongitude")
           | _, None => Raise (KeyError "decimalLatitude")
           end
      else Ok None
  | _ => Raise (AttributeError "object has no attribute 'get'")
  end.

Definition filter_records (results : list json) : result (list (json * json)) :=
  omap id <$> mapM keep_record results.

(** [fetch_occurrences] *)
Definition fetch_occurrences `{Gbif} (fuel : nat) (taxon_key : json) (b : bbox)
    : option (result (list (json * json))) :=
  (fun r => r ≫= filter_records) <$> fetch_pages fuel taxon_key b [] 0.

(** A coordinate field that is absent, [None], or zero. *)
Definition missing_or_zero (v : option json) : Prop :=
  v = None \/ v = Some JNull \/ exists s, v = Some (JNumber (S754_zero s)).

(** What a record contributes to the result of [fetch_occurrences]. *)
Definition record_coord (r : json) : option (json * json) :=
  match r with
  | JObject fields =>
      if truthy (dict_get fields "decimalLatitude") && truthy (dict_get fields "decimalLongitude")
      then Some (dict_get fields "decimalLongitude", dict_get fields "decimalLatitude")
      else None
  | _ => None
  end.

(** ** The tile cache *)

(** [load_mosaic(CACHE_DIR, bbox)] reads the tile files below the cache
    directory: its result, or the [ValueError] it raises when it finds no
    tile, is given by the file system. *)
Class TileCache `{Rasterio} := {
  load_mosaic : bbox -> result (mosaic * transform)
}.

(** ** Effects of a run *)

Record metadata := Metadata {
  meta_species : string;
  meta_taxon_key : json;
  meta_n_occurrences : nat;
  meta_n_candidates : nat;
  meta_threshold : float64
}.

Inductive file_content :=
  | Raster (height width : nat) (band : list float32)
  | CandidateCollection (features : list feature) (meta : metadata)
  | OccurrenceCollection (points : list coord).

(** What a run does to the world, in order: the error it logs, the
    directory and the files it writes; and, to follow the run, the calls of
    [generate_negatives] and of [fit] with the numbers they are given.  The
    [logger.info] lines are left out. *)
Inductive event :=
  | LogError (msg : string)
  | CallGenerateNegatives (n_positives : nat) (n_samples : Z)
  | CallFit (k : Z) (n_train : nat)
  | Mkdir (path : string)
  | WriteFile (path : string) (content : file_content).

Definition is_output (e : event) : bool :=
  match e with
  | Mkdir _ | WriteFile _ _ => true
  | _ => false
  end.

(** The state a run threads: numpy's global generator and the events so
    far. *)
Record world `{NumpyRandom} := World {
  w_rng : rng_state;
  w_trace : list event
}.
Arguments World {_} _ _.

Definition M `{NumpyRandom} (A : Type) : Type := world -> result A * world.

#[global] Instance M_ret `{NumpyRandom} : MRet M := fun A a w => (Ok a, w).
#[global] Instance M_bind `{NumpyRandom} : MBind M := fun A B f m w =>
  match m w with
  | (Ok a, w') => f a w'
  | (Raise e, w') => (Raise e, w')
  end.

Definition emit `{NumpyRandom} (e : event) : M unit :=
  fun w => (Ok tt, World (w_rng w) (w_trace w ++ [e])).

Definition lift `{NumpyRandom} {A} (r : result A) : M A :=
  fun w => (r, w).

Definition with_rng `{NumpyRandom} {A} (f : rng_state -> result A * rng_state) : M A :=
  fun w => let '(r, g) := f (w_rng w) in (r, World g (w_trace w)).

(** An action only appends events, all of them of the kind [P]. *)
Definition appends `{NumpyRandom} {A} (P : event -> Prop) (m : M A) : Prop :=
  forall w r w', m w = (r, w') ->
    exists tail, w_trace w' = w_trace w ++ tail /\ Forall P tail.

Definition is_negatives_call (e : event) : Prop :=
  match e with CallGenerateNegatives _ _ => True | _ => False end.

(** ** [run] *)

(** A coordinate of a fetched record as the float the numeric code takes it
    for. *)
Definition as_float (v : json) : result float64 :=
  match v with
  | JNumber x => Ok x
  | JBool b => Ok (F64.of_Z (if b then 1 else 0))
  | _ => Raise (TypeError "a number is required")
  end.

Definition as_coord (p : json * json) : result coord :=
  lon ← as_float p.1;
  lat ← as_float p.2;
  Ok (lon, lat).

Definition default_seed : Z := 42.

(** Lines 186-192: the positives sampled, the negatives generated for
    [n_samples = len(valid_positives) * 5] and sampled. *)
Definition prepare_samples `{NumpyRandom} `{Rasterio} (m : mosaic) (t : transform)
    (b : bbox) (positives : list coord) : M (ndarray * list coord * ndarray) :=
  let '(X_pos, valid_positives) := sample_embeddings m t positives in
  let n_samples := Z.of_nat (length valid_positives) * 5 in
  emit (CallGenerateNegatives (length valid_positives) n_samples);;
  negatives ← with_rng (generate_negatives valid_positives b n_samples default_seed);
  let '(X_neg, valid_negatives) := sample_embeddings m t negatives in
  mret (X_pos, valid_positives, X_neg).

(** Lines 201-206: the neighbour count, the pipeline built with it, and
    [model.fit]. *)
Definition train_classifier `{NumpyRandom} `{Sklearn} (X_train : ndarray) (y_train : list Z)
    : M model :=
  let k := n_neighbors (array_len X_train) in
  emit (CallFit k (array_len X_train));;
  lift (fit k X_train y_train).

(** Lines 195-206. *)
Definition train `{NumpyRandom} `{Sklearn} (X_pos X_neg : ndarray) : M model :=
  X_train ← lift (np_vstack X_pos X_neg);
  let y_train := replicate (array_len X_pos) 1 ++ replicate (array_len X_neg) 0 in
  train_classifier X_train y_train.

(** Lines 225-227: the statistics that are logged; [min] and [max] of an
    empty array raise. *)
Definition log_stats (probabilities : list float32) : result unit :=
  match probabilities with
  | [] => Raise (ValueError "zero-size array to reduction operation minimum which has no identity")
  | _ => Ok tt
  end.

Definition path_join (dir name : string) : string := dir +:+ "/" +:+ name.

(** Lines 230-288: the directory and the three files. *)
Definition write_outputs `{NumpyRandom} `{Rasterio} (species_name : string) (taxon_key : json)
    (output_dir : string) (m : mosaic) (t : transform)
    (probabilities : list float32) (valid_positives : list coord) : M unit :=
  emit (Mkdir output_dir);;
  emit (WriteFile (path_join output_dir "probability.tif")
          (Raster (mosaic_h m) (mosaic_w m) probabilities));;
  candidates ← with_rng (extract_candidates t (mosaic_w m) probabilities);
  emit (WriteFile (path_join output_dir "candidates.geojson")
          (CandidateCollection candidates
             (Metadata species_name taxon_key (length valid_positives)
                (length candidates) threshold)));;
  emit (WriteFile (path_join output_dir "occurrences.geojson")
          (OccurrenceCollection valid_positives)).

(** Lines 208-293: the mosaic scored with the fitted model, and the
    outputs. *)
Definition score_and_write `{NumpyRandom} `{Rasterio} `{Sklearn}
    (species_name : string) (taxon_key : json) (output_dir : string)
    (m : mosaic) (t : transform) (valid_positives : list coord) (md : model) : M unit :=
  all_pixels ← lift (reshape_pixels m);
  probabilities ← lift (predict_batched (Z.to_nat batch_size) md all_pixels);
  lift (log_stats probabilities);;
  write_outputs species_name taxon_key output_dir m t probabilities valid_positives.

(** Lines 194-293: the run from the two sample arrays on. *)
Definition train_and_write `{NumpyRandom} `{Rasterio} `{Sklearn}
    (species_name : string) (taxon_key : json) (output_dir : string)
    (m : mosaic) (t : transform) (X_pos : ndarray) (valid_positives : list coord)
    (X_neg : ndarray) : M unit :=
  md ← train X_pos X_neg;
  score_and_write species_name taxon_key output_dir m t valid_positives md.

(** Lines 177-293: the run from the mosaic on. *)
Definition run_pipeline `{NumpyRandom} `{Rasterio} `{!TileCache} `{Sklearn}
    (species_name : string) (taxon_key : json) (b : bbox) (output_dir : string)
    (positives : list (json * json)) : M unit :=
  '(m, t) ← lift (load_mosaic b);
  coords ← lift (mapM as_coord positives);
  '(X_pos, valid_positives, X_neg) ← prepare_samples m t b coords;
  train_and_write species_name taxon_key output_dir m t X_pos valid_positives X_neg.

(** [run(species_name, bbox, output_dir)]; [None] when fetching the
    occurrences does not finish within the fuel. *)
Definition run `{NumpyRandom} `{Rasterio} `{!TileCache} `{Sklearn} `{Gbif}
    (fuel : nat) (species_name : string) (b : bbox) (output_dir : string)
    (w : world) : option (result unit * world) :=
  match get_species_key species_name with
  | Raise e => Some (Raise e, w)
  | Ok taxon_key =>
      match fetch_occurrences fuel taxon_key b with
      | None => None
      | Some (Raise e) => Some (Raise e, w)
      | Some (Ok positives) =>
          if decide (length positives < 5)%nat then
            Some ((emit (LogError "Need at least 5 occurrences");; mret tt) w)
          else Some (run_pipeline species_name taxon_key b output_dir positives w)
      end
  end.

(** ** A small environment

    Concrete stand-ins for the libraries, the service and the cache, on
    which the model runs: a linear congruential generator, a north-up grid
    of square pixels, a classifier that reads the probability off the first
    channel, a one-page occurrence search and a 2 x 3 mosaic. *)
Module Demo.

Definition dec (n d : Z) : float64 := F64.div (F64.of_Z n) (F64.of_Z d).

Definition lcg (g : Z) : Z := (1103515245 * g + 12345) `mod` 2147483648.

Definition rng : NumpyRandom := {|
  rng_state := Z;
  np_random_seed := fun seed => seed `mod` 4294967296;
  np_random_uniform := fun low high g =>
    let g' := lcg g in
    (F64.add low (F64.mul (F64.sub high low) (dec g' 2147483648)), g');
  np_random_choice := fun n size g =>
    let g' := lcg g in
    let start := Z.to_nat (g' `mod` Z.max 1 (Z.of_nat n)) in
    (map (fun i => ((start + i) `mod` n)%nat) (seq 0 size), g')
|}.

(** The integer part, rounded down. *)
Definition floor (x : float64) : Z :=
  match x with
  | S754_finite s m e => Z.shiftl (cond_Zopp s (Z.pos m)) e
  | _ => 0
  end.

(** West edge, north edge and pixel size, in degrees. *)
Record grid := Grid { west : float64; north : float64; res : float64 }.

Definition rasterio : Rasterio := {|
  transform := grid;
  rowcol := fun t lon lat =>
    (floor (F64.div (F64.sub (north t) lat) (res t)),
     floor (F64.div (F64.sub lon (west t)) (res t)));
  xy := fun t row col =>
    (F64.add (west t) (F64.mul (F64.add (F64.of_Z (Z.of_nat col)) (dec 1 2)) (res t)),
     F64.sub (north t) (F64.mul (F64.add (F64.of_Z (Z.of_nat row)) (dec 1 2)) (res t)))
|}.

Definition sklearn : Sklearn := {|
  model := unit;
  fit := fun k X y =>
    if k <? 1 then Raise (ValueError "Expected n_neighbors > 0")
    else if decide (length y = array_len X) then Ok ()
    else Raise (ValueError "Found input variables with inconsistent numbers of samples");
  predict_proba := fun _ X =>
    map (fun px : pixel =>
           let p := F32.to_f64 (default (S754_zero false) (head px)) in
           [F64.sub (F64.of_Z 1) p; p]) X
|}.

Definition cambridge : bbox := BBox (dec 3 100) (dec 5213 100) (dec 22 100) (dec 5229 100).

Definition the_grid : grid := Grid (dec 0 1) (dec 523 10) (dec 1 10).

Definition f32 (n d : Z) : float32 := F32.of_f64 (dec n d).

(** Two rows of three one-channel pixels. *)
Definition the_mosaic : mosaic :=
  Mosaic 2 3 1 [f32 1 10; f32 7 10; f32 9 10; f32 6 10; f32 3 10; f32 8 10].

Definition tile_cache : @TileCache rasterio := {|
  load_mosaic := fun _ => Ok (the_mosaic, the_grid : @transform rasterio)
|}.

Definition record (lon lat : json) : json :=
  JObject (<["decimalLongitude" := lon]> (<["decimalLatitude" := lat]> ∅)).

Definition num (n d : Z) : json := JNumber (dec n d).

(** Seven records: five with both coordinates, one on the equator, one
    without a latitude. *)
Definition the_records : list json :=
  [ record (num 5 100) (num 5225 100);
    record (num 15 100) (num 5225 100);
    record (num 21 100) (num 5215 100);
    record (num 12 100) (JNumber (S754_zero false));
    record (num 8 100) (num 5214 100);
    JObject (<["decimalLongitude" := num 9 100]> ∅);
    record (num 18 100) (num 5228 100) ].

Definition gbif_with (records : list json) : Gbif := {|
  species_match := fun _ => Ok (<["usageKey" := JNumber (F64.of_Z 2878688)]> ∅);
  occurrence_search := fun _ _ offset =>
    Ok (<["results" := JArray (drop offset records)]>
          (<["count" := JNumber (F64.of_Z (Z.of_nat (length records)))]> ∅))
|}.

Definition gbif : Gbif := gbif_with the_records.

Definition world0 : @world rng := @World rng 0 [].

Definition the_positives : list coord :=
  [(dec 5 100, dec 5225 100); (dec 15 100, dec 5225 100)].

(** Five records, all east of the mosaic. *)
Definition gbif_far : Gbif :=
  gbif_with [ record (num 5 1) (num 5225 100); record (num 6 1) (num 5225 100);
              record (num 7 1) (num 5225 100); record (num 8 1) (num 5225 100);
              record (num 9 1) (num 5225 100) ].

(** Too few records for a run. *)
Definition gbif_few : Gbif := gbif_with (take 3 the_records).

Definition taxon_key : json := JNumber (F64.of_Z 2878688).

(** The three negatives drawn for [the_positives] with seed 42. *)
Definition three_negatives : result (list coord) * Z :=
  Eval vm_compute in @generate_negatives rng the_positives cambridge 3 42 0.

(** What the occurrence search returns for [the_records]. *)
Definition fetched : list (json * json) :=
  [ (num 5 100, num 5225 100);
    (num 15 100, num 5225 100);
    (num 21 100, num 5215 100);
    (num 8 100, num 5214 100);
    (num 18 100, num 5228 100) ].

Definition fetched_coords : list coord :=
  [ (dec 5 100, dec 5225 100);
    (dec 15 100, dec 5225 100);
    (dec 21 100, dec 5215 100);
    (dec 8 100, dec 5214 100);
    (dec 18 100, dec 5228 100) ].

(** A box with min < max on both axes whose longitudes are too far apart
    for their difference to be a float. *)
Definition wide_box : bbox :=
  BBox (F64.of_Z (- 2 ^ 1023)) (dec 5213 100) (F64.of_Z (2 ^ 1023)) (dec 5229 100).




(** A raster of one row with 5001 cells at 0.9. *)
Definition long_mosaic : mosaic := Mosaic 1 (Z.to_nat 5001) 1 [].
Definition long_raster : list float32 := replicate (Z.to_nat 5001) (f32 9 10).

End Demo.

(** ** Notions used to state further properties *)

(** Ascending order of the probabilities of a feature list. *)
Fixpoint ascending (l : list feature) : Prop :=
  match l with
  | [] => True
  | f :: l' =>
      Forall (fun g => F64.geb (probability g) (probability f) = true) l' /\ ascending l'
  end.

(** The output events of a trace, in order. *)
Definition outputs (tr : list event) : list event := List.filter is_output tr.

(** The output events of a complete run into [output_dir]: the directory,
    then the raster, the candidates and the occurrences. *)
Definition complete_outputs (output_dir : string) (evs : list event) : Prop :=
  exists height width band features meta points,
    evs = [ Mkdir output_dir;
            WriteFile (path_join output_dir "probability.tif") (Raster height width band);
            WriteFile (path_join output_dir "candidates.geojson")
              (CandidateCollection features meta);
            WriteFile (path_join output_dir "occurrences.geojson")
              (OccurrenceCollection points) ].

(** How an action that ends a run may end: it raises and has written
    nothing, or it returns and has written everything. *)
Definition all_or_nothing `{NumpyRandom} (output_dir : string) (m : M unit) : Prop :=
  forall w r w', m w = (r, w') ->
    exists tail, w_trace w' = w_trace w ++ tail /\
      ((exists e, r = Raise e /\ outputs tail = []) \/
       (r = Ok () /\ complete_outputs output_dir (outputs tail))).

(** The slices [all_pixels[i:end]] the prediction loop hands to
    [predict_proba], one per iteration, in order. *)
Definition batches (B : nat) (all_pixels : list pixel) : result (list (list pixel)) :=
  let n_pixels := length all_pixels in
  starts ← py_range 0 n_pixels B;
  Ok (map (fun i => slice i ((i + B) `min` n_pixels)%nat all_pixels) starts).

(** A server that holds [records] for the query and pages them as the
    service documents: the page at an offset carries the next (at most 300)
    records and the total count. *)
Definition serves `{Gbif} (records : list json) (taxon_key : json) (b : bbox) : Prop :=
  forall offset, exists data,
    occurrence_search taxon_key b offset = Ok data /\
    data !! "results" = Some (JArray (take 300 (drop offset records))) /\
    data !! "count" = Some (JNumber (F64.of_Z (Z.of_nat (length records)))).

(** ** Stitching the tiles: [load_mosaic], lines 112-145

    The loops of lines 101-110 fill the dictionary [tiles] from the files
    of the cache; what follows them is modelled here, from that dictionary:
    its keys are the grid coordinates (tlon, tlat), rounded floats, in the
    order of insertion, and its values the loaded arrays. *)

(** [step = 0.1] *)
Definition lit_0_1 : float64 := S754_finite false 7205759403792794 (-56).

(** A loaded tile: an array of shape (rows, columns, channels), as a
    row-major buffer. *)
Record tile := Tile {
  tile_rows : nat;
  tile_cols : nat;
  tile_chans : nat;
  tile_values : list float64
}.

(** [tile[r, q, k]] *)
Definition tile_at (T : tile) (r q k : nat) : float64 :=
  default (S754_zero false)
    (tile_values T !! ((r * tile_cols T + q) * tile_chans T + k)%nat).

(** Equality of two keys: [==] on each float. *)
Definition key_eqb (a b : coord) : bool := SFeqb a.1 b.1 && SFeqb a.2 b.2.

(** [tiles[key]] when [key in tiles]. *)
Definition tiles_lookup (tiles : list (coord * tile)) (key : coord) : option tile :=
  snd <$> List.find (fun kv => key_eqb kv.1 key) tiles.

(** [set(xs)]: one element for each class of equal floats, the first met. *)
Fixpoint py_set (xs : list float64) : list float64 :=
  match xs with
  | [] => []
  | x :: xs' => x :: List.filter (fun y => negb (SFeqb y x)) (py_set xs')
  end.

(** [sorted(xs)] and [sorted(xs, reverse=True)]: stable sorts. *)
Fixpoint insert_asc (x : float64) (l : list float64) : list float64 :=
  match l with
  | [] => [x]
  | y :: l' => if SFltb y x then y :: insert_asc x l' else x :: y :: l'
  end.

Fixpoint insert_desc (x : float64) (l : list float64) : list float64 :=
  match l with
  | [] => [x]
  | y :: l' => if SFltb x y then y :: insert_desc x l' else x :: y :: l'
  end.

Definition sorted_asc (xs : list float64) : list float64 := foldr insert_asc [] xs.
Definition sorted_desc (xs : list float64) : list float64 := foldr insert_desc [] xs.

(** [min(xs)] and [max(xs)] of a list: the first smallest, the first
    largest; an error on the empty list. *)
Definition py_min (xs : list float64) : result float64 :=
  match xs with
  | [] => Raise (ValueError "min() arg is an empty sequence")
  | x :: xs' => Ok (foldl (fun m y => if SFltb y m then y else m) x xs')
  end.

Definition py_max (xs : list float64) : result float64 :=
  match xs with
  | [] => Raise (ValueError "max() arg is an empty sequence")
  | x :: xs' => Ok (foldl (fun m y => if SFltb m y then y else m) x xs')
  end.

(** [unique_lons] and [unique_lats] *)
Definition tile_lons (tiles : list (coord * tile)) : list float64 :=
  sorted_asc (py_set (map (fun kv => kv.1.1) tiles)).

Definition tile_lats (tiles : list (coord * tile)) : list float64 :=
  sorted_desc (py_set (map (fun kv => kv.1.2) tiles)).

(** The position (row, column, channel) of a flat index in an array with
    [W] columns and [C] channels. *)
Definition unravel (W C idx : nat) : nat * nat * nat :=
  ((idx `div` (W * C))%nat, ((idx `div` C) `mod` W)%nat, (idx `mod` C)%nat).

(** numpy's broadcasting of an axis of the value onto an axis of the
    target: the same length, or length 1 repeated. *)
Definition broadcasts (src tgt : nat) : bool :=
  bool_decide (src = tgt) || bool_decide (src = 1%nat).

Definition broadcast_index (src i : nat) : nat :=
  if decide (src = 1%nat) then 0%nat else i.

(** [mosaic[r0:r0+h, c0:c0+w, :] = tile] for a tile of shape (h, w, c):
    the slice is clipped to the mosaic, the tile is broadcast to it or the
    assignment raises, and the values are cast to float32. *)
Definition assign_block (m : mosaic) (r0 c0 : nat) (T : tile) : result mosaic :=
  let H := mosaic_h m in
  let W := mosaic_w m in
  let C := n_channels m in
  let r1 := (r0 `min` H)%nat in
  let c1 := (c0 `min` W)%nat in
  let sh := ((r0 + tile_rows T) `min` H - r1)%nat in
  let sw := ((c0 + tile_cols T) `min` W - c1)%nat in
  if broadcasts (tile_rows T) sh && broadcasts (tile_cols T) sw
     && broadcasts (tile_chans T) C
  then
    Ok (Mosaic H W C
          (imap (fun idx old =>
                   let '(row, col, k) := unravel W C idx in
                   if bool_decide (r1 <= row < r1 + sh)%nat
                      && bool_decide (c1 <= col < c1 + sw)%nat
                   then F32.of_f64
                          (tile_at T (broadcast_index (tile_rows T) (row - r1))
                                     (broadcast_index (tile_cols T) (col - c1))
                                     (broadcast_index (tile_chans T) k))
                   else old)
                (mosaic_data m)))
  else Raise (ValueError "could not broadcast input array").

(** [enumerate(xs)] *)
Definition enumerate {A} (xs : list A) : list (nat * A) := imap pair xs.

(** [rasterio.transform.from_bounds(west, south, east, north, width,
    height)]; it divides by the width and the height. *)
Class RasterioBounds `{Rasterio} := {
  from_bounds : float64 -> float64 -> float64 -> float64 -> nat -> nat -> result transform
}.

(** The two nested loops over [unique_lats] and [unique_lons]. *)
Definition place_tiles (tiles : list (coord * tile)) (tile_h tile_w : nat)
    (unique_lats unique_lons : list float64) (zeros : mosaic) : result mosaic :=
  for_each (fun (m : mosaic) '(i, tlat) =>
    for_each (fun (m : mosaic) '(j, tlon) =>
      match tiles_lookup tiles (tlon, tlat) with
      | Some T => assign_block m (i * tile_h) (j * tile_w) T
      | None => Ok m
      end) (enumerate unique_lons) m) (enumerate unique_lats) zeros.

(** Lines 112-145 of [load_mosaic]. *)
Definition stitch_tiles `{Rasterio} `{!RasterioBounds} (tiles : list (coord * tile))
    : result (mosaic * transform) :=
  match tiles with
  | [] => Raise (ValueError "No tiles found")
  | (_, sample_tile) :: _ =>
      let tile_h := tile_rows sample_tile in
      let tile_w := tile_cols sample_tile in
      let n_channels := tile_chans sample_tile in
      let unique_lons := tile_lons tiles in
      let unique_lats := tile_lats tiles in
      let mosaic_h := (length unique_lats * tile_h)%nat in
      let mosaic_w := (length unique_lons * tile_w)%nat in
      let zeros := Mosaic mosaic_h mosaic_w n_channels
                     (replicate (mosaic_h * mosaic_w * n_channels) (S754_zero false)) in
      m ← place_tiles tiles tile_h tile_w unique_lats unique_lons zeros;
      mosaic_min_lon ← py_min unique_lons;
      max_lat ← py_max unique_lats;
      let mosaic_max_lat := F64.add max_lat lit_0_1 in
      t ← from_bounds
            mosaic_min_lon
            (F64.sub mosaic_max_lat
               (F64.mul lit_0_1 (F64.of_Z (Z.of_nat (length unique_lats)))))
            (F64.add mosaic_min_lon
               (F64.mul lit_0_1 (F64.of_Z (Z.of_nat (length unique_lons)))))
            mosaic_max_lat mosaic_w mosaic_h;
      Ok (m, t)
  end.

(** All tiles have the shape (th, tw, c): the assumption of line 115. *)
Definition same_shape (tiles : list (coord * tile)) (th tw c : nat) : Prop :=
  Forall (fun kv => tile_rows kv.2 = th /\ tile_cols kv.2 = tw /\ tile_chans kv.2 = c) tiles.

(** The state of the mosaic when the loops of lines 128-133 have reached
    the block (i, j0): the blocks before it hold their tile, or zeros where
    the dictionary has none; the blocks from it on hold zeros. *)
Definition placed (tiles : list (coord * tile)) (th tw : nat)
    (lats lons : list float64) (i j0 : nat) (m : mosaic) : Prop :=
  mosaic_h m = (length lats * th)%nat /\
  mosaic_w m = (length lons * tw)%nat /\
  length (mosaic_data m) = (mosaic_h m * mosaic_w m * n_channels m)%nat /\
  forall bi bj lat lon r q k,
    lats !! bi = Some lat -> lons !! bj = Some lon ->
    (r < th)%nat -> (q < tw)%nat -> (k < n_channels m)%nat ->
    mosaic_data m !! (((bi * th + r) * mosaic_w m + (bj * tw + q)) * n_channels m + k)%nat
    = Some (if bool_decide (bi < i \/ (bi = i /\ bj < j0))%nat
            then match tiles_lookup tiles (lon, lat) with
                 | Some T => F32.of_f64 (tile_at T r q k)
                 | None => S754_zero false
                 end
            else S754_zero false).

(** A list of floats in strictly increasing, strictly decreasing order. *)
Fixpoint increasing (l : list float64) : Prop :=
  match l with
  | [] => True
  | x :: l' => Forall (fun y => SFltb x y = true) l' /\ increasing l'
  end.

Fixpoint decreasing (l : list float64) : Prop :=
  match l with
  | [] => True
  | x :: l' => Forall (fun y => SFltb y x = true) l' /\ decreasing l'
  end.

(** No key of the dictionary has a NaN. *)
Definition keys_not_nan (tiles : list (coord * tile)) : Prop :=
  Forall (fun kv => F64.is_nan kv.1.1 = false /\ F64.is_nan kv.1.2 = false) tiles.

(** The keys of a dictionary are pairwise different. *)
Definition distinct_keys (tiles : list (coord * tile)) : Prop :=
  forall i j kv1 kv2,
    tiles !! i = Some kv1 -> tiles !! j = Some kv2 ->
    key_eqb kv1.1 kv2.1 = true -> i = j.

(** Floats that are pairwise different for [==]. *)
Fixpoint distinct_floats (l : list float64) : Prop :=
  match l with
  | [] => True
  | x :: l' => Forall (fun y => SFeqb y x = false) l' /\ distinct_floats l'
  end.

(** ** A small tile cache *)
Module Demo2.

Definition bounds : @RasterioBounds Demo.rasterio := {|
  from_bounds := fun west south east north width height =>
    if decide (width = 0%nat) then Raise (LibraryError "ZeroDivisionError")
    else Ok (Demo.Grid west north
               (F64.div (F64.sub east west) (F64.of_Z (Z.of_nat width)))
             : @transform Demo.rasterio)
|}.

Definition tile_of (vs : list Z) : tile :=
  Tile 2 2 1 (map (fun v => Demo.dec v 10) vs).

(** Two tiles of a 2 x 2 grid of cells, south-west and north-east. *)
Definition two_tiles : list (coord * tile) :=
  [ ((Demo.dec 5 100, Demo.dec 5215 100), tile_of [1; 2; 3; 4]);
    ((Demo.dec 15 100, Demo.dec 5225 100), tile_of [5; 6; 7; 8]) ].

(** The mosaic and the bounds stitched from them. *)
Definition the_stitched : mosaic :=
  Eval vm_compute in
    match @stitch_tiles Demo.rasterio bounds two_tiles with
    | Ok (m, _) => m
    | Raise _ => Mosaic 0 0 0 []
    end.

Definition the_bounds : Demo.grid :=
  Eval vm_compute in
    match @stitch_tiles Demo.rasterio bounds two_tiles with
    | Ok (_, t) => t
    | Raise _ => Demo.the_grid
    end.

(** The candidates of the 2 x 3 raster. *)
Definition the_candidates : list feature :=
  Eval vm_compute in
    match (@extract_candidates Demo.rng Demo.rasterio Demo.the_grid 3
             (mosaic_data Demo.the_mosaic) 0).1 with
    | Ok l => l
    | Raise _ => []
    end.

(** A box that is a single point, on the first positive. *)
Definition point_box : bbox :=
  BBox (Demo.dec 5 100) (Demo.dec 5225 100) (Demo.dec 5 100) (Demo.dec 5225 100).

Definition exhausted : result neg_loop * Z :=
  Eval vm_compute in
    @generate_negatives_loop Demo.rng Demo.the_positives point_box 2 42 0.

(** A box away from the mosaic, and the negatives drawn in it. *)
Definition far_box : bbox :=
  BBox (Demo.dec 5 1) (Demo.dec 10 1) (Demo.dec 6 1) (Demo.dec 11 1).

Definition far_negatives : result (list coord) * Z :=
  Eval vm_compute in
    @generate_negatives Demo.rng
      (List.filter (@resolves_inside Demo.rasterio Demo.the_mosaic Demo.the_grid)
         Demo.fetched_coords)
      far_box 25 42 0.

(** Five occurrences east of the mosaic. *)
Definition far_fetched : list (json * json) :=
  [ (Demo.num 5 1, Demo.num 5225 100); (Demo.num 6 1, Demo.num 5225 100);
    (Demo.num 7 1, Demo.num 5225 100); (Demo.num 8 1, Demo.num 5225 100);
    (Demo.num 9 1, Demo.num 5225 100) ].

Definition far_coords : list coord :=
  [ (Demo.dec 5 1, Demo.dec 5225 100); (Demo.dec 6 1, Demo.dec 5225 100);
    (Demo.dec 7 1, Demo.dec 5225 100); (Demo.dec 8 1, Demo.dec 5225 100);
    (Demo.dec 9 1, Demo.dec 5225 100) ].

(** An occurrence search that serves pages of 300 records. *)
Definition gbif_paged (records : list json) : Gbif := {|
  species_match := fun _ => Ok (<["usageKey" := JNumber (F64.of_Z 2878688)]> ∅);
  occurrence_search := fun _ _ offset =>
    Ok (<["results" := JArray (take 300 (drop offset records))]>
          (<["count" := JNumber (F64.of_Z (Z.of_nat (length records)))]> ∅))
|}.

(** 307 records: two pages. *)
Definition many_records : list json :=
  replicate 300 (Demo.record (Demo.num 5 100) (Demo.num 5225 100)) ++ Demo.the_records.

(** A service that does not know the species, and one that is down. *)
Definition gbif_unknown : Gbif := {|
  species_match := fun _ => Ok (<["matchType" := JString "NONE"]> ∅);
  occurrence_search := fun _ _ _ => Raise HTTPError
|}.

Definition gbif_down : Gbif := {|
  species_match := fun _ => Raise HTTPError;
  occurrence_search := fun _ _ _ => Raise HTTPError
|}.

Definition five_pixels : list pixel :=
  [[Demo.f32 1 10]; [Demo.f32 7 10]; [Demo.f32 9 10]; [Demo.f32 6 10]; [Demo.f32 3 10]].

End Demo2.

(** * Properties *)

(** ** The order of the floating-point comparisons *)

Lemma SFcompare_key (x y : spec_float) :
  SFcompare x y =
    match SFkey x, SFkey y with
    | Some a, Some b => Some (lex3_compare a b)
    | _, _ => None
    end.
Proof.
  destruct x as [[]|[]| |[] m1 e1], y as [[]|[]| |[] m2 e2]; try reflexivity.
  cbn. rewrite Z.compare_opp, (Z.compare_antisym e1 e2).
  destruct (e1 ?= e2); reflexivity.
Qed.

Lemma lex3_compare_Lt (a b : Z * Z * Z) :
  lex3_compare a b = Lt <-> lex3_lt a b.
Proof.
  destruct a as [[a1 a2] a3], b as [[b1 b2] b3]. unfold lex3_lt, lex3_compare; cbn.
  destruct (Z.compare_spec a1 b1), (Z.compare_spec a2 b2), (Z.compare_spec a3 b3);
    split; intros; try discriminate; try reflexivity; lia.
Qed.

Lemma lex3_compare_Gt (a b : Z * Z * Z) :
  lex3_compare a b = Gt <-> lex3_lt b a.
Proof.
  destruct a as [[a1 a2] a3], b as [[b1 b2] b3]. unfold lex3_lt, lex3_compare; cbn.
  destruct (Z.compare_spec a1 b1), (Z.compare_spec a2 b2), (Z.compare_spec a3 b3);
    split; intros; try discriminate; try reflexivity; lia.
Qed.

Lemma lex3_compare_Eq (a b : Z * Z * Z) :
  lex3_compare a b = Eq <-> a = b.
Proof.
  destruct a as [[a1 a2] a3], b as [[b1 b2] b3]. unfold lex3_compare.
  destruct (Z.compare_spec a1 b1), (Z.compare_spec a2 b2), (Z.compare_spec a3 b3);
    split; intros E; try discriminate; try (inversion E; lia); subst; reflexivity.
Qed.

Lemma lex3_lt_trans (a b c : Z * Z * Z) :
  lex3_lt a b -> lex3_lt b c -> lex3_lt a c.
Proof. unfold lex3_lt. lia. Qed.

Lemma lex3_trichotomy (a b : Z * Z * Z) :
  lex3_lt a b \/ a = b \/ lex3_lt b a.
Proof.
  destruct (lex3_compare a b) eqn:E.
  - right; left. by apply lex3_compare_Eq.
  - left. by apply lex3_compare_Lt.
  - right; right. by apply lex3_compare_Gt.
Qed.

Lemma SFltb_key (x y : spec_float) :
  SFltb x y = true <->
  exists a b, SFkey x = Some a /\ SFkey y = Some b /\ lex3_lt a b.
Proof.
  unfold SFltb. rewrite SFcompare_key.
  destruct (SFkey x) as [a|], (SFkey y) as [b|]; split;
    try discriminate; try (intros (? & ? & ? & ? & _); discriminate).
  - intros E. exists a, b. repeat split.
    apply lex3_compare_Lt. by destruct (lex3_compare a b).
  - intros (a' & b' & [= <-] & [= <-] & L).
    apply lex3_compare_Lt in L. by rewrite L.
Qed.

Lemma SFltb_false_key (x y : spec_float) (a b : Z * Z * Z) :
  SFkey x = Some a -> SFkey y = Some b -> SFltb x y = false ->
  a = b \/ lex3_lt b a.
Proof.
  intros Ka Kb E. destruct (lex3_trichotomy a b) as [L|L]; [|done].
  assert (SFltb x y = true) by (apply SFltb_key; eauto 6). congruence.
Qed.

Lemma SFltb_trans (x y z : spec_float) :
  SFltb x y = true -> SFltb y z = true -> SFltb x z = true.
Proof.
  rewrite !SFltb_key. intros (a & b & Ka & Kb & L1) (b' & c & Kb' & Kc & L2).
  exists a, c. repeat split; try done.
  assert (b' = b) as -> by congruence. eauto using lex3_lt_trans.
Qed.

Lemma is_nan_key (x : spec_float) :
  F64.is_nan x = false -> exists a, SFkey x = Some a.
Proof. destruct x as [[]|[]| |[] ? ?]; cbn; try discriminate; eauto. Qed.

(** ** [a.min()] bounds every entry *)

Lemma np_minimum_gt (d a b : float64) :
  F64.ltb d (np_minimum a b) = true ->
  F64.ltb d a = true /\ F64.ltb d b = true.
Proof.
  unfold np_minimum, F64.ltb.
  destruct (F64.is_nan a) eqn:Na.
  { destruct a; try discriminate. intros E. apply SFltb_key in E.
    destruct E as (? & ? & _ & ? & _). discriminate. }
  destruct (SFltb a b) eqn:Lab; intros Ld.
  - eauto using SFltb_trans.
  - split; [|done].
    destruct (is_nan_key a Na) as (ka & Ka).
    apply SFltb_key in Ld as (kd & kb & Kd & Kb & L).
    destruct (SFltb_false_key _ _ _ _ Ka Kb Lab) as [->|L'];
      apply SFltb_key; exists kd; eauto 6 using lex3_lt_trans.
Qed.

Lemma foldl_np_minimum_gt (d x : float64) (xs : list float64) :
  F64.ltb d (foldl np_minimum x xs) = true ->
  F64.ltb d x = true /\ Forall (fun y => F64.ltb d y = true) xs.
Proof.
  revert x. induction xs as [|y ys IH]; intros x; cbn.
  - auto.
  - intros E. apply IH in E as [E1 E2]. apply np_minimum_gt in E1 as [? ?]. auto.
Qed.

Lemma np_min_gt (d m : float64) (a : list float64) :
  np_min a = Ok m -> F64.gtb m d = true ->
  Forall (fun y => F64.gtb y d = true) a.
Proof.
  destruct a as [|x xs]; cbn; [discriminate|].
  intros [= <-] E. apply foldl_np_minimum_gt in E as [? ?]. by constructor.
Qed.

(** ** [generate_negatives] *)

Section Negatives.
Context {R : NumpyRandom}.

Lemma zip_with_map_same {A B C D} (f : B -> C -> D) (g : A -> B) (h : A -> C) (l : list A) :
  zip_with f (map g l) (map h l) = map (fun x => f (g x) (h x)) l.
Proof. induction l as [|x l IH]; cbn; [done|]. by rewrite IH. Qed.

(** The array [dists] holds the distance of the draw to each positive, in
    the order of the positives. *)
Lemma dists_nonempty (positives : list coord) (lon lat : float64) :
  positives <> [] ->
  dists positives lon lat = Ok (map (fun p => degree_dist p lon lat) positives).
Proof.
  intros Hne. unfold dists, pos_column.
  destruct positives as [|p ps]; [done|]. cbn [mbind result_bind].
  rewrite !map_map, zip_with_map_same, map_map. reflexivity.
Qed.

Lemma accepted_separated (positives : list coord) (lon lat d : float64) :
  dists positives lon lat ≫= np_min = Ok d ->
  F64.gtb d min_dist = true ->
  separated positives (lon, lat).
Proof.
  intros E Hd p Hp.
  destruct positives as [|p0 ps]; [by apply elem_of_nil in Hp|].
  rewrite dists_nonempty in E by done. cbn [mbind result_bind] in E.
  pose proof (np_min_gt _ _ _ E Hd) as F.
  rewrite Forall_forall in F. apply F.
  by apply (list_elem_of_fmap_2 (fun p => degree_dist p lon lat)).
Qed.

(** A seed that fits 32 bits is accepted, another one is refused and the
    generator is left as it was. *)
Lemma np_seed_valid (seed : Z) (g0 : rng_state) :
  0 <= seed < 2 ^ 32 -> np_seed seed g0 = (Ok tt, np_random_seed seed).
Proof. intros H. unfold np_seed. by rewrite decide_True. Qed.

Lemma np_seed_invalid (seed : Z) (g0 : rng_state) :
  ~ 0 <= seed < 2 ^ 32 ->
  np_seed seed g0 = (Raise (ValueError "Seed must be between 0 and 2**32 - 1"), g0).
Proof. intros H. unfold np_seed. by rewrite decide_False. Qed.

(** A draw over a finite width is the draw of the generator. *)
Lemma np_uniform_finite (low high : float64) (g : rng_state) :
  F64.is_finite (F64.sub high low) = true ->
  np_uniform low high g =
    (Ok (np_random_uniform low high g).1, (np_random_uniform low high g).2).
Proof.
  intros H. unfold np_uniform. rewrite H.
  by destruct (np_random_uniform low high g).
Qed.

Lemma np_uniform_overflow (low high : float64) (g : rng_state) :
  F64.is_finite (F64.sub high low) = false ->
  np_uniform low high g = (Raise (OverflowError "Range exceeds valid bounds"), g).
Proof. intros H. unfold np_uniform. by rewrite H. Qed.

Lemma negatives_loop_separated (budget : nat) (positives : list coord) (b : bbox)
    (n_samples : Z) (st st' : neg_loop) (g g' : rng_state) :
  negatives_loop budget positives b n_samples st g = (Ok st', g') ->
  Forall (separated positives) (negatives st) ->
  Forall (separated positives) (negatives st').
Proof.
  revert st g. induction budget as [|budget IH]; intros st g; cbn.
  - by intros [= <- <-].
  - destruct (Z.of_nat (length (negatives st)) >=? n_samples); [by intros [= <- <-]|].
    destruct (np_uniform (min_lon b) (max_lon b) g) as [[lon|e1] g1]; [|discriminate].
    destruct (np_uniform (min_lat b) (max_lat b) g1) as [[lat|e2] g2]; [|discriminate].
    destruct (dists positives lon lat ≫= np_min) as [d|e] eqn:Ed; [|discriminate].
    intros E Hst. apply IH in E; [done|]. cbn.
    destruct (F64.gtb d min_dist) eqn:Hd; [|done].
    apply Forall_app; split; [done|].
    constructor; [|constructor]. eauto using accepted_separated.
Qed.

(** The loop stops within its budget, and with no more points than were
    asked for. *)
Lemma negatives_loop_bounds (budget : nat) (positives : list coord) (b : bbox)
    (n_samples : Z) (st st' : neg_loop) (g g' : rng_state) :
  negatives_loop budget positives b n_samples st g = (Ok st', g') ->
  (iterations st' <= iterations st + budget)%nat /\
  (Z.of_nat (length (negatives st)) <= Z.max 0 n_samples ->
   Z.of_nat (length (negatives st')) <= Z.max 0 n_samples).
Proof.
  revert st g. induction budget as [|budget IH]; intros st g; cbn.
  - intros [= <- <-]. split; [lia|done].
  - destruct (Z.of_nat (length (negatives st)) >=? n_samples) eqn:Hlen;
      [intros [= <- <-]; cbn; split; [lia|done]|].
    destruct (np_uniform (min_lon b) (max_lon b) g) as [[lon|e1] g1]; [|discriminate].
    destruct (np_uniform (min_lat b) (max_lat b) g1) as [[lat|e2] g2]; [|discriminate].
    destruct (dists positives lon lat ≫= np_min) as [d|e]; [|discriminate].
    intros E. apply IH in E as [E1 E2]. cbn in E1, E2. split; [lia|].
    intros _. apply E2. destruct (F64.gtb d min_dist); [|lia].
    rewrite length_app. cbn. lia.
Qed.

(** With a positive to measure against and a box of finite widths, no
    iteration raises. *)
Lemma negatives_loop_ok (budget : nat) (positives : list coord) (b : bbox)
    (n_samples : Z) (st : neg_loop) (g : rng_state) :
  positives <> [] -> finite_widths b ->
  exists st' g', negatives_loop budget positives b n_samples st g = (Ok st', g').
Proof.
  intros Hne [Hlon Hlat]. revert st g. induction budget as [|budget IH]; intros st g; cbn.
  - eauto.
  - destruct (Z.of_nat (length (negatives st)) >=? n_samples); [eauto|].
    rewrite (np_uniform_finite _ _ g Hlon).
    rewrite (np_uniform_finite _ _ _ Hlat).
    rewrite dists_nonempty by done. cbn [mbind result_bind].
    destruct positives as [|p ps]; [done|]. cbn [map np_min]. apply IH.
Qed.

(** (C1) Every point [generate_negatives] returns is separated from the
    positive set: the distance the script computes from it to each
    positive, in degrees, is strictly greater than 0.005. *)
Theorem generate_negatives_separation (positives : list coord) (b : bbox)
    (n_samples seed : Z) (g0 g' : rng_state) (negs : list coord) :
  generate_negatives positives b n_samples seed g0 = (Ok negs, g') ->
  forall q p, q ∈ negs -> p ∈ positives ->
    F64.gtb (degree_dist p q.1 q.2) lit_0_005 = true.
Proof.
  unfold generate_negatives, generate_negatives_loop.
  destruct (np_seed seed g0) as [[[]|e0] gs]; [|discriminate].
  destruct (negatives_loop _ _ _ _ _ _) as [[st|e] g] eqn:E; [|discriminate].
  cbn. intros [= <- <-] q p Hq Hp.
  apply negatives_loop_separated in E; [|by constructor].
  rewrite Forall_forall in E. by apply (E q).
Qed.

(** (C7) [generate_negatives] seeds the generator itself: whatever state
    the global generator is in when it is called, the same positive set,
    bounding box, target count and seed give the same outcome, the same
    sequence of negatives element for element or the same error; for a
    seed numpy accepts, the two calls also leave the generator in the same
    state. *)
Theorem generate_negatives_deterministic (positives : list coord) (b : bbox)
    (n_samples seed : Z) (g1 g2 : rng_state) :
  (generate_negatives positives b n_samples seed g1).1 =
  (generate_negatives positives b n_samples seed g2).1 /\
  (0 <= seed < 2 ^ 32 ->
   generate_negatives positives b n_samples seed g1 =
   generate_negatives positives b n_samples seed g2).
Proof.
  unfold generate_negatives, generate_negatives_loop.
  destruct (decide (0 <= seed < 2 ^ 32)) as [Hs|Hs].
  - by rewrite !np_seed_valid.
  - rewrite !np_seed_invalid by done. cbn. split; [done|]. by intros ?.
Qed.

(** Without a positive the first draw raises: the columns of an empty
    array cannot be indexed. *)
Lemma generate_negatives_empty_raises (b : bbox) (n_samples seed : Z) (g0 : rng_state) :
  1 <= n_samples -> 0 <= seed < 2 ^ 32 -> finite_widths b ->
  exists msg g', generate_negatives [] b n_samples seed g0 = (Raise (IndexError msg), g').
Proof.
  intros Hn Hs [Hlon Hlat]. unfold generate_negatives, generate_negatives_loop.
  rewrite np_seed_valid by done.
  destruct (Z.to_nat (n_samples * 100)) as [|budget] eqn:Eb; [lia|].
  cbn. change (Z.of_nat 0) with 0. destruct (0 >=? n_samples) eqn:E0; [lia|].
  rewrite (np_uniform_finite _ _ _ Hlon), (np_uniform_finite _ _ _ Hlat).
  cbn. eauto.
Qed.

(** A seed that does not fit 32 bits is refused before anything is drawn;
    a box with a width that is not finite is refused at the first draw. *)
Lemma generate_negatives_bad_seed (positives : list coord) (b : bbox)
    (n_samples seed : Z) (g0 : rng_state) :
  ~ 0 <= seed < 2 ^ 32 ->
  exists msg, generate_negatives positives b n_samples seed g0 = (Raise (ValueError msg), g0).
Proof.
  intros Hs. unfold generate_negatives, generate_negatives_loop.
  rewrite np_seed_invalid by done. cbn. eauto.
Qed.

Lemma generate_negatives_overflow (positives : list coord) (b : bbox)
    (n_samples seed : Z) (g0 : rng_state) :
  1 <= n_samples -> 0 <= seed < 2 ^ 32 -> ~ finite_widths b ->
  exists msg g',
    generate_negatives positives b n_samples seed g0 = (Raise (OverflowError msg), g').
Proof.
  intros Hn Hs Hw. unfold generate_negatives, generate_negatives_loop.
  rewrite np_seed_valid by done.
  destruct (Z.to_nat (n_samples * 100)) as [|budget] eqn:Eb; [lia|].
  cbn. change (Z.of_nat 0) with 0. destruct (0 >=? n_samples) eqn:E0; [lia|].
  destruct (F64.is_finite (F64.sub (max_lon b) (min_lon b))) eqn:Hlon.
  - rewrite (np_uniform_finite _ _ _ Hlon).
    destruct (F64.is_finite (F64.sub (max_lat b) (min_lat b))) eqn:Hlat.
    + exfalso. apply Hw. by split.
    + rewrite (np_uniform_overflow _ _ _ Hlat). cbn. eauto.
  - rewrite (np_uniform_overflow _ _ _ Hlon). cbn. eauto.
Qed.

(** (C9, amended) For a target count N >= 0, a seed numpy accepts and a
    box of finite widths: with a non-empty positive list,
    [generate_negatives] returns a list, without raising, after at most
    100 * N iterations of its loop, and the list has at most N points;
    with an empty positive list and N >= 1 it raises at the first draw,
    so the positive list has to be non-empty. *)
Theorem generate_negatives_terminates (positives : list coord) (b : bbox)
    (n_samples seed : Z) (g0 : rng_state) :
  0 <= n_samples -> 0 <= seed < 2 ^ 32 -> finite_widths b ->
  (positives <> [] ->
   exists st g',
     generate_negatives_loop positives b n_samples seed g0 = (Ok st, g') /\
     generate_negatives positives b n_samples seed g0 = (Ok (negatives st), g') /\
     Z.of_nat (iterations st) <= 100 * n_samples /\
     Z.of_nat (length (negatives st)) <= n_samples) /\
  (positives = [] -> 1 <= n_samples ->
   exists msg g',
     generate_negatives positives b n_samples seed g0 = (Raise (IndexError msg), g')).
Proof.
  intros Hn Hs Hw. split.
  - intros Hne. unfold generate_negatives.
    destruct (negatives_loop_ok (Z.to_nat (n_samples * 100)) positives b n_samples
                (NegLoop [] 0) (np_random_seed seed) Hne Hw) as (st & g' & E).
    exists st, g'. unfold generate_negatives_loop. rewrite np_seed_valid by done.
    rewrite E.
    apply negatives_loop_bounds in E as [E1 E2]. cbn in E1, E2.
    repeat split; [lia|]. rewrite Z.max_r in E2 by done. apply E2. lia.
  - intros -> Hn1. by apply generate_negatives_empty_raises.
Qed.

(** With a target count of zero the loop is not entered. *)
Lemma generate_negatives_zero (positives : list coord) (b : bbox) (seed : Z) (g0 : rng_state) :
  0 <= seed < 2 ^ 32 ->
  generate_negatives positives b 0 seed g0 = (Ok [], np_random_seed seed).
Proof.
  intros Hs. unfold generate_negatives, generate_negatives_loop.
  by rewrite np_seed_valid.
Qed.

End Negatives.

(** ** [sample_embeddings] *)

Section Sampler.
Context {Ras : Rasterio}.

Lemma sample_loop_spec (m : mosaic) (t : transform) (coords : list coord)
    (embeddings : list pixel) (valid_coords : list coord) :
  sample_loop m t coords embeddings valid_coords =
    (embeddings ++ map (embedding_at m t) (List.filter (resolves_inside m t) coords),
     valid_coords ++ List.filter (resolves_inside m t) coords).
Proof.
  revert embeddings valid_coords.
  induction coords as [|[lon lat] rest IH]; intros embeddings valid_coords; cbn.
  - by rewrite !app_nil_r.
  - assert (resolves_inside m t (lon, lat) = in_mosaic m (rowcol t lon lat)) as -> by done.
    assert (embedding_at m t (lon, lat) =
            mosaic_at m (Z.to_nat (rowcol t lon lat).1) (Z.to_nat (rowcol t lon lat).2))
      as Hemb by done.
    destruct (rowcol t lon lat) as [row col].
    destruct (in_mosaic m (row, col)); rewrite IH; [|done].
    cbn [map]. rewrite Hemb, <- !app_assoc. done.
Qed.


Lemma sample_embeddings_eq (m : mosaic) (t : transform) (coords : list coord) :
  sample_embeddings m t coords =
    (np_array (n_channels m)
       (map (embedding_at m t) (List.filter (resolves_inside m t) coords)),
     List.filter (resolves_inside m t) coords).
Proof. unfold sample_embeddings. by rewrite sample_loop_spec. Qed.


End Sampler.

(** ** Loops in the [result] monad *)

Lemma mapM_result_app {A B} (f : A -> result B) (l1 l2 : list A) :
  mapM f (l1 ++ l2) = k1 ← mapM f l1; k2 ← mapM f l2; Ok (k1 ++ k2).
Proof.
  induction l1 as [|x l1 IH]; cbn.
  - destruct (mapM f l2); reflexivity.
  - destruct (f x) as [y|e]; cbn; [|done]. rewrite IH.
    destruct (mapM f l1) as [k1|e]; cbn; [|done].
    destruct (mapM f l2); reflexivity.
Qed.

Lemma mapM_result_length {A B} (f : A -> result B) (l : list A) (k : list B) :
  mapM f l = Ok k -> length k = length l.
Proof.
  revert k. induction l as [|x l IH]; intros k; cbn.
  - by intros [= <-].
  - destruct (f x) as [y|e]; cbn; [|done].
    destruct (mapM f l) as [k'|e]; cbn; [|done].
    intros [= <-]. cbn. f_equal. by apply IH.
Qed.

Lemma column_app (j : nat) (a b : list (list float64)) :
  column j (a ++ b) = k1 ← column j a; k2 ← column j b; Ok (k1 ++ k2).
Proof. apply mapM_result_app. Qed.

Lemma column_length (j : nat) (a : list (list float64)) (col : list float64) :
  column j a = Ok col -> length col = length a.
Proof. apply mapM_result_length. Qed.

(** ** Batched prediction *)

Section Batches.
Context {Sk : Sklearn} {SkSpec : SklearnSpec Sk}.

Lemma predict_proba_take (md : model) (X : list pixel) (i : nat) :
  predict_proba md (take i X) = take i (predict_proba md X).
Proof using SkSpec.
  destruct (decide (i <= length X)%nat) as [Hi|Hi].
  - rewrite <- (take_drop i X) at 2. rewrite predict_proba_app.
    rewrite take_app_length'; [done|].
    rewrite predict_proba_length, length_take. lia.
  - rewrite !take_ge; [done| |lia]. rewrite predict_proba_length. lia.
Qed.

Lemma predict_proba_drop (md : model) (X : list pixel) (i : nat) :
  predict_proba md (drop i X) = drop i (predict_proba md X).
Proof using SkSpec.
  destruct (decide (i <= length X)%nat) as [Hi|Hi].
  - rewrite <- (take_drop i X) at 2. rewrite predict_proba_app.
    rewrite drop_app_length'; [done|].
    rewrite predict_proba_length, length_take. lia.
  - rewrite !drop_ge; [|rewrite predict_proba_length; lia|lia].
    pose proof (predict_proba_length md []) as E. cbn in E.
    by destruct (predict_proba md []).
Qed.

Lemma predict_proba_slice (md : model) (X : list pixel) (i j : nat) :
  predict_proba md (slice i j X) = slice i j (predict_proba md X).
Proof using SkSpec. unfold slice. by rewrite predict_proba_take, predict_proba_drop. Qed.

Lemma range_from_step (fuel start stop step : nat) :
  (start < stop)%nat ->
  range_from (S fuel) start stop step = start :: range_from fuel (start + step) stop step.
Proof. intros. cbn. by rewrite decide_True. Qed.

Lemma range_from_done (fuel start stop step : nat) :
  (stop <= start)%nat -> range_from fuel start stop step = [].
Proof. intros. destruct fuel; cbn; [done|]. rewrite decide_False; [done|lia]. Qed.

Lemma predict_batch_eq (B : nat) (md : model) (all_pixels : list pixel)
    (probabilities : list float32) (i : nat) :
  predict_batch B md all_pixels probabilities i =
  (col ← column 1 (slice i ((i + B) `min` length all_pixels)%nat
                     (predict_proba md all_pixels));
   slice_assign probabilities i ((i + B) `min` length all_pixels)%nat col).
Proof using SkSpec. unfold predict_batch. by rewrite predict_proba_slice. Qed.

(** The loop from index [i] on: the entries below [i] are kept, the
    entries from [i] on become the scores of the pixels from [i] on. *)
Lemma predict_loop_from (B : nat) (md : model) (all_pixels : list pixel)
    (fuel i : nat) (probabilities : list float32) :
  (0 < B)%nat ->
  length probabilities = length all_pixels ->
  (length all_pixels <= i + fuel)%nat ->
  for_each (predict_batch B md all_pixels)
    (range_from fuel i (length all_pixels) B) probabilities =
  (col ← column 1 (drop i (predict_proba md all_pixels));
   Ok (take i probabilities ++ map F32.of_f64 col)).
Proof using SkSpec.
  intros HB. set (n := length all_pixels).
  revert i probabilities. induction fuel as [|fuel IH]; intros i probabilities Hlen Hfuel.
  - rewrite range_from_done by lia. cbn.
    rewrite drop_ge by (rewrite predict_proba_length; fold n; lia). cbn.
    rewrite take_ge by lia. by rewrite app_nil_r.
  - destruct (decide (i < n)%nat) as [Hi|Hi].
    2: { rewrite range_from_done by lia. cbn.
         rewrite drop_ge by (rewrite predict_proba_length; fold n; lia). cbn.
         rewrite take_ge by lia. by rewrite app_nil_r. }
    rewrite range_from_step by done. cbn [for_each].
    rewrite predict_batch_eq. fold n.
    set (e := ((i + B) `min` n)%nat).
    assert (drop i (predict_proba md all_pixels) =
            slice i e (predict_proba md all_pixels) ++ drop e (predict_proba md all_pixels))
      as Hsplit.
    { unfold slice. rewrite <- (take_drop (e - i) (drop i _)) at 1.
      rewrite drop_drop. do 2 f_equal. lia. }
    rewrite Hsplit, column_app.
    destruct (column 1 (slice i e (predict_proba md all_pixels))) as [col|err] eqn:Ecol;
      cbn [mbind result_bind]; [|done].
    assert (length col = (e - i)%nat) as Hcol.
    { apply column_length in Ecol. rewrite Ecol. unfold slice.
      rewrite length_take, length_drop, predict_proba_length. fold n. lia. }
    unfold slice_assign.
    assert (length (slice i e probabilities) = (e - i)%nat) as Hsl.
    { unfold slice. rewrite length_take, length_drop. lia. }
    rewrite Hsl, decide_True by done. cbn [mbind result_bind].
    rewrite IH.
    2: { rewrite !length_app, length_take, length_map, length_drop. lia. }
    2: { lia. }
    assert (drop (i + B) (predict_proba md all_pixels) = drop e (predict_proba md all_pixels))
      as ->.
    { destruct (decide (i + B <= n)%nat).
      - f_equal. lia.
      - rewrite !drop_ge; [done| |]; rewrite predict_proba_length; fold n; lia. }
    destruct (column 1 (drop e (predict_proba md all_pixels))) as [col'|err];
      cbn [mbind result_bind]; [|done].
    f_equal. rewrite map_app, (app_assoc _ _ (map F32.of_f64 col')). f_equal.
    rewrite app_assoc.
    assert (length (take i probabilities ++ map F32.of_f64 col) = e) as He.
    { rewrite length_app, length_take, length_map. lia. }
    destruct (decide (i + B <= n)%nat).
    + replace (i + B)%nat with e by lia. by rewrite take_app_length'.
    + rewrite take_ge; [|rewrite length_app, length_drop; lia].
      rewrite drop_ge by lia. by rewrite app_nil_r.
Qed.

Lemma predict_batched_whole (B : nat) (md : model) (all_pixels : list pixel) :
  (0 < B)%nat ->
  predict_batched B md all_pixels = predict_whole md all_pixels.
Proof using SkSpec.
  intros HB. unfold predict_batched, py_range.
  rewrite decide_False by lia. cbn [mbind result_bind].
  rewrite predict_loop_from; [done|done| |lia].
  by rewrite length_replicate.
Qed.

(** (C4) For a classifier whose [predict_proba] answers row by row, the
    prediction loop gives every pixel the same probability whatever the
    batch size: two batch sizes give the same raster, which is the raster
    of scoring the whole flattened mosaic in one call. *)
Theorem batching_equivalence (B B' : nat) (md : model) (all_pixels : list pixel) :
  (0 < B)%nat -> (0 < B')%nat -> B <> B' ->
  predict_batched B md all_pixels = predict_batched B' md all_pixels /\
  predict_batched B md all_pixels = predict_whole md all_pixels.
Proof using SkSpec.
  intros HB HB' _. by rewrite !predict_batched_whole.
Qed.

End Batches.

(** ** The threshold, in float32 and in float64 *)

Lemma SFleb_key (x y : spec_float) :
  SFleb x y = true <->
  exists a b, SFkey x = Some a /\ SFkey y = Some b /\ (lex3_lt a b \/ a = b).
Proof.
  unfold SFleb. rewrite SFcompare_key.
  destruct (SFkey x) as [a|], (SFkey y) as [b|]; split;
    try discriminate; try (intros (? & ? & ? & ? & _); discriminate).
  - intros E. exists a, b. repeat split.
    destruct (lex3_compare a b) eqn:C; try discriminate.
    + right. by apply lex3_compare_Eq.
    + left. by apply lex3_compare_Lt.
  - intros (a' & b' & Ea & Eb & Hab).
    injection Ea as <-. injection Eb as <-. destruct Hab as [L|E].
    + apply lex3_compare_Lt in L. by rewrite L.
    + apply lex3_compare_Eq in E. by rewrite E.
Qed.

(** The threshold 0.6 as the float32 the comparison uses: a little above
    the float64 0.6. *)
Lemma threshold_float32 :
  F32.of_f64 threshold = S754_finite false 10066330 (-24).
Proof. vm_compute. reflexivity. Qed.

Lemma shiftl_29 (m : positive) : Pos.shiftl m 29 = (536870912 * m)%positive.
Proof. reflexivity. Qed.

(** A float32 at or above the float32 threshold is, read as a float64, at
    or above the float64 threshold. *)
Lemma threshold_passes (x : float32) :
  F32.valid x = true ->
  F32.geb x (F32.of_f64 threshold) = true ->
  F64.geb (F32.to_f64 x) threshold = true.
Proof.
  rewrite threshold_float32. unfold F32.geb, F64.geb. intros Hv Hx.
  apply SFleb_key in Hx as (a & b & Ka & Kb & Hab). cbn in Ka. injection Ka as <-.
  assert (1 < b.1.1 \/ (1 = b.1.1 /\ (-24 < b.1.2 \/ (-24 = b.1.2 /\ 10066330 <= b.2))))
    as Hb.
  { destruct Hab as [H| <-]; [unfold lex3_lt in H; cbn in H|cbn]; lia. }
  clear Hab.
  destruct x as [s|[]| |[] m e]; cbn in Kb; try discriminate;
    injection Kb as <-; cbn in Hb; try (exfalso; lia).
  - reflexivity.
  - assert (-24 <= e /\ (e = -24 -> 10066330 <= Z.pos m)) as [He Hm] by lia.
    assert (Z.pos (digits2_pos m) = 24) as Hd.
    { unfold F32.valid, valid_binary, bounded, canonical_mantissa, fexp, emin in Hv.
      apply andb_prop in Hv as [Hc _]. apply Z.eqb_eq in Hc.
      unfold F32.prec, F32.emax in Hc. lia. }
    unfold F32.to_f64. rewrite Hd.
    change (Z.to_N (F64.prec - 24)) with 29%N. rewrite shiftl_29.
    apply SFleb_key. eexists _, _. split; [reflexivity|]. split; [reflexivity|].
    unfold lex3_lt, F64.prec. cbn [fst snd].
    destruct (decide (e = -24)) as [->|]; [|lia].
    left. right. split; [done|]. right. split; [done|]. lia.
Qed.

(** ** Candidate extraction *)

Lemma where_ge_spec (k : nat) (a : list float32) (thr : float64) (i : nat) :
  i ∈ where_ge k a thr <->
  (k <= i)%nat /\ exists x, a !! (i - k)%nat = Some x /\ F32.geb x (F32.of_f64 thr) = true.
Proof.
  revert k. induction a as [|y a IH]; intros k; cbn.
  - split; [by intros ?%elem_of_nil|]. by intros (_ & x & ? & _).
  - assert (i ∈ where_ge (S k) a thr <->
            (k < i)%nat /\ exists x, (y :: a) !! (i - k)%nat = Some x /\
                                      F32.geb x (F32.of_f64 thr) = true) as IH'.
    { rewrite IH. split; intros (Hk & x & Hx & Hg); (split; [lia|]); exists x; split; try done.
      - replace (i - k)%nat with (S (i - S k)) by lia. done.
      - replace (i - k)%nat with (S (i - S k)) in Hx by lia. done. }
    destruct (F32.geb y (F32.of_f64 thr)) eqn:Hy.
    + rewrite elem_of_cons, IH'. split.
      * intros [->|(Hk & x & Hx & Hg)].
        -- split; [lia|]. exists y. by rewrite Nat.sub_diag.
        -- split; [lia|]. eauto.
      * intros (Hk & x & Hx & Hg). destruct (decide (i = k)) as [->|]; [by left|].
        right. split; [lia|]. eauto.
    + rewrite IH'. split.
      * intros (Hk & x & Hx & Hg). split; [lia|]. eauto.
      * intros (Hk & x & Hx & Hg). destruct (decide (i = k)) as [->|].
        -- rewrite Nat.sub_diag in Hx. cbn in Hx. congruence.
        -- split; [lia|]. eauto.
Qed.

Lemma where_ge_NoDup (k : nat) (a : list float32) (thr : float64) :
  NoDup (where_ge k a thr).
Proof.
  revert k. induction a as [|y a IH]; intros k; cbn; [constructor|].
  destruct (F32.geb y (F32.of_f64 thr)); [|done].
  constructor; [|done]. rewrite where_ge_spec. lia.
Qed.

Lemma take_indices_lookup (a idx : list nat) :
  (forall j, j ∈ idx -> (j < length a)%nat) ->
  exists sel, Forall2 (fun j s => a !! j = Some s) idx sel /\
    forall f : nat -> nat, take_indices (map f a) idx = Ok (map f sel).
Proof.
  induction idx as [|j idx IH]; intros Hb.
  - exists []. split; [constructor|done].
  - destruct IH as (sel & HF & Hsel). { intros ? ?. apply Hb. by constructor. }
    destruct (lookup_lt_is_Some_2 a j) as [s Hs]. { apply Hb. constructor. }
    exists (s :: sel). split; [by constructor|].
    intros f. unfold take_indices in *. cbn.
    change (map f a) with (f <$> a).
    rewrite list_lookup_fmap, Hs. cbn.
    change (f <$> a) with (map f a). by rewrite Hsel.
Qed.

Lemma selection_NoDup (a idx sel : list nat) :
  NoDup a -> NoDup idx ->
  Forall2 (fun j s => a !! j = Some s) idx sel ->
  NoDup sel /\ sel ⊆ a /\ length sel = length idx.
Proof.
  intros Ha Hidx HF. split; [|split].
  - apply NoDup_alt. intros i1 i2 s H1 H2.
    destruct (Forall2_lookup_r _ _ _ _ _ HF H1) as (j1 & Hj1 & Hs1).
    destruct (Forall2_lookup_r _ _ _ _ _ HF H2) as (j2 & Hj2 & Hs2).
    assert (j1 = j2) as <- by eauto using NoDup_lookup.
    eauto using NoDup_lookup.
  - intros s Hs. apply list_elem_of_lookup in Hs as [i Hi].
    destruct (Forall2_lookup_r _ _ _ _ _ HF Hi) as (j & _ & Hs).
    eauto using list_elem_of_lookup_2.
  - symmetry. eauto using Forall2_length.
Qed.

Lemma insert_feature_Permutation (f : feature) (l : list feature) :
  insert_feature f l ≡ₚ f :: l.
Proof.
  induction l as [|g l IH]; cbn; [done|].
  destruct (F64.ltb (probability g) (probability f)); [|done].
  rewrite IH. apply Permutation_swap.
Qed.

Lemma sort_features_Permutation (l : list feature) : sort_features l ≡ₚ l.
Proof.
  induction l as [|f l IH]; cbn; [done|].
  by rewrite insert_feature_Permutation, IH.
Qed.

Lemma for_each_app_ok {A B} (f : A -> result B) (g : A -> B) (xs : list A) (acc : list B) :
  (forall x, x ∈ xs -> f x = Ok (g x)) ->
  for_each (fun (acc : list B) (x : A) => y ← f x; Ok (acc ++ [y])) xs acc
  = Ok (acc ++ map g xs).
Proof.
  revert acc. induction xs as [|x xs IH]; intros acc Hf; cbn.
  - by rewrite app_nil_r.
  - rewrite (Hf x) by constructor. cbn. rewrite IH.
    + by rewrite <- app_assoc.
    + intros y Hy. apply Hf. by constructor.
Qed.

Section Candidates.
Context {R : NumpyRandom} {Ras : Rasterio}.

Lemma candidate_features_cells (t : transform) (w : nat)
    (probabilities : list float32) (sel : list nat) :
  (forall i, i ∈ sel -> (i < length probabilities)%nat) ->
  candidate_features t w probabilities
    (zip (map (fun i => (i `div` w)%nat) sel) (map (fun i => (i `mod` w)%nat) sel))
  = Ok (map (cell_feature t w probabilities) sel).
Proof.
  intros Hsel. unfold candidate_features.
  assert (zip (map (fun i => (i `div` w)%nat) sel) (map (fun i => (i `mod` w)%nat) sel)
          = map (fun i => ((i `div` w)%nat, (i `mod` w)%nat)) sel) as ->.
  { clear. induction sel as [|i sel IH]; cbn; [done|]. by rewrite IH. }
  erewrite (for_each_app_ok (candidate_feature t w probabilities)
              (fun cell => cell_feature t w probabilities (cell.1 * w + cell.2))).
  - cbn [app]. rewrite map_map. f_equal. apply map_ext_in. intros i _. cbn [fst snd].
    f_equal. rewrite (Nat.div_mod_eq i w) at 3. lia.
  - intros [row col] Hc. apply list_elem_of_fmap_1 in Hc as (i & [= -> ->] & Hi).
    unfold candidate_feature, prob_at, cell_feature. cbn [fst snd].
    assert ((i `div` w * w + i `mod` w)%nat = i) as Hi'.
    { rewrite (Nat.div_mod_eq i w) at 3. lia. }
    rewrite !Hi'.
    destruct (lookup_lt_is_Some_2 probabilities i (Hsel i Hi)) as [x Hx].
    by rewrite Hx.
Qed.

(** The cells kept by the extraction: all the qualifying cells, or, when
    there are more than 5000, the qualifying cells at the ranks that
    [np.random.choice] returns. *)
Lemma extract_candidates_spec (RS : NumpyRandomSpec R) (t : transform) (w : nat)
    (probabilities : list float32) (g : rng_state) :
  Forall (fun x => F32.valid x = true) probabilities ->
  let qualifying := where_ge 0 probabilities lit_0_6 in
  exists (feats : list feature) (g' : rng_state) (sel : list nat),
    extract_candidates t w probabilities g = (Ok feats, g') /\
    Z.of_nat (length feats) <= 5000 /\
    (forall f, f ∈ feats -> F64.geb (probability f) lit_0_6 = true) /\
    feats ≡ₚ map (cell_feature t w probabilities) sel /\
    NoDup sel /\ sel ⊆ qualifying /\
    (if decide (Z.of_nat (length qualifying) <= 5000) then sel = qualifying /\ g' = g
     else exists idx : list nat,
       np_random_choice (length qualifying) (Z.to_nat 5000) g = (idx, g') /\
       Forall2 (fun j i => qualifying !! j = Some i) idx sel /\
       Z.of_nat (length sel) = 5000 /\
       forall j i, qualifying !! j = Some i -> (i ∈ sel <-> j ∈ idx)).
Proof.
  intros Hvalid qualifying.
  assert (forall i, i ∈ qualifying <->
     exists x, probabilities !! i = Some x /\ F32.geb x (F32.of_f64 lit_0_6) = true) as Hq.
  { intros i. subst qualifying. rewrite where_ge_spec, Nat.sub_0_r.
    split; [by intros [_ ?]|]. intros ?. split; [lia|done]. }
  assert (forall sel : list nat, sel ⊆ qualifying ->
            forall i, i ∈ sel -> (i < length probabilities)%nat) as Hrange.
  { intros sel Hsub i Hi. apply Hsub, Hq in Hi as (x & Hx & _).
    by eapply lookup_lt_Some. }
  assert (forall sel : list nat, sel ⊆ qualifying ->
            forall f, f ∈ sort_features (map (cell_feature t w probabilities) sel) ->
                      F64.geb (probability f) lit_0_6 = true) as Hthr.
  { intros sel Hsub f Hf. rewrite sort_features_Permutation in Hf.
    apply list_elem_of_fmap_1 in Hf as (i & -> & Hi).
    apply Hsub, Hq in Hi as (x & Hx & Hge). cbn. rewrite Hx. cbn.
    apply threshold_passes; [|done].
    rewrite Forall_forall in Hvalid. eauto using list_elem_of_lookup_2. }
  lazy beta iota zeta delta [extract_candidates np_where_ge threshold].
  fold qualifying. rewrite length_map. unfold candidate_cap.
  destruct (Z.of_nat (length qualifying) >? 5000) eqn:Hcap.
  - assert (Z.to_nat 5000 <= length qualifying)%nat as Hle by lia.
    pose proof (choice_length (length qualifying) (Z.to_nat 5000) g Hle) as Hlen.
    pose proof (choice_NoDup (length qualifying) (Z.to_nat 5000) g Hle) as Hnd.
    pose proof (choice_bound (length qualifying) (Z.to_nat 5000) g) as Hbd.
    destruct (np_random_choice (length qualifying) (Z.to_nat 5000) g) as [idx g'].
    cbn [fst] in Hlen, Hnd, Hbd.
    destruct (take_indices_lookup qualifying idx) as (sel & HF & Hsel).
    { intros j Hj. by apply Hbd. }
    destruct (selection_NoDup qualifying idx sel) as (Hsnd & Hsub & Hslen);
      [apply where_ge_NoDup|done|done|].
    exists (sort_features (map (cell_feature t w probabilities) sel)), g', sel.
    rewrite !Hsel. cbn [mbind result_bind fst snd].
    rewrite candidate_features_cells by eauto. cbn [fmap result_fmap].
    split; [done|]. rewrite sort_features_Permutation, length_map.
    rewrite decide_False by lia.
    split; [lia|]. split; [eauto|]. split; [done|]. split; [done|]. split; [done|].
    exists idx. split; [done|]. split; [done|]. split; [lia|].
    intros j i Hji. split.
    + intros Hi. apply list_elem_of_lookup in Hi as [p Hp].
      destruct (Forall2_lookup_r _ _ _ _ _ HF Hp) as (j' & Hj' & Hs').
      assert (j' = j) as <-.
      { eapply NoDup_lookup; [apply where_ge_NoDup|exact Hs'|exact Hji]. }
      by eapply list_elem_of_lookup_2.
    + intros Hj. apply list_elem_of_lookup in Hj as [p Hp].
      destruct (Forall2_lookup_l _ _ _ _ _ HF Hp) as (i' & Hi' & Hs').
      assert (i' = i) as <- by congruence.
      by eapply list_elem_of_lookup_2.
  - exists (sort_features (map (cell_feature t w probabilities) qualifying)), g, qualifying.
    cbn [mbind result_bind fst snd].
    rewrite candidate_features_cells by eauto. cbn [fmap result_fmap].
    split; [done|]. rewrite sort_features_Permutation, length_map.
    rewrite decide_True by lia.
    repeat split; eauto using where_ge_NoDup; lia.
Qed.

(** (C2) The candidate collection written to [candidates.geojson] has at
    most 5000 features; every feature's probability is at least 0.6; the
    features are those of distinct cells that pass the threshold: all of
    them when there are at most 5000, and otherwise the 5000 of them at the
    ranks [np.random.choice(len(rows), 5000, replace=False)] returns, a
    qualifying cell being kept exactly when its rank is drawn.  The draw is
    numpy's uniform sample without replacement; the script puts nothing
    between the draw and the collection but the sort. *)
Theorem candidates_capped (RS : NumpyRandomSpec R) (species_name : string)
    (taxon_key : json) (output_dir : string) (m : mosaic) (t : transform)
    (probabilities : list float32) (valid_positives : list coord) (w : world) :
  Forall (fun x => F32.valid x = true) probabilities ->
  let qualifying := where_ge 0 probabilities lit_0_6 in
  (forall i, i ∈ qualifying <->
     exists x, probabilities !! i = Some x /\ F32.geb x (F32.of_f64 lit_0_6) = true) /\
  exists (feats : list feature) (g' : rng_state) (sel : list nat),
    write_outputs species_name taxon_key output_dir m t probabilities valid_positives w =
      (Ok (),
       World g'
         (w_trace w ++
          [ Mkdir output_dir;
            WriteFile (path_join output_dir "probability.tif")
              (Raster (mosaic_h m) (mosaic_w m) probabilities);
            WriteFile (path_join output_dir "candidates.geojson")
              (CandidateCollection feats
                 (Metadata species_name taxon_key (length valid_positives)
                    (length feats) lit_0_6));
            WriteFile (path_join output_dir "occurrences.geojson")
              (OccurrenceCollection valid_positives) ])) /\
    extract_candidates t (mosaic_w m) probabilities (w_rng w) = (Ok feats, g') /\
    Z.of_nat (length feats) <= 5000 /\
    (forall f, f ∈ feats -> F64.geb (probability f) lit_0_6 = true) /\
    feats ≡ₚ map (cell_feature t (mosaic_w m) probabilities) sel /\
    NoDup sel /\ sel ⊆ qualifying /\
    (if decide (Z.of_nat (length qualifying) <= 5000)
     then sel = qualifying /\ g' = w_rng w
     else exists idx : list nat,
       np_random_choice (length qualifying) (Z.to_nat 5000) (w_rng w) = (idx, g') /\
       Forall2 (fun j i => qualifying !! j = Some i) idx sel /\
       Z.of_nat (length sel) = 5000 /\
       forall j i, qualifying !! j = Some i -> (i ∈ sel <-> j ∈ idx)).
Proof.
  intros Hvalid qualifying. split.
  { intros i. subst qualifying. rewrite where_ge_spec, Nat.sub_0_r.
    split; [by intros [_ ?]|]. intros ?. split; [lia|done]. }
  destruct (extract_candidates_spec RS t (mosaic_w m) probabilities (w_rng w) Hvalid)
    as (feats & g' & sel & E & Hrest).
  exists feats, g', sel. split; [|split; [exact E|exact Hrest]].
  unfold write_outputs, mbind, M_bind, emit, with_rng. cbn [w_rng w_trace].
  rewrite E. cbn [w_rng w_trace]. rewrite <- !app_assoc. reflexivity.
Qed.

End Candidates.

(** ** [fetch_occurrences] *)

Lemma truthy_not_missing (v : option json) :
  missing_or_zero v -> truthy (default JNull v) = false.
Proof. by intros [->|[->|[s ->]]]. Qed.

Lemma keep_record_coord (r : json) (k : option (json * json)) :
  keep_record r = Ok k -> k = record_coord r.
Proof.
  destruct r as [| | | | |fields]; try discriminate. cbn.
  unfold dict_get.
  destruct (fields !! "decimalLatitude") as [lat|], (fields !! "decimalLongitude") as [lon|];
    cbn.
  - destruct (truthy lat && truthy lon)%bool; by intros [= <-].
  - rewrite andb_false_r. by intros [= <-].
  - by intros [= <-].
  - by intros [= <-].
Qed.

Lemma filter_records_spec (results : list json) (out : list (json * json)) :
  filter_records results = Ok out -> out = omap record_coord results.
Proof.
  unfold filter_records.
  destruct (mapM keep_record results) as [ks|e] eqn:E; [|discriminate].
  cbn. intros [= <-]. revert ks E.
  induction results as [|r results IH]; intros ks; cbn.
  - by intros [= <-].
  - destruct (keep_record r) as [k|e] eqn:Ek; cbn; [|discriminate].
    destruct (mapM keep_record results) as [ks'|e]; cbn; [|discriminate].
    intros [= <-]. cbn. apply keep_record_coord in Ek as ->.
    rewrite (IH ks') by done. done.
Qed.

Section Fetch.
Context {G : Gbif}.

(** (C8) The list [fetch_occurrences] returns is made of the records with
    a truthy latitude and a truthy longitude, in order: a record whose
    latitude or longitude is missing, or is 0.0, contributes nothing, and
    no returned point has a zero (or missing) coordinate. *)
Theorem fetch_occurrences_drops (fuel : nat) (taxon_key : json) (b : bbox)
    (out : list (json * json)) :
  fetch_occurrences fuel taxon_key b = Some (Ok out) ->
  exists results : list json,
    fetch_pages fuel taxon_key b [] 0 = Some (Ok results) /\
    out = omap record_coord results /\
    (forall fields, JObject fields ∈ results ->
       missing_or_zero (fields !! "decimalLatitude") \/
       missing_or_zero (fields !! "decimalLongitude") ->
       record_coord (JObject fields) = None) /\
    (forall lon lat, (lon, lat) ∈ out ->
       forall s, lon <> JNumber (S754_zero s) /\ lat <> JNumber (S754_zero s) /\
                 lon <> JNull /\ lat <> JNull).
Proof.
  unfold fetch_occurrences.
  destruct (fetch_pages fuel taxon_key b [] 0) as [[results|e]|] eqn:E; try discriminate.
  cbn. intros [= Hout]. apply filter_records_spec in Hout.
  exists results. split; [done|]. split; [done|]. split.
  - intros fields _ Hz. cbn. unfold dict_get.
    destruct Hz as [Hz|Hz]; apply truthy_not_missing in Hz; rewrite Hz;
      [done|by rewrite andb_false_r].
  - intros lon lat Hin s. subst out.
    apply list_elem_of_omap in Hin as (r & _ & Hr).
    destruct r as [| | | | |fields]; try discriminate. cbn in Hr.
    destruct (truthy _ && truthy _)%bool eqn:Et; [|discriminate].
    injection Hr as <- <-. apply andb_prop in Et as [Hlat Hlon].
    repeat split; intros Heq; rewrite Heq in *; discriminate.
Qed.

End Fetch.

(** ** The events of a run *)

Section Run.
Context {R : NumpyRandom} {Ras : Rasterio} {TC : TileCache} {Sk : Sklearn} {G : Gbif}.

Lemma appends_ret {A} (P : event -> Prop) (a : A) : appends P (mret a).
Proof. intros w r w' [= <- <-]. exists []. by rewrite app_nil_r. Qed.

Lemma appends_lift {A} (P : event -> Prop) (r : result A) : appends P (lift r).
Proof. intros w r' w' [= <- <-]. exists []. by rewrite app_nil_r. Qed.

Lemma appends_with_rng {A} (P : event -> Prop) (f : rng_state -> result A * rng_state) :
  appends P (with_rng f).
Proof.
  intros w r w'. unfold with_rng. destruct (f (w_rng w)) as [r' g].
  intros [= <- <-]. exists []. by rewrite app_nil_r.
Qed.

Lemma appends_emit (P : event -> Prop) (e : event) : P e -> appends P (emit e).
Proof. intros He w r w' [= <- <-]. exists [e]. split; [done|]. by constructor. Qed.

Lemma appends_bind {A B} (P : event -> Prop) (m : M A) (f : A -> M B) :
  appends P m -> (forall a, appends P (f a)) -> appends P (m ≫= f).
Proof.
  intros Hm Hf w r w'. unfold mbind, M_bind.
  destruct (m w) as [[a|e] w1] eqn:E1.
  - intros E2. destruct (Hm _ _ _ E1) as (t1 & H1 & F1).
    destruct (Hf a _ _ _ E2) as (t2 & H2 & F2).
    exists (t1 ++ t2). split; [by rewrite H2, H1, app_assoc|]. by apply Forall_app.
  - intros [= <- <-]. by apply (Hm _ _ _ E1).
Qed.

(** Two calls in a row, in one process: the second call finds the generator
    as the first left it, seeds it again, and returns the same list. *)
Lemma generate_negatives_twice (positives : list coord) (b : bbox)
    (n_samples seed : Z) (w : world) :
  let first := with_rng (generate_negatives positives b n_samples seed) w in
  let second := with_rng (generate_negatives positives b n_samples seed) first.2 in
  first.1 = second.1 /\ w_rng first.2 = w_rng second.2.
Proof.
  unfold with_rng, generate_negatives, generate_negatives_loop. cbn zeta.
  destruct (decide (0 <= seed < 2 ^ 32)) as [Hs|Hs].
  - rewrite !np_seed_valid by done.
    by destruct (negatives_loop _ _ _ _ _ _) as [r g].
  - by rewrite !np_seed_invalid.
Qed.


Lemma n_neighbors_small (n : nat) : n_neighbors n < 1 <-> (n < 2)%nat.
Proof.
  unfold n_neighbors.
  pose proof (Z.div_mod (Z.of_nat n) 2). pose proof (Z.mod_pos_bound (Z.of_nat n) 2).
  lia.
Qed.

(** In a run the training array is stacked from two results of
    [np.array]: it has at least two rows, so k >= 1 when [fit] is
    called. *)
Lemma stacked_training_rows (c1 c2 : nat) (pos neg : list pixel) (X_train : ndarray) :
  np_vstack (np_array c1 pos) (np_array c2 neg) = Ok X_train ->
  (2 <= array_len X_train)%nat /\ 1 <= n_neighbors (array_len X_train).
Proof.
  intros E.
  assert (2 <= array_len X_train)%nat as H2.
  { unfold np_vstack in E.
    destruct pos as [|p pos], neg as [|q neg]; cbn in E;
      repeat (destruct (decide _) in E; try discriminate);
      injection E as <-; cbn; rewrite ?length_app; cbn; lia. }
  split; [done|]. pose proof (n_neighbors_small (array_len X_train)). lia.
Qed.

(** (C6) When [fetch_occurrences] returns fewer than 5 occurrences, the
    run logs the error and returns: its only event is that log line, so
    the output directory is not created and none of the three files is
    written. *)
Theorem run_too_few_occurrences (fuel : nat) (species_name : string) (b : bbox)
    (output_dir : string) (w : world) (taxon_key : json) (positives : list (json * json)) :
  get_species_key species_name = Ok taxon_key ->
  fetch_occurrences fuel taxon_key b = Some (Ok positives) ->
  (length positives < 5)%nat ->
  exists w',
    run fuel species_name b output_dir w = Some (Ok (), w') /\
    w_rng w' = w_rng w /\
    w_trace w' = w_trace w ++ [LogError "Need at least 5 occurrences"] /\
    forall e, e ∈ drop (length (w_trace w)) (w_trace w') -> is_output e = false.
Proof.
  intros Hkey Hfetch Hlen. unfold run. rewrite Hkey, Hfetch, decide_True by done.
  eexists. split; [reflexivity|]. cbn. split; [done|]. split; [done|].
  rewrite drop_app_length. by intros e ->%list_elem_of_singleton.
Qed.

Lemma prepare_samples_eq (m : mosaic) (t : transform) (b : bbox)
    (positives : list coord) (w : world) :
  let valid := List.filter (resolves_inside m t) positives in
  let n_samples := Z.of_nat (length valid) * 5 in
  prepare_samples m t b positives w =
    let '(r, g) := generate_negatives valid b n_samples default_seed (w_rng w) in
    ((fun negatives =>
        (np_array (n_channels m) (map (embedding_at m t) valid), valid,
         (sample_embeddings m t negatives).1)) <$> r,
     World g (w_trace w ++ [CallGenerateNegatives (length valid) n_samples])).
Proof.
  intros valid n_samples. unfold prepare_samples.
  rewrite sample_embeddings_eq. fold valid n_samples.
  unfold mbind, M_bind, emit, with_rng. cbn [w_rng w_trace].
  destruct (generate_negatives valid b n_samples default_seed (w_rng w)) as [[negs|e] g];
    [|done].
  cbn. by destruct (sample_embeddings m t negs).
Qed.

Lemma appends_emit_later (e : event) :
  ~ is_negatives_call e -> appends (fun e => ~ is_negatives_call e) (emit e).
Proof. apply (appends_emit (fun e => ~ is_negatives_call e)). Qed.

Lemma appends_train (X_pos X_neg : ndarray) : appends (fun e => ~ is_negatives_call e) (train X_pos X_neg).
Proof.
  unfold train, train_classifier.
  apply appends_bind; [apply appends_lift|]. intros X.
  apply appends_bind; [apply appends_emit_later; by intros []|]. intros _.
  apply appends_lift.
Qed.

Lemma appends_write_outputs (species_name : string) (taxon_key : json)
    (output_dir : string) (m : mosaic) (t : transform)
    (probabilities : list float32) (valid_positives : list coord) :
  appends (fun e => ~ is_negatives_call e)
    (write_outputs species_name taxon_key output_dir m t probabilities valid_positives).
Proof.
  unfold write_outputs.
  repeat first
    [ apply appends_bind; [|intros ?]
    | apply appends_emit_later; by intros []
    | apply appends_with_rng ].
Qed.

(** The run up to the sampling stage: the one call of
    [generate_negatives] and what the run does with its outcome. *)
Lemma run_from_samples (fuel : nat) (species_name : string) (b : bbox)
    (output_dir : string) (w : world) (taxon_key : json)
    (positives : list (json * json)) (coords : list coord) (m : mosaic) (t : transform) :
  get_species_key species_name = Ok taxon_key ->
  fetch_occurrences fuel taxon_key b = Some (Ok positives) ->
  (5 <= length positives)%nat ->
  load_mosaic b = Ok (m, t) ->
  mapM as_coord positives = Ok coords ->
  let valid := List.filter (resolves_inside m t) coords in
  let n_samples := Z.of_nat (length valid) * 5 in
  run fuel species_name b output_dir w =
    Some (match generate_negatives valid b n_samples default_seed (w_rng w) with
          | (Ok negs, g1) =>
              train_and_write species_name taxon_key output_dir m t
                (np_array (n_channels m) (map (embedding_at m t) valid)) valid
                (sample_embeddings m t negs).1
                (World g1 (w_trace w ++ [CallGenerateNegatives (length valid) n_samples]))
          | (Raise e, g1) =>
              (Raise e,
               World g1 (w_trace w ++ [CallGenerateNegatives (length valid) n_samples]))
          end).
Proof.
  intros Hkey Hfetch Hlen Hload Hcoords valid n_samples.
  unfold run. rewrite Hkey, Hfetch, decide_False by lia. f_equal.
  unfold run_pipeline. rewrite Hload, Hcoords.
  unfold mbind at 1 2, M_bind at 1 2, lift at 1 2.
  unfold mbind at 1, M_bind at 1. rewrite prepare_samples_eq. fold valid n_samples.
  by destruct (generate_negatives valid b n_samples default_seed (w_rng w)) as [[negs|e] g].
Qed.

Lemma appends_train_and_write (species_name : string) (taxon_key : json)
    (output_dir : string) (m : mosaic) (t : transform) (X_pos X_neg : ndarray)
    (valid_positives : list coord) :
  appends (fun e => ~ is_negatives_call e)
    (train_and_write species_name taxon_key output_dir m t X_pos valid_positives X_neg).
Proof.
  unfold train_and_write, score_and_write.
  apply appends_bind; [apply appends_train|]. intros md.
  apply appends_bind; [apply appends_lift|]. intros px.
  apply appends_bind; [apply appends_lift|]. intros pr.
  apply appends_bind; [apply appends_lift|]. intros _.
  apply appends_write_outputs.
Qed.

(** (C10) A run that gets to the sampling stage calls
    [generate_negatives] once: on the coordinates that resolve inside the
    mosaic, with the box of the run, the seed 42 and a target count of 5
    times the number of those coordinates.  What the call returns is what
    the rest of the run works on: its error ends the run, and its points
    are the ones sampled for the negative array. *)
Theorem run_requests_five_per_positive (fuel : nat) (species_name : string) (b : bbox)
    (output_dir : string) (w : world) (taxon_key : json)
    (positives : list (json * json)) (coords : list coord) (m : mosaic) (t : transform) :
  get_species_key species_name = Ok taxon_key ->
  fetch_occurrences fuel taxon_key b = Some (Ok positives) ->
  (5 <= length positives)%nat ->
  load_mosaic b = Ok (m, t) ->
  mapM as_coord positives = Ok coords ->
  let X_pos := (sample_embeddings m t coords).1 in
  let valid_positives := (sample_embeddings m t coords).2 in
  let n_samples := 5 * Z.of_nat (length valid_positives) in
  valid_positives = List.filter (resolves_inside m t) coords /\
  (forall negs g1,
     generate_negatives valid_positives b n_samples default_seed (w_rng w) = (Ok negs, g1) ->
     run fuel species_name b output_dir w =
       Some (train_and_write species_name taxon_key output_dir m t
               X_pos valid_positives (sample_embeddings m t negs).1
               (World g1 (w_trace w ++
                          [CallGenerateNegatives (length valid_positives) n_samples])))) /\
  (forall e g1,
     generate_negatives valid_positives b n_samples default_seed (w_rng w) = (Raise e, g1) ->
     run fuel species_name b output_dir w =
       Some (Raise e,
             World g1 (w_trace w ++
                       [CallGenerateNegatives (length valid_positives) n_samples]))) /\
  exists r w' tail,
    run fuel species_name b output_dir w = Some (r, w') /\
    w_trace w' = w_trace w ++
      CallGenerateNegatives (length valid_positives)
        (5 * Z.of_nat (length valid_positives)) :: tail /\
    Forall (fun e => ~ is_negatives_call e) tail.
Proof.
  intros Hkey Hfetch Hlen Hload Hcoords X_pos valid_positives n_samples.
  pose proof (run_from_samples fuel species_name b output_dir w taxon_key positives
                coords m t Hkey Hfetch Hlen Hload Hcoords) as Hrun.
  cbv zeta in Hrun. subst X_pos valid_positives n_samples.
  rewrite sample_embeddings_eq. cbn [fst snd].
  set (valid := List.filter (resolves_inside m t) coords) in *.
  replace (5 * Z.of_nat (length valid)) with (Z.of_nat (length valid) * 5) by lia.
  split; [done|]. split; [|split].
  - intros negs g1 E. by rewrite Hrun, E.
  - intros e g1 E. by rewrite Hrun, E.
  - rewrite Hrun.
    destruct (generate_negatives valid b _ default_seed (w_rng w)) as [[negs|e] g].
    2: { eexists _, _, []. split; [reflexivity|]. cbn. split; [done|constructor]. }
    match goal with |- context [ Some (?act (World g ?tr)) ] =>
      destruct (act (World g tr)) as [r w'] eqn:E;
      pose proof (appends_train_and_write species_name taxon_key output_dir m t
                    (np_array (n_channels m) (map (embedding_at m t) valid))
                    (sample_embeddings m t negs).1 valid _ _ _ E) as (tail & Htr & Htail)
    end.
    cbn [w_trace] in Htr.
    exists r, w', tail. split; [done|]. split; [|done].
    by rewrite Htr, <- app_assoc.
Qed.


End Run.

(** ** The small environment meets the contracts *)

Lemma demo_rng_spec : NumpyRandomSpec Demo.rng.
Proof.
  split; cbn; intros n size g.
  - intros _. by rewrite length_map, length_seq.
  - intros Hle. apply NoDup_fmap_2_strong; [|apply NoDup_seq].
    intros i j Hi Hj E. apply elem_of_seq in Hi, Hj.
    revert E. generalize (Z.to_nat (Demo.lcg g `mod` Z.max 1 (Z.of_nat n))). intros s E.
    pose proof (Nat.div_mod_eq (s + i) n) as Di.
    pose proof (Nat.div_mod_eq (s + j) n) as Dj.
    rewrite E in Di.
    destruct (Nat.lt_trichotomy ((s + i) `div` n) ((s + j) `div` n)) as [Hq|[Hq|Hq]]; nia.
  - intros i Hle Hi. apply list_elem_of_fmap_1 in Hi as (j & -> & Hj).
    apply elem_of_seq in Hj. apply Nat.mod_upper_bound. lia.
Qed.

Lemma demo_sklearn_spec : SklearnSpec Demo.sklearn.
Proof.
  split; cbn; intros md.
  - intros X. by rewrite length_map.
  - intros X1 X2. by rewrite map_app.
Qed.

(** ** The properties on the small environment *)

Example demo_min_dist_literal : lit_0_005 = Demo.dec 5 1000.
Proof. vm_compute. reflexivity. Qed.

Example demo_threshold_literal : lit_0_6 = Demo.dec 6 10.
Proof. vm_compute. reflexivity. Qed.

(** The three negatives drawn around the two positives of the small
    environment are separated from them. *)
Lemma generate_negatives_separation_witness :
  @generate_negatives Demo.rng Demo.the_positives Demo.cambridge 3 42 0 = Demo.three_negatives /\
  forall q p, q ∈ match Demo.three_negatives.1 with Ok l => l | Raise _ => [] end ->
              p ∈ Demo.the_positives ->
              F64.gtb (degree_dist p q.1 q.2) lit_0_005 = true.
Proof.
  split; [vm_compute; reflexivity|].
  apply (@generate_negatives_separation Demo.rng Demo.the_positives Demo.cambridge 3 42 0
           Demo.three_negatives.2).
  vm_compute. reflexivity.
Defined.

Lemma demo_cambridge_finite : finite_widths Demo.cambridge.
Proof. split; vm_compute; reflexivity. Qed.

(** The same call from two generator states. *)
Lemma generate_negatives_deterministic_witness :
  0 <= 42 < 2 ^ 32 /\
  @generate_negatives Demo.rng Demo.the_positives Demo.cambridge 3 42 0 =
  @generate_negatives Demo.rng Demo.the_positives Demo.cambridge 3 42 7.
Proof.
  assert (0 <= 42 < 2 ^ 32) as Hs by lia.
  split; [exact Hs|].
  exact (proj2 (@generate_negatives_deterministic Demo.rng Demo.the_positives
                  Demo.cambridge 3 42 0 7) Hs).
Defined.

(** With the two positives and a target of 3 the loop returns; with no
    positive it raises. *)
Lemma generate_negatives_terminates_witness :
  0 <= 3 /\ 0 <= 42 < 2 ^ 32 /\ finite_widths Demo.cambridge /\
  Demo.the_positives <> [] /\
  (exists st g',
    @generate_negatives_loop Demo.rng Demo.the_positives Demo.cambridge 3 42 0 = (Ok st, g') /\
    @generate_negatives Demo.rng Demo.the_positives Demo.cambridge 3 42 0
      = (Ok (negatives st), g') /\
    Z.of_nat (iterations st) <= 100 * 3 /\
    Z.of_nat (length (negatives st)) <= 3) /\
  (exists msg g',
    @generate_negatives Demo.rng [] Demo.cambridge 3 42 0 = (Raise (IndexError msg), g')).
Proof.
  assert (0 <= 3) as H0 by lia.
  assert (0 <= 42 < 2 ^ 32) as Hs by lia.
  assert (Demo.the_positives <> []) as Hne by discriminate.
  split; [exact H0|]. split; [exact Hs|]. split; [exact demo_cambridge_finite|].
  split; [exact Hne|]. split.
  - exact (proj1 (@generate_negatives_terminates Demo.rng Demo.the_positives
                    Demo.cambridge 3 42 0 H0 Hs demo_cambridge_finite) Hne).
  - apply (proj2 (@generate_negatives_terminates Demo.rng [] Demo.cambridge 3 42 0 H0 Hs
                    demo_cambridge_finite)); [reflexivity|lia].
Defined.

(** (C9, as the specification has it) A non-empty positive list, a box
    with min < max on both axes and a target count of 1: the call raises.
    The longitudes of the box are too far apart for [np.random.uniform],
    which raises [OverflowError] at the first draw.  And on the box of the
    small environment, a seed that does not fit 32 bits is refused by
    [np.random.seed]. *)
Lemma generate_negatives_raises :
  Demo.the_positives <> [] /\
  F64.ltb (min_lon Demo.wide_box) (max_lon Demo.wide_box) = true /\
  F64.ltb (min_lat Demo.wide_box) (max_lat Demo.wide_box) = true /\
  0 <= 1 /\
  @generate_negatives Demo.rng Demo.the_positives Demo.wide_box 1 42 0 =
    (Raise (OverflowError "Range exceeds valid bounds"), 42) /\
  (~ exists negs g',
     @generate_negatives Demo.rng Demo.the_positives Demo.wide_box 1 42 0 = (Ok negs, g')) /\
  F64.ltb (min_lon Demo.cambridge) (max_lon Demo.cambridge) = true /\
  F64.ltb (min_lat Demo.cambridge) (max_lat Demo.cambridge) = true /\
  @generate_negatives Demo.rng Demo.the_positives Demo.cambridge 1 (-1) 0 =
    (Raise (ValueError "Seed must be between 0 and 2**32 - 1"), 0).
Proof.
  assert (@generate_negatives Demo.rng Demo.the_positives Demo.wide_box 1 42 0 =
          (Raise (OverflowError "Range exceeds valid bounds"), 42)) as E
    by (vm_compute; reflexivity).
  split; [discriminate|]. split; [vm_compute; reflexivity|].
  split; [vm_compute; reflexivity|]. split; [lia|]. split; [exact E|].
  split; [intros (negs & g' & E'); rewrite E in E'; discriminate|].
  split; [vm_compute; reflexivity|]. split; [vm_compute; reflexivity|].
  vm_compute. reflexivity.
Qed.

(** Five pixels scored in batches of 2, in batches of 4, and at once. *)
Lemma batching_equivalence_witness :
  (0 < 2)%nat /\ (0 < 4)%nat /\ 2%nat <> 4%nat /\
  @predict_batched Demo.sklearn 2 () [[Demo.f32 1 10]; [Demo.f32 7 10]; [Demo.f32 9 10];
                                      [Demo.f32 6 10]; [Demo.f32 3 10]] =
  @predict_batched Demo.sklearn 4 () [[Demo.f32 1 10]; [Demo.f32 7 10]; [Demo.f32 9 10];
                                      [Demo.f32 6 10]; [Demo.f32 3 10]] /\
  @predict_batched Demo.sklearn 2 () [[Demo.f32 1 10]; [Demo.f32 7 10]; [Demo.f32 9 10];
                                      [Demo.f32 6 10]; [Demo.f32 3 10]] =
  @predict_whole Demo.sklearn () [[Demo.f32 1 10]; [Demo.f32 7 10]; [Demo.f32 9 10];
                                  [Demo.f32 6 10]; [Demo.f32 3 10]].
Proof.
  split; [lia|]. split; [lia|]. split; [lia|].
  apply (@batching_equivalence Demo.sklearn demo_sklearn_spec 2 4); lia.
Defined.

Lemma where_ge_replicate (k n : nat) (x : float32) (thr : float64) :
  F32.geb x (F32.of_f64 thr) = true -> where_ge k (replicate n x) thr = seq k n.
Proof.
  intros Hx. revert k. induction n as [|n IH]; intros k; cbn; [done|].
  by rewrite Hx, IH.
Qed.

Lemma demo_long_raster_qualifying :
  where_ge 0 Demo.long_raster lit_0_6 = seq 0 (Z.to_nat 5001).
Proof. apply where_ge_replicate. vm_compute. reflexivity. Qed.

(** A raster of 5001 cells at 0.9: all of them qualify, and the 5000 that
    are written are those at the ranks the generator draws. *)
Lemma candidates_capped_witness :
  Forall (fun x => F32.valid x = true) Demo.long_raster /\
  5000 < Z.of_nat (length (where_ge 0 Demo.long_raster lit_0_6)) /\
  exists (feats : list feature) (g' : Z) (sel idx : list nat),
    @write_outputs Demo.rng Demo.rasterio "Quercus robur" Demo.taxon_key "out"
      Demo.long_mosaic Demo.the_grid Demo.long_raster Demo.fetched_coords Demo.world0 =
      (Ok (),
       @World Demo.rng g'
         (w_trace Demo.world0 ++
          [ Mkdir "out";
            WriteFile (path_join "out" "probability.tif")
              (Raster (mosaic_h Demo.long_mosaic) (mosaic_w Demo.long_mosaic)
                 Demo.long_raster);
            WriteFile (path_join "out" "candidates.geojson")
              (CandidateCollection feats
                 (Metadata "Quercus robur" Demo.taxon_key (length Demo.fetched_coords)
                    (length feats) lit_0_6));
            WriteFile (path_join "out" "occurrences.geojson")
              (OccurrenceCollection Demo.fetched_coords) ])) /\
    Z.of_nat (length feats) <= 5000 /\
    (forall f, f ∈ feats -> F64.geb (probability f) lit_0_6 = true) /\
    feats ≡ₚ map (@cell_feature Demo.rasterio Demo.the_grid (mosaic_w Demo.long_mosaic)
                    Demo.long_raster) sel /\
    NoDup sel /\ sel ⊆ where_ge 0 Demo.long_raster lit_0_6 /\
    @np_random_choice Demo.rng (length (where_ge 0 Demo.long_raster lit_0_6))
      (Z.to_nat 5000) (w_rng Demo.world0) = (idx, g') /\
    Forall2 (fun j i => where_ge 0 Demo.long_raster lit_0_6 !! j = Some i) idx sel /\
    Z.of_nat (length sel) = 5000 /\
    forall j i, where_ge 0 Demo.long_raster lit_0_6 !! j = Some i -> (i ∈ sel <-> j ∈ idx).
Proof.
  assert (Forall (fun x => F32.valid x = true) Demo.long_raster) as Hv
    by (apply Forall_replicate; reflexivity).
  assert (5000 < Z.of_nat (length (where_ge 0 Demo.long_raster lit_0_6))) as Hcap
    by (rewrite demo_long_raster_qualifying, length_seq; lia).
  split; [exact Hv|]. split; [exact Hcap|].
  destruct (proj2 (@candidates_capped Demo.rng Demo.rasterio demo_rng_spec
                     "Quercus robur" Demo.taxon_key "out" Demo.long_mosaic Demo.the_grid
                     Demo.long_raster Demo.fetched_coords Demo.world0 Hv))
    as (feats & g' & sel & Hw & _ & Hlen & Hthr & Hperm & Hnd & Hsub & Hsel).
  destruct (decide (Z.of_nat (length (where_ge 0 Demo.long_raster lit_0_6)) <= 5000))
    as [Hle|_]; [exfalso; lia|].
  destruct Hsel as (idx & Hidx & HF & Hn & Hiff).
  exists feats, g', sel, idx. repeat (split; [assumption|]). exact Hiff.
Defined.

(** Of the seven records, the one on the equator and the one without a
    latitude are dropped. *)
Lemma fetch_occurrences_drops_witness :
  @fetch_occurrences Demo.gbif 5 Demo.taxon_key Demo.cambridge = Some (Ok Demo.fetched) /\
  exists results : list json,
    @fetch_pages Demo.gbif 5 Demo.taxon_key Demo.cambridge [] 0 = Some (Ok results) /\
    Demo.fetched = omap record_coord results /\
    (forall fields, JObject fields ∈ results ->
       missing_or_zero (fields !! "decimalLatitude") \/
       missing_or_zero (fields !! "decimalLongitude") ->
       record_coord (JObject fields) = None) /\
    (forall lon lat, (lon, lat) ∈ Demo.fetched ->
       forall s, lon <> JNumber (S754_zero s) /\ lat <> JNumber (S754_zero s) /\
                 lon <> JNull /\ lat <> JNull).
Proof.
  assert (@fetch_occurrences Demo.gbif 5 Demo.taxon_key Demo.cambridge
          = Some (Ok Demo.fetched)) as E by (vm_compute; reflexivity).
  split; [exact E|].
  exact (@fetch_occurrences_drops Demo.gbif 5 Demo.taxon_key Demo.cambridge Demo.fetched E).
Defined.

(** A run on three occurrences stops at the check. *)
Lemma run_too_few_occurrences_witness :
  @get_species_key Demo.gbif_few "Quercus robur" = Ok Demo.taxon_key /\
  @fetch_occurrences Demo.gbif_few 5 Demo.taxon_key Demo.cambridge
    = Some (Ok (take 3 Demo.fetched)) /\
  (length (take 3 Demo.fetched) < 5)%nat /\
  exists w',
    @run Demo.rng Demo.rasterio Demo.tile_cache Demo.sklearn Demo.gbif_few
      5 "Quercus robur" Demo.cambridge "out" Demo.world0 = Some (Ok (), w') /\
    w_rng w' = w_rng Demo.world0 /\
    w_trace w' = w_trace Demo.world0 ++ [LogError "Need at least 5 occurrences"] /\
    forall e, e ∈ drop (length (w_trace Demo.world0)) (w_trace w') -> is_output e = false.
Proof.
  assert (@get_species_key Demo.gbif_few "Quercus robur" = Ok Demo.taxon_key) as Hk
    by (vm_compute; reflexivity).
  assert (@fetch_occurrences Demo.gbif_few 5 Demo.taxon_key Demo.cambridge
          = Some (Ok (take 3 Demo.fetched))) as Hf by (vm_compute; reflexivity).
  assert (length (take 3 Demo.fetched) < 5)%nat as Hl by (cbn; lia).
  split; [exact Hk|]. split; [exact Hf|]. split; [exact Hl|].
  exact (@run_too_few_occurrences Demo.rng Demo.rasterio Demo.tile_cache Demo.sklearn
           Demo.gbif_few 5 "Quercus robur" Demo.cambridge "out" Demo.world0
           Demo.taxon_key (take 3 Demo.fetched) Hk Hf Hl).
Defined.

(** A run on the five occurrences asks for 25 negatives. *)
Lemma run_requests_five_per_positive_witness :
  @get_species_key Demo.gbif "Quercus robur" = Ok Demo.taxon_key /\
  @fetch_occurrences Demo.gbif 5 Demo.taxon_key Demo.cambridge = Some (Ok Demo.fetched) /\
  (5 <= length Demo.fetched)%nat /\
  @load_mosaic Demo.rasterio Demo.tile_cache Demo.cambridge
    = Ok (Demo.the_mosaic, Demo.the_grid : @transform Demo.rasterio) /\
  mapM as_coord Demo.fetched = Ok Demo.fetched_coords /\
  (@sample_embeddings Demo.rasterio Demo.the_mosaic Demo.the_grid Demo.fetched_coords).2 = List.filter (@resolves_inside Demo.rasterio Demo.the_mosaic Demo.the_grid)
           Demo.fetched_coords /\
  (forall negs g1,
     @generate_negatives Demo.rng (@sample_embeddings Demo.rasterio Demo.the_mosaic Demo.the_grid Demo.fetched_coords).2 Demo.cambridge (5 * Z.of_nat (length (@sample_embeddings Demo.rasterio Demo.the_mosaic Demo.the_grid Demo.fetched_coords).2))
       default_seed (w_rng Demo.world0) = (Ok negs, g1) ->
     @run Demo.rng Demo.rasterio Demo.tile_cache Demo.sklearn Demo.gbif
      5 "Quercus robur" Demo.cambridge "out" Demo.world0 =
       Some (@train_and_write Demo.rng Demo.rasterio Demo.sklearn
               "Quercus robur" Demo.taxon_key "out" Demo.the_mosaic Demo.the_grid
               (@sample_embeddings Demo.rasterio Demo.the_mosaic Demo.the_grid Demo.fetched_coords).1 (@sample_embeddings Demo.rasterio Demo.the_mosaic Demo.the_grid Demo.fetched_coords).2
               (@sample_embeddings Demo.rasterio Demo.the_mosaic Demo.the_grid negs).1
               (@World Demo.rng g1
                  (w_trace Demo.world0 ++
                   [CallGenerateNegatives (length (@sample_embeddings Demo.rasterio Demo.the_mosaic Demo.the_grid Demo.fetched_coords).2) (5 * Z.of_nat (length (@sample_embeddings Demo.rasterio Demo.the_mosaic Demo.the_grid Demo.fetched_coords).2))])))) /\
  (forall e g1,
     @generate_negatives Demo.rng (@sample_embeddings Demo.rasterio Demo.the_mosaic Demo.the_grid Demo.fetched_coords).2 Demo.cambridge (5 * Z.of_nat (length (@sample_embeddings Demo.rasterio Demo.the_mosaic Demo.the_grid Demo.fetched_coords).2))
       default_seed (w_rng Demo.world0) = (Raise e, g1) ->
     @run Demo.rng Demo.rasterio Demo.tile_cache Demo.sklearn Demo.gbif
      5 "Quercus robur" Demo.cambridge "out" Demo.world0 =
       Some (Raise e,
             @World Demo.rng g1
               (w_trace Demo.world0 ++
                [CallGenerateNegatives (length (@sample_embeddings Demo.rasterio Demo.the_mosaic Demo.the_grid Demo.fetched_coords).2) (5 * Z.of_nat (length (@sample_embeddings Demo.rasterio Demo.the_mosaic Demo.the_grid Demo.fetched_coords).2))]))) /\
  exists r w' tail,
    @run Demo.rng Demo.rasterio Demo.tile_cache Demo.sklearn Demo.gbif
      5 "Quercus robur" Demo.cambridge "out" Demo.world0 = Some (r, w') /\
    w_trace w' = w_trace Demo.world0 ++
      CallGenerateNegatives (length (@sample_embeddings Demo.rasterio Demo.the_mosaic Demo.the_grid Demo.fetched_coords).2) (5 * Z.of_nat (length (@sample_embeddings Demo.rasterio Demo.the_mosaic Demo.the_grid Demo.fetched_coords).2)) :: tail /\
    Forall (fun e => ~ is_negatives_call e) tail.
Proof.
  assert (@get_species_key Demo.gbif "Quercus robur" = Ok Demo.taxon_key) as Hk
    by (vm_compute; reflexivity).
  assert (@fetch_occurrences Demo.gbif 5 Demo.taxon_key Demo.cambridge
          = Some (Ok Demo.fetched)) as Hf by (vm_compute; reflexivity).
  assert (5 <= length Demo.fetched)%nat as Hl by (cbn; lia).
  assert (@load_mosaic Demo.rasterio Demo.tile_cache Demo.cambridge
          = Ok (Demo.the_mosaic, Demo.the_grid : @transform Demo.rasterio)) as Hm
    by reflexivity.
  assert (mapM as_coord Demo.fetched = Ok Demo.fetched_coords) as Hc
    by (vm_compute; reflexivity).
  split; [exact Hk|]. split; [exact Hf|]. split; [exact Hl|].
  split; [exact Hm|]. split; [exact Hc|].
  exact (@run_requests_five_per_positive Demo.rng Demo.rasterio Demo.tile_cache
           Demo.sklearn Demo.gbif 5 "Quercus robur" Demo.cambridge "out" Demo.world0
           Demo.taxon_key Demo.fetched Demo.fetched_coords Demo.the_mosaic Demo.the_grid
           Hk Hf Hl Hm Hc).
Defined.


(** In the small environment the whole run writes its three files, and the
    candidates are the four cells at or above 0.6, lowest first. *)
Example demo_run_events :
  match @run Demo.rng Demo.rasterio Demo.tile_cache Demo.sklearn Demo.gbif
          5 "Quercus robur" Demo.cambridge "out" Demo.world0 with
  | Some (Ok (), w') =>
      match w_trace w' with
      | [CallGenerateNegatives 5 25; CallFit 10 30; Mkdir "out";
         WriteFile "out/probability.tif" (Raster 2 3 _);
         WriteFile "out/candidates.geojson" (CandidateCollection feats _);
         WriteFile "out/occurrences.geojson" (OccurrenceCollection points)] =>
          map probability feats =
            map F32.to_f64 [Demo.f32 6 10; Demo.f32 7 10; Demo.f32 8 10; Demo.f32 9 10]
          /\ length points = 5%nat
      | _ => False
      end
  | _ => False
  end.
Proof. vm_compute. split; reflexivity. Qed.

(** A raster of 5001 cells at 0.9: 5000 candidates are kept. *)
Example demo_subsampled :
  match (@extract_candidates Demo.rng Demo.rasterio Demo.the_grid (Z.to_nat 5001)
           (replicate (Z.to_nat 5001) (Demo.f32 9 10)) 0).1 with
  | Ok feats => length feats = Z.to_nat 5000
  | Raise _ => False
  end.
Proof. vm_compute. reflexivity. Qed.

(** The occurrences of a run can all fall outside the mosaic: then no
    negative is asked for, [generate_negatives] is run on the empty list
    with a target of zero and returns, the two empty arrays stack to two
    rows of no column, and [fit] is called with k = 1 on them. *)
Example demo_no_valid_positive :
  (@sample_embeddings Demo.rasterio Demo.the_mosaic Demo.the_grid
     [(Demo.dec 5 1, Demo.dec 10 1); (Demo.dec 6 1, Demo.dec 10 1)] = (Array1 [], [])) /\
  match @run Demo.rng Demo.rasterio Demo.tile_cache Demo.sklearn Demo.gbif_far
          5 "Quercus robur" Demo.cambridge "out" Demo.world0 with
  | Some (Raise _, w') => w_trace w' = [CallGenerateNegatives 0 0; CallFit 1 2]
  | _ => False
  end.
Proof. vm_compute. split; reflexivity. Qed.

(** * Further properties of the pipeline *)

(** ** The order of the candidates *)

Lemma SFleb_trans (x y z : spec_float) :
  SFleb x y = true -> SFleb y z = true -> SFleb x z = true.
Proof.
  rewrite !SFleb_key. intros (a & b & Ka & Kb & L1) (b' & c & Kb' & Kc & L2).
  assert (b' = b) as -> by congruence.
  exists a, c. repeat split; try done.
  destruct L1 as [L1| ->], L2 as [L2| <-]; eauto using lex3_lt_trans.
Qed.

Lemma SFltb_false_leb (x y : spec_float) :
  F64.is_nan x = false -> F64.is_nan y = false ->
  SFltb x y = false -> SFleb y x = true.
Proof.
  intros [a Ka]%is_nan_key [b Kb]%is_nan_key E.
  apply SFleb_key. exists b, a. repeat split; try done.
  destruct (SFltb_false_key _ _ _ _ Ka Kb E) as [->|]; auto.
Qed.

Lemma SFltb_leb (x y : spec_float) : SFltb x y = true -> SFleb x y = true.
Proof.
  rewrite SFltb_key, SFleb_key. intros (a & b & ? & ? & ?). exists a, b. auto.
Qed.

Lemma SFleb_not_nan (x y : spec_float) :
  SFleb x y = true -> F64.is_nan x = false /\ F64.is_nan y = false.
Proof.
  rewrite SFleb_key. intros (a & b & Ka & Kb & _).
  by destruct x as [[]|[]| |[] ? ?], y as [[]|[]| |[] ? ?].
Qed.

Lemma to_f64_not_nan (x : float32) :
  F64.is_nan x = false -> F64.is_nan (F32.to_f64 x) = false.
Proof. by destruct x. Qed.

Lemma insert_feature_ascending (f : feature) (l : list feature) :
  F64.is_nan (probability f) = false ->
  Forall (fun g => F64.is_nan (probability g) = false) l ->
  ascending l -> ascending (insert_feature f l).
Proof.
  intros Hf. induction l as [|g l IH]; intros Hl Hs; cbn.
  - by repeat constructor.
  - apply Forall_cons in Hl as [Hgn Hl]. destruct Hs as [Hg Hs].
    destruct (F64.ltb (probability g) (probability f)) eqn:E.
    + split; [|by apply IH].
      rewrite insert_feature_Permutation. constructor; [|done].
      by apply SFltb_leb.
    + assert (F64.geb (probability g) (probability f) = true) as Hfg
        by by apply SFltb_false_leb.
      split; [|done]. constructor; [done|].
      eapply Forall_impl; [exact Hg|]. intros h Hh. cbn in Hh.
      unfold F64.geb in *. eauto using SFleb_trans.
Qed.

Lemma sort_features_ascending (l : list feature) :
  Forall (fun g => F64.is_nan (probability g) = false) l ->
  ascending (sort_features l).
Proof.
  induction l as [|f l IH]; intros Hl; cbn; [done|].
  apply Forall_cons in Hl as [Hf Hl].
  apply insert_feature_ascending; [done| |by apply IH].
  by rewrite sort_features_Permutation.
Qed.

Lemma insert_feature_head (f : feature) (l : list feature) :
  Forall (fun g => F64.geb (probability g) (probability f) = true) l ->
  insert_feature f l = f :: l.
Proof.
  destruct l as [|g l]; [done|]. intros [Hg _]%Forall_cons. cbn.
  destruct (F64.ltb (probability g) (probability f)) eqn:E; [|done].
  unfold F64.geb, F64.ltb in *.
  apply SFltb_key in E as (a & b & Ka & Kb & L).
  apply SFleb_key in Hg as (b' & a' & Kb' & Ka' & L').
  assert (a' = a) as -> by congruence. assert (b' = b) as -> by congruence.
  exfalso. unfold lex3_lt in *. destruct L' as [L'| ->]; lia.
Qed.

(** A list already in ascending order is left as it is: elements of equal
    probability keep their order. *)
Lemma sort_features_sorted_id (l : list feature) :
  ascending l -> sort_features l = l.
Proof.
  unfold sort_features. induction l as [|f l IH]; cbn [foldr ascending]; [done|].
  intros [Hf Hs]. rewrite IH by done. by apply insert_feature_head.
Qed.

(** ** Candidate extraction, case by case *)

Section MoreCandidates.
Context {R : NumpyRandom} {Ras : Rasterio}.

Lemma qualifying_in_range (probabilities : list float32) (sel : list nat) :
  sel ⊆ where_ge 0 probabilities lit_0_6 ->
  forall i, i ∈ sel -> (i < length probabilities)%nat.
Proof.
  intros Hsub i Hi. apply Hsub, where_ge_spec in Hi as (_ & x & Hx & _).
  rewrite Nat.sub_0_r in Hx. by eapply lookup_lt_Some.
Qed.

(** With at most 5000 cells at or above the threshold, all of them are
    kept and the generator is not used. *)
Lemma extract_candidates_below_cap (t : transform) (w : nat)
    (probabilities : list float32) (g : rng_state) :
  Z.of_nat (length (where_ge 0 probabilities lit_0_6)) <= 5000 ->
  extract_candidates t w probabilities g =
    (Ok (sort_features
           (map (cell_feature t w probabilities) (where_ge 0 probabilities lit_0_6))), g).
Proof.
  intros Hcap.
  lazy beta iota zeta delta [extract_candidates np_where_ge threshold].
  set (qualifying := where_ge 0 probabilities lit_0_6) in *.
  rewrite length_map. unfold candidate_cap.
  destruct (Z.of_nat (length qualifying) >? 5000) eqn:E; [lia|].
  cbn [mbind result_bind fst snd].
  rewrite candidate_features_cells; [done|].
  by apply qualifying_in_range.
Qed.

(** With more than 5000, the cells at the indices [np.random.choice]
    returns are kept. *)
Lemma extract_candidates_above_cap (RS : NumpyRandomSpec R) (t : transform) (w : nat)
    (probabilities : list float32) (g : rng_state) :
  5000 < Z.of_nat (length (where_ge 0 probabilities lit_0_6)) ->
  exists sel : list nat,
    extract_candidates t w probabilities g =
      (Ok (sort_features (map (cell_feature t w probabilities) sel)),
       (np_random_choice (length (where_ge 0 probabilities lit_0_6)) (Z.to_nat 5000) g).2) /\
    NoDup sel /\ sel ⊆ where_ge 0 probabilities lit_0_6 /\ Z.of_nat (length sel) = 5000.
Proof.
  intros Hcap.
  lazy beta iota zeta delta [extract_candidates np_where_ge threshold].
  set (qualifying := where_ge 0 probabilities lit_0_6) in *.
  rewrite length_map. unfold candidate_cap.
  destruct (Z.of_nat (length qualifying) >? 5000) eqn:E; [|lia].
  assert (Z.to_nat 5000 <= length qualifying)%nat as Hle by lia.
  pose proof (choice_length (length qualifying) (Z.to_nat 5000) g Hle) as Hlen.
  pose proof (choice_NoDup (length qualifying) (Z.to_nat 5000) g Hle) as Hnd.
  pose proof (choice_bound (length qualifying) (Z.to_nat 5000) g) as Hbd.
  destruct (np_random_choice (length qualifying) (Z.to_nat 5000) g) as [idx g'].
  cbn [fst snd] in *.
  destruct (take_indices_lookup qualifying idx) as (sel & HF & Hsel).
  { intros j Hj. by apply Hbd. }
  destruct (selection_NoDup qualifying idx sel) as (Hsnd & Hsub & Hslen);
    [apply where_ge_NoDup|done|done|].
  exists sel. rewrite !Hsel. cbn [mbind result_bind fst snd].
  rewrite candidate_features_cells by by apply qualifying_in_range.
  cbn [fmap result_fmap]. repeat split; try done. lia.
Qed.

Lemma qualifying_feature_not_nan (t : transform) (w : nat)
    (probabilities : list float32) (sel : list nat) :
  sel ⊆ where_ge 0 probabilities lit_0_6 ->
  Forall (fun f => F64.is_nan (probability f) = false)
    (map (cell_feature t w probabilities) sel).
Proof.
  intros Hsub. apply Forall_forall. intros f Hf.
  apply list_elem_of_fmap_1 in Hf as (i & -> & Hi).
  apply Hsub, where_ge_spec in Hi as (_ & x & Hx & Hge).
  rewrite Nat.sub_0_r in Hx. cbn. rewrite Hx. cbn.
  apply to_f64_not_nan. unfold F32.geb in Hge. by apply SFleb_not_nan in Hge as [_ ?].
Qed.

(** (X14) The candidate collection is in ascending order of probability. *)
Theorem candidates_ascending (RS : NumpyRandomSpec R) (t : transform) (w : nat)
    (probabilities : list float32) (g g' : rng_state) (feats : list feature) :
  extract_candidates t w probabilities g = (Ok feats, g') ->
  ascending feats.
Proof.
  destruct (decide (Z.of_nat (length (where_ge 0 probabilities lit_0_6)) <= 5000)) as [H|H].
  - rewrite extract_candidates_below_cap by done. intros [= <- _].
    by apply sort_features_ascending, qualifying_feature_not_nan.
  - destruct (extract_candidates_above_cap RS t w probabilities g) as (sel & -> & _ & Hsub & _);
      [lia|].
    intros [= <- _]. by apply sort_features_ascending, qualifying_feature_not_nan.
Qed.

Lemma where_ge_none (k : nat) (a : list float32) (thr : float64) :
  Forall (fun x => F32.geb x (F32.of_f64 thr) = false) a -> where_ge k a thr = [].
Proof.
  intros H. revert k. induction H as [|x a Hx _ IH]; intros k; cbn; [done|].
  by rewrite Hx.
Qed.

(** (X15) A raster with no cell at or above the threshold gives the empty
    collection, and the generator is left as it was. *)
Theorem no_candidates (t : transform) (w : nat)
    (probabilities : list float32) (g : rng_state) :
  Forall (fun x => F32.geb x (F32.of_f64 lit_0_6) = false) probabilities ->
  extract_candidates t w probabilities g = (Ok [], g).
Proof.
  intros H. pose proof (where_ge_none 0 _ _ H) as E.
  rewrite extract_candidates_below_cap by (rewrite E; cbn; lia).
  by rewrite E.
Qed.

End MoreCandidates.

(** ** What a run writes *)

Section MoreRun.
Context {R : NumpyRandom} {Ras : Rasterio} {TC : TileCache} {Sk : Sklearn} {G : Gbif}.

Lemma extract_candidates_ok (RS : NumpyRandomSpec R) (t : transform) (w : nat)
    (probabilities : list float32) (g : rng_state) :
  exists feats g', extract_candidates t w probabilities g = (Ok feats, g').
Proof.
  destruct (decide (Z.of_nat (length (where_ge 0 probabilities lit_0_6)) <= 5000)) as [H|H].
  - rewrite extract_candidates_below_cap by done. eauto.
  - destruct (extract_candidates_above_cap RS t w probabilities g) as (sel & -> & _); [lia|].
    eauto.
Qed.

(** The writing stage: four events, in this order. *)
Lemma write_outputs_events (RS : NumpyRandomSpec R) (species_name : string)
    (taxon_key : json) (output_dir : string) (m : mosaic) (t : transform)
    (probabilities : list float32) (valid_positives : list coord) (w : world) :
  exists feats g',
    extract_candidates t (mosaic_w m) probabilities (w_rng w) = (Ok feats, g') /\
    write_outputs species_name taxon_key output_dir m t probabilities valid_positives w =
      (Ok (),
       World g'
         (w_trace w ++
          [ Mkdir output_dir;
            WriteFile (path_join output_dir "probability.tif")
              (Raster (mosaic_h m) (mosaic_w m) probabilities);
            WriteFile (path_join output_dir "candidates.geojson")
              (CandidateCollection feats
                 (Metadata species_name taxon_key (length valid_positives)
                    (length feats) lit_0_6));
            WriteFile (path_join output_dir "occurrences.geojson")
              (OccurrenceCollection valid_positives) ])).
Proof.
  destruct (extract_candidates_ok RS t (mosaic_w m) probabilities (w_rng w))
    as (feats & g' & E).
  exists feats, g'. split; [done|].
  unfold write_outputs, mbind, M_bind, emit, with_rng. cbn [w_rng w_trace].
  rewrite E. cbn [w_rng w_trace]. rewrite <- !app_assoc. reflexivity.
Qed.

Lemma outputs_app (t1 t2 : list event) : outputs (t1 ++ t2) = outputs t1 ++ outputs t2.
Proof. apply List.filter_app. Qed.

Lemma outputs_none (tr : list event) :
  Forall (fun e => is_output e = false) tr -> outputs tr = [].
Proof. induction 1 as [|e tr He _ IH]; cbn; [done|]. by rewrite He. Qed.

Lemma all_or_nothing_bind {A} (output_dir : string) (m : M A) (f : A -> M unit) :
  appends (fun e => is_output e = false) m ->
  (forall a, all_or_nothing output_dir (f a)) ->
  all_or_nothing output_dir (m ≫= f).
Proof.
  intros Hm Hf w r w'. unfold mbind, M_bind.
  destruct (m w) as [[a|e] w1] eqn:E1.
  - intros E2. destruct (Hm _ _ _ E1) as (t1 & H1 & F1).
    destruct (Hf a _ _ _ E2) as (t2 & H2 & Hcase).
    exists (t1 ++ t2). split; [by rewrite H2, H1, app_assoc|].
    rewrite outputs_app, (outputs_none t1 F1). exact Hcase.
  - intros [= <- <-]. destruct (Hm _ _ _ E1) as (t1 & H1 & F1).
    exists t1. split; [done|]. left. eauto using outputs_none.
Qed.

Lemma all_or_nothing_write (RS : NumpyRandomSpec R) (species_name : string)
    (taxon_key : json) (output_dir : string) (m : mosaic) (t : transform)
    (probabilities : list float32) (valid_positives : list coord) :
  all_or_nothing output_dir
    (write_outputs species_name taxon_key output_dir m t probabilities valid_positives).
Proof.
  intros w r w' E.
  destruct (write_outputs_events RS species_name taxon_key output_dir m t probabilities
              valid_positives w) as (feats & g' & _ & E').
  rewrite E' in E. injection E as <- <-. eexists. split; [reflexivity|].
  right. split; [done|]. cbn. unfold complete_outputs. eauto 10.
Qed.

Lemma appends_prepare_samples (m : mosaic) (t : transform) (b : bbox)
    (positives : list coord) :
  appends (fun e => is_output e = false) (prepare_samples m t b positives).
Proof.
  intros w r w' E. rewrite prepare_samples_eq in E.
  destruct (generate_negatives _ _ _ _ _) as [rn g]. injection E as <- <-.
  eexists. split; [reflexivity|]. by repeat constructor.
Qed.

Lemma appends_train_no_output (X_pos X_neg : ndarray) :
  appends (fun e => is_output e = false) (train X_pos X_neg).
Proof.
  unfold train, train_classifier.
  apply appends_bind; [apply appends_lift|]. intros X.
  apply appends_bind; [by apply appends_emit|]. intros _. apply appends_lift.
Qed.

Lemma all_or_nothing_pipeline (RS : NumpyRandomSpec R) (species_name : string)
    (taxon_key : json) (b : bbox) (output_dir : string) (positives : list (json * json)) :
  all_or_nothing output_dir (run_pipeline species_name taxon_key b output_dir positives).
Proof.
  unfold run_pipeline, train_and_write, score_and_write.
  apply all_or_nothing_bind; [apply appends_lift|]. intros [m t].
  apply all_or_nothing_bind; [apply appends_lift|]. intros coords.
  apply all_or_nothing_bind; [apply appends_prepare_samples|]. intros [[X_pos valid] X_neg].
  apply all_or_nothing_bind; [apply appends_train_no_output|]. intros md.
  apply all_or_nothing_bind; [apply appends_lift|]. intros px.
  apply all_or_nothing_bind; [apply appends_lift|]. intros probs.
  apply all_or_nothing_bind; [apply appends_lift|]. intros _.
  by apply all_or_nothing_write.
Qed.

(** (X17) A run ends in one of three ways: it raises, and has written nothing;
    it returns after logging that there are too few occurrences, and has
    written nothing; or it returns having created the directory and written
    the raster, the candidates and the occurrences, in this order.  No run
    leaves a part of the outputs. *)
Theorem run_all_or_nothing (RS : NumpyRandomSpec R) (fuel : nat) (species_name : string)
    (b : bbox) (output_dir : string) (w w' : world) (r : result ()) :
  run fuel species_name b output_dir w = Some (r, w') ->
  exists tail, w_trace w' = w_trace w ++ tail /\
    ((exists e, r = Raise e /\ outputs tail = []) \/
     (r = Ok () /\ tail = [LogError "Need at least 5 occurrences"]) \/
     (r = Ok () /\ complete_outputs output_dir (outputs tail))).
Proof.
  unfold run.
  destruct (get_species_key species_name) as [taxon_key|e].
  2: { intros [= <- <-]. exists []. rewrite app_nil_r. eauto 6. }
  destruct (fetch_occurrences fuel taxon_key b) as [[positives|e]|]; [| |done].
  2: { intros [= <- <-]. exists []. rewrite app_nil_r. eauto 6. }
  destruct (decide (length positives < 5)%nat).
  - intros [= <- <-]. eexists. split; [reflexivity|]. auto.
  - intros [= E].
    destruct (all_or_nothing_pipeline RS species_name taxon_key b output_dir positives
                _ _ _ E) as (tail & Htr & [Hc|Hc]); eauto.
Qed.

(** The stages a run that returns normally went through. *)
Lemma run_pipeline_ok_inv (species_name : string) (taxon_key : json) (b : bbox)
    (output_dir : string) (positives : list (json * json)) (w w' : world) :
  run_pipeline species_name taxon_key b output_dir positives w = (Ok (), w') ->
  exists m t coords negs g1 X_train md px probs,
    load_mosaic b = Ok (m, t) /\
    mapM as_coord positives = Ok coords /\
    let valid := List.filter (resolves_inside m t) coords in
    let X_pos := np_array (n_channels m) (map (embedding_at m t) valid) in
    let X_neg := (sample_embeddings m t negs).1 in
    let y_train := replicate (array_len X_pos) 1 ++ replicate (array_len X_neg) 0 in
    generate_negatives valid b (Z.of_nat (length valid) * 5) default_seed (w_rng w)
      = (Ok negs, g1) /\
    np_vstack X_pos X_neg = Ok X_train /\
    fit (n_neighbors (array_len X_train)) X_train y_train = Ok md /\
    reshape_pixels m = Ok px /\
    predict_batched (Z.to_nat batch_size) md px = Ok probs /\
    probs <> [] /\
    write_outputs species_name taxon_key output_dir m t probs valid
      (World g1 (w_trace w ++
                 [CallGenerateNegatives (length valid) (Z.of_nat (length valid) * 5);
                  CallFit (n_neighbors (array_len X_train)) (array_len X_train)]))
    = (Ok (), w').
Proof.
  unfold run_pipeline, train_and_write, score_and_write.
  unfold mbind at 1, M_bind at 1, lift at 1.
  destruct (load_mosaic b) as [[m t]|e]; [|done].
  unfold mbind at 1, M_bind at 1, lift at 1.
  destruct (mapM as_coord positives) as [coords|e]; [|done].
  unfold mbind at 1, M_bind at 1. rewrite prepare_samples_eq.
  destruct (generate_negatives _ b _ default_seed (w_rng w)) as [[negs|e] g1] eqn:Hneg;
    [|done].
  cbn [fmap result_fmap].
  unfold mbind at 1, M_bind at 1, train at 1.
  unfold mbind at 1, M_bind at 1, lift at 1.
  destruct (np_vstack _ _) as [X_train|e] eqn:Hstack; [|done].
  unfold train_classifier, mbind at 1, M_bind at 1, emit at 1. cbn [w_rng w_trace].
  unfold lift at 1.
  destruct (fit _ X_train _) as [md|e] eqn:Hfit; [|done].
  unfold mbind at 1, M_bind at 1, lift at 1.
  destruct (reshape_pixels m) as [px|e] eqn:Hpx; [|done].
  unfold mbind at 1, M_bind at 1, lift at 1.
  destruct (predict_batched _ md px) as [probs|e] eqn:Hprobs; [|done].
  unfold mbind at 1, M_bind at 1, lift at 1.
  destruct (log_stats probs) as [[]|e] eqn:Hstats; [|done].
  rewrite <- app_assoc. cbn [app]. intros E.
  exists m, t, coords, negs, g1, X_train, md, px, probs.
  repeat split; try done.
  intros ->. discriminate.
Qed.

Lemma run_ok_inv (RS : NumpyRandomSpec R) (fuel : nat) (species_name : string) (b : bbox)
    (output_dir : string) (w w' : world) (taxon_key : json)
    (positives : list (json * json)) :
  get_species_key species_name = Ok taxon_key ->
  fetch_occurrences fuel taxon_key b = Some (Ok positives) ->
  (5 <= length positives)%nat ->
  run fuel species_name b output_dir w = Some (Ok (), w') ->
  exists m t coords negs g1 X_train md px probs feats g2,
    load_mosaic b = Ok (m, t) /\
    mapM as_coord positives = Ok coords /\
    let valid := List.filter (resolves_inside m t) coords in
    let X_pos := np_array (n_channels m) (map (embedding_at m t) valid) in
    let X_neg := (sample_embeddings m t negs).1 in
    let y_train := replicate (array_len X_pos) 1 ++ replicate (array_len X_neg) 0 in
    generate_negatives valid b (Z.of_nat (length valid) * 5) default_seed (w_rng w)
      = (Ok negs, g1) /\
    np_vstack X_pos X_neg = Ok X_train /\
    fit (n_neighbors (array_len X_train)) X_train y_train = Ok md /\
    reshape_pixels m = Ok px /\
    predict_batched (Z.to_nat batch_size) md px = Ok probs /\
    probs <> [] /\
    extract_candidates t (mosaic_w m) probs g1 = (Ok feats, g2) /\
    w' = World g2
      (w_trace w ++
       [ CallGenerateNegatives (length valid) (Z.of_nat (length valid) * 5);
         CallFit (n_neighbors (array_len X_train)) (array_len X_train);
         Mkdir output_dir;
         WriteFile (path_join output_dir "probability.tif")
           (Raster (mosaic_h m) (mosaic_w m) probs);
         WriteFile (path_join output_dir "candidates.geojson")
           (CandidateCollection feats
              (Metadata species_name taxon_key (length valid) (length feats) lit_0_6));
         WriteFile (path_join output_dir "occurrences.geojson")
           (OccurrenceCollection valid) ]).
Proof.
  intros Hkey Hfetch Hlen. unfold run. rewrite Hkey, Hfetch, decide_False by lia.
  intros [= E].
  apply run_pipeline_ok_inv in E
    as (m & t & coords & negs & g1 & X & md & px & probs & Hm & Hc & Hn & Hx & Hf & Hp
        & Hb & Hne & Hw).
  destruct (write_outputs_events RS species_name taxon_key output_dir m t probs
              (List.filter (resolves_inside m t) coords)
              (World g1 (w_trace w ++
                 [CallGenerateNegatives (length (List.filter (resolves_inside m t) coords))
                    (Z.of_nat (length (List.filter (resolves_inside m t) coords)) * 5);
                  CallFit (n_neighbors (array_len X)) (array_len X)])))
    as (feats & g2 & Hfe & Hw').
  rewrite Hw' in Hw. injection Hw as <-. cbn [w_rng w_trace] in *.
  exists m, t, coords, negs, g1, X, md, px, probs, feats, g2.
  rewrite <- app_assoc. cbn [app]. done.
Qed.

(** (X16) What a run that returns normally, on 5 occurrences or more, has done:
    one call of [generate_negatives], one of [fit], then the directory and
    the three files.  The occurrences written are the fetched coordinates
    that resolve inside the mosaic, in the order they were fetched; the
    metadata of the candidates carry the species, the taxon key, the number
    of those occurrences, the number of candidates written and the
    threshold 0.6; the raster has the height and width of the mosaic. *)
Theorem run_complete_trace (RS : NumpyRandomSpec R) (fuel : nat) (species_name : string)
    (b : bbox) (output_dir : string) (w w' : world) (taxon_key : json)
    (positives : list (json * json)) :
  get_species_key species_name = Ok taxon_key ->
  fetch_occurrences fuel taxon_key b = Some (Ok positives) ->
  (5 <= length positives)%nat ->
  run fuel species_name b output_dir w = Some (Ok (), w') ->
  exists m t coords k n_train band feats,
    load_mosaic b = Ok (m, t) /\
    mapM as_coord positives = Ok coords /\
    let valid := List.filter (resolves_inside m t) coords in
    1 <= k /\
    band <> [] /\
    Z.of_nat (length feats) <= 5000 /\
    w_trace w' = w_trace w ++
      [ CallGenerateNegatives (length valid) (5 * Z.of_nat (length valid));
        CallFit k n_train;
        Mkdir output_dir;
        WriteFile (path_join output_dir "probability.tif")
          (Raster (mosaic_h m) (mosaic_w m) band);
        WriteFile (path_join output_dir "candidates.geojson")
          (CandidateCollection feats
             (Metadata species_name taxon_key (length valid) (length feats) lit_0_6));
        WriteFile (path_join output_dir "occurrences.geojson")
          (OccurrenceCollection valid) ].
Proof.
  intros Hkey Hfetch Hlen Hrun.
  destruct (run_ok_inv RS _ _ _ _ _ _ _ _ Hkey Hfetch Hlen Hrun)
    as (m & t & coords & negs & g1 & X & md & px & probs & feats & g2 & Hm & Hc & Hn & Hx
        & Hf & Hp & Hb & Hne & Hfe & ->).
  exists m, t, coords, (n_neighbors (array_len X)), (array_len X), probs, feats.
  split; [done|]. split; [done|]. cbn zeta.
  split; [rewrite sample_embeddings_eq in Hx; by apply stacked_training_rows in Hx as [_ ?]|].
  split; [done|]. split.
  - destruct (decide (Z.of_nat (length (where_ge 0 probs lit_0_6)) <= 5000)) as [H|H].
    + rewrite extract_candidates_below_cap in Hfe by done. injection Hfe as <- _.
      by rewrite sort_features_Permutation, length_map.
    + destruct (extract_candidates_above_cap RS t (mosaic_w m) probs g1)
        as (sel & E & _ & _ & Hl); [lia|].
      rewrite E in Hfe. injection Hfe as <- _.
      rewrite sort_features_Permutation, length_map. lia.
  - cbn [w_trace]. do 3 f_equal. lia.
Qed.

Lemma reshape_pixels_ok (m : mosaic) (px : list pixel) :
  reshape_pixels m = Ok px ->
  px = map (flat_pixel m) (seq 0 (mosaic_h m * mosaic_w m)) /\
  length px = (mosaic_h m * mosaic_w m)%nat.
Proof.
  unfold reshape_pixels. destruct (decide _); [done|]. intros [= <-].
  by rewrite length_map, length_seq.
Qed.

(** The embedding the sampler reads at an in-mosaic pixel is the row of
    that pixel in the flattened mosaic. *)
Lemma reshape_pixels_lookup (m : mosaic) (px : list pixel) (row col : Z) :
  reshape_pixels m = Ok px ->
  in_mosaic m (row, col) = true ->
  px !! (Z.to_nat row * mosaic_w m + Z.to_nat col)%nat
    = Some (mosaic_at m (Z.to_nat row) (Z.to_nat col)).
Proof.
  intros [-> _]%reshape_pixels_ok Hin. unfold in_mosaic in Hin. cbn [fst snd] in Hin.
  apply andb_prop in Hin as [Hin H4]. apply andb_prop in Hin as [Hin H3].
  apply andb_prop in Hin as [H1 H2].
  change (map (flat_pixel m)) with (fmap (M:=list) (flat_pixel m)).
  rewrite list_lookup_fmap, lookup_seq_lt; [done|]. nia.
Qed.

Lemma column_lookup (j i : nat) (a : list (list float64)) (col : list float64)
    (row : list float64) :
  column j a = Ok col -> a !! i = Some row ->
  exists x, row !! j = Some x /\ col !! i = Some x.
Proof.
  unfold column. revert i col. induction a as [|r a IH]; intros i col; [done|].
  cbn. destruct (r !! j) as [x|] eqn:Er; cbn; [|done].
  destruct (mapM _ a) as [col'|e] eqn:Ec; cbn; [|done].
  intros [= <-]. destruct i as [|i]; cbn.
  - intros [= <-]. eauto.
  - intros Hi. by apply (IH i col').
Qed.

Section Scores.
Context {SkSpec : SklearnSpec Sk}.

(** Row [i] of the answer of [predict_proba] is the answer for row [i]
    alone. *)
Lemma predict_proba_lookup (md : model) (X : list pixel) (i : nat) (x : pixel) :
  X !! i = Some x ->
  exists row, predict_proba md [x] = [row] /\ predict_proba md X !! i = Some row.
Proof using SkSpec.
  intros Hi.
  pose proof (predict_proba_length md [x]) as Hl.
  destruct (predict_proba md [x]) as [|row [|]] eqn:E; try done.
  exists row. split; [done|].
  rewrite <- (take_drop_middle X i x Hi), predict_proba_app.
  change (x :: drop (S i) X) with ([x] ++ drop (S i) X).
  rewrite predict_proba_app, E.
  rewrite lookup_app_r; rewrite predict_proba_length, length_take_le;
    try (apply lookup_lt_Some in Hi; lia).
  by rewrite Nat.sub_diag.
Qed.

Lemma predict_whole_lookup (md : model) (X : list pixel) (probs : list float32)
    (i : nat) (x : pixel) :
  predict_whole md X = Ok probs -> X !! i = Some x ->
  exists row p, predict_proba md [x] = [row] /\ row !! 1%nat = Some p /\
                probs !! i = Some (F32.of_f64 p).
Proof using SkSpec.
  unfold predict_whole. intros Hw Hi.
  destruct (column 1 (predict_proba md X)) as [col|e] eqn:Ec; [|done].
  cbn in Hw. injection Hw as <-.
  destruct (predict_proba_lookup md X i x Hi) as (row & Hrow & Hl).
  destruct (column_lookup _ _ _ _ _ Ec Hl) as (p & Hp & Hc).
  exists row, p. split; [done|]. split; [done|].
  change (map F32.of_f64 col) with (F32.of_f64 <$> col).
  by rewrite list_lookup_fmap, Hc.
Qed.

(** (X13) The raster a complete run writes has one value per pixel of the mosaic,
    and for every coordinate that resolves inside the mosaic, the value at
    its pixel is the positive-class probability the fitted classifier gives
    to the embedding [sample_embeddings] reads for that coordinate, stored
    as float32. *)
Theorem run_raster_scores (RS : NumpyRandomSpec R) (fuel : nat) (species_name : string)
    (b : bbox) (output_dir : string) (w w' : world) (taxon_key : json)
    (positives : list (json * json)) :
  get_species_key species_name = Ok taxon_key ->
  fetch_occurrences fuel taxon_key b = Some (Ok positives) ->
  (5 <= length positives)%nat ->
  run fuel species_name b output_dir w = Some (Ok (), w') ->
  exists m t k X_train y_train md band,
    load_mosaic b = Ok (m, t) /\
    fit k X_train y_train = Ok md /\
    WriteFile (path_join output_dir "probability.tif")
      (Raster (mosaic_h m) (mosaic_w m) band) ∈ w_trace w' /\
    length band = (mosaic_h m * mosaic_w m)%nat /\
    forall c : coord, resolves_inside m t c = true ->
      exists row p,
        predict_proba md [embedding_at m t c] = [row] /\
        row !! 1%nat = Some p /\
        band !! (Z.to_nat (rowcol t c.1 c.2).1 * mosaic_w m
                 + Z.to_nat (rowcol t c.1 c.2).2)%nat = Some (F32.of_f64 p).
Proof using SkSpec.
  intros Hkey Hfetch Hlen Hrun.
  destruct (run_ok_inv RS _ _ _ _ _ _ _ _ Hkey Hfetch Hlen Hrun)
    as (m & t & coords & negs & g1 & X & md & px & probs & feats & g2 & Hm & Hc & Hn & Hx
        & Hf & Hp & Hb & Hne & Hfe & ->).
  rewrite predict_batched_whole in Hb by (unfold batch_size; lia).
  eexists m, t, _, X, _, md, probs.
  split; [done|]. split; [exact Hf|]. split.
  { cbn [w_trace]. apply elem_of_app. right. rewrite !elem_of_cons. auto. }
  split.
  { destruct (reshape_pixels_ok m px Hp) as [_ <-].
    unfold predict_whole in Hb.
    destruct (column 1 (predict_proba md px)) as [col|e] eqn:Ec; [|done].
    cbn in Hb. injection Hb as <-.
    by rewrite length_map, (column_length _ _ _ Ec), predict_proba_length. }
  intros c Hin. unfold resolves_inside in Hin.
  destruct (rowcol t c.1 c.2) as [row col] eqn:Erc. cbn [fst snd].
  pose proof (reshape_pixels_lookup m px row col Hp Hin) as Hl.
  destruct (predict_whole_lookup md px probs _ _ Hb Hl) as (r & p & Hr & Hp1 & Hp2).
  exists r, p. unfold embedding_at. rewrite Erc. cbn [fst snd]. done.
Qed.

End Scores.

End MoreRun.

(** ** More on [generate_negatives] *)

Section MoreNegatives.
Context {R : NumpyRandom}.

Lemma negatives_loop_exhausted (budget : nat) (positives : list coord) (b : bbox)
    (n_samples : Z) (st st' : neg_loop) (g g' : rng_state) :
  negatives_loop budget positives b n_samples st g = (Ok st', g') ->
  Z.of_nat (length (negatives st')) < n_samples ->
  iterations st' = (iterations st + budget)%nat.
Proof.
  revert st g. induction budget as [|budget IH]; intros st g; cbn.
  - intros [= <- <-] _. lia.
  - destruct (Z.of_nat (length (negatives st)) >=? n_samples) eqn:Hlen.
    + intros [= <- <-]. cbn. lia.
    + destruct (np_uniform (min_lon b) (max_lon b) g) as [[lon|e1] g1]; [|discriminate].
      destruct (np_uniform (min_lat b) (max_lat b) g1) as [[lat|e2] g2]; [|discriminate].
      destruct (dists positives lon lat ≫= np_min) as [d|e]; [|discriminate].
      intros E Hlt. rewrite (IH _ _ E Hlt). cbn. lia.
Qed.

(** (X4) [generate_negatives] returns fewer points than were asked for only
    after all 100 * N iterations of its loop. *)
Theorem generate_negatives_budget (positives : list coord) (b : bbox)
    (n_samples seed : Z) (g0 g' : rng_state) (st : neg_loop) :
  generate_negatives_loop positives b n_samples seed g0 = (Ok st, g') ->
  Z.of_nat (length (negatives st)) < n_samples ->
  Z.of_nat (iterations st) = 100 * n_samples.
Proof.
  unfold generate_negatives_loop.
  destruct (np_seed seed g0) as [[[]|e0] gs]; [|discriminate]. intros E Hlt.
  rewrite (negatives_loop_exhausted _ _ _ _ _ _ _ _ E Hlt). cbn. lia.
Qed.

Lemma degree_dist_nan (p : coord) (lon lat : float64) :
  p.1 = S754_nan \/ p.2 = S754_nan -> degree_dist p lon lat = S754_nan.
Proof.
  destruct p as [x y]. cbn [fst snd]. unfold degree_dist. cbn [fst snd].
  intros [-> | ->]; [done|].
  change (F64.square (F64.sub S754_nan lat)) with S754_nan.
  by destruct (F64.square (F64.sub x lon)).
Qed.

Lemma np_minimum_nan_r (a : float64) : np_minimum a S754_nan = S754_nan.
Proof. by destruct a as [[]|[]| |[] ? ?]. Qed.

Lemma foldl_np_minimum_nan (x : float64) (xs : list float64) :
  x = S754_nan \/ S754_nan ∈ xs -> foldl np_minimum x xs = S754_nan.
Proof.
  revert x. induction xs as [|y ys IH]; intros x; cbn.
  - intros [->|H]; [done|]. by apply elem_of_nil in H.
  - intros [->|H]; [by apply IH; left|].
    apply elem_of_cons in H as [<-|H]; apply IH; [left|by right].
    apply np_minimum_nan_r.
Qed.

Lemma dists_min_nan (positives : list coord) (lon lat : float64) (p : coord) :
  p ∈ positives -> p.1 = S754_nan \/ p.2 = S754_nan ->
  dists positives lon lat ≫= np_min = Ok S754_nan.
Proof.
  intros Hp Hnan. destruct positives as [|q qs] eqn:E; [by apply elem_of_nil in Hp|].
  rewrite dists_nonempty by done. cbn [mbind result_bind map np_min]. f_equal.
  apply foldl_np_minimum_nan.
  apply elem_of_cons in Hp as [<-|Hp]; [left; by apply degree_dist_nan|].
  right. rewrite <- (degree_dist_nan p lon lat Hnan).
  by apply (list_elem_of_fmap_2 (fun p => degree_dist p lon lat)).
Qed.

Lemma negatives_loop_nan (budget : nat) (positives : list coord) (b : bbox)
    (n_samples : Z) (st st' : neg_loop) (g g' : rng_state) (p : coord) :
  p ∈ positives -> p.1 = S754_nan \/ p.2 = S754_nan ->
  negatives_loop budget positives b n_samples st g = (Ok st', g') ->
  negatives st' = negatives st.
Proof.
  intros Hp Hnan. revert st g. induction budget as [|budget IH]; intros st g; cbn.
  - by intros [= <- <-].
  - destruct (Z.of_nat (length (negatives st)) >=? n_samples); [by intros [= <- <-]|].
    destruct (np_uniform (min_lon b) (max_lon b) g) as [[lon|e1] g1]; [|discriminate].
    destruct (np_uniform (min_lat b) (max_lat b) g1) as [[lat|e2] g2]; [|discriminate].
    rewrite (dists_min_nan positives lon lat p Hp Hnan).
    change (F64.gtb S754_nan min_dist) with false. cbv iota.
    intros E. by rewrite (IH _ _ E).
Qed.

(** (X5) A positive with a NaN coordinate makes every distance minimum NaN,
    so that no draw is accepted: a call that returns returns the empty
    list, and the call does return for a seed numpy accepts and a box of
    finite widths. *)
Theorem generate_negatives_nan_positive (positives : list coord) (b : bbox)
    (n_samples seed : Z) (g0 : rng_state) (p : coord) :
  p ∈ positives -> p.1 = S754_nan \/ p.2 = S754_nan ->
  (forall negs g', generate_negatives positives b n_samples seed g0 = (Ok negs, g') ->
                   negs = []) /\
  (0 <= seed < 2 ^ 32 -> finite_widths b ->
   exists g', generate_negatives positives b n_samples seed g0 = (Ok [], g')).
Proof.
  intros Hp Hnan.
  assert (forall negs g', generate_negatives positives b n_samples seed g0 = (Ok negs, g') ->
                          negs = []) as Hempty.
  { intros negs g'. unfold generate_negatives, generate_negatives_loop.
    destruct (np_seed seed g0) as [[[]|e0] gs]; [|discriminate].
    destruct (negatives_loop _ _ _ _ _ _) as [[st|e] g] eqn:E; [|discriminate].
    cbn. intros [= <- <-].
    by rewrite (negatives_loop_nan _ _ _ _ _ _ _ _ p Hp Hnan E). }
  split; [exact Hempty|]. intros Hs Hw.
  assert (positives <> []) as Hne by (intros ->; by apply elem_of_nil in Hp).
  destruct (negatives_loop_ok (Z.to_nat (n_samples * 100)) positives b n_samples
              (NegLoop [] 0) (np_random_seed seed) Hne Hw) as (st & g' & E).
  exists g'.
  assert (generate_negatives positives b n_samples seed g0 = (Ok (negatives st), g')) as E'.
  { unfold generate_negatives, generate_negatives_loop.
    rewrite np_seed_valid by done. by rewrite E. }
  by rewrite E', (Hempty _ _ E').
Qed.

End MoreNegatives.

(** ** The training arrays *)

(** How the two sample arrays stack, for a mosaic with at least one
    channel: [n + m] rows when there are [n >= 1] positives and [m >= 1]
    negatives; two rows of no column when there is neither; a [ValueError]
    when there are samples of one kind only. *)
Lemma training_stack (c : nat) (pos neg : list pixel) :
  c <> 0%nat ->
  match pos, neg with
  | [], [] => np_vstack (np_array c pos) (np_array c neg) = Ok (Array2 0 [[]; []])
  | _ :: _, _ :: _ => np_vstack (np_array c pos) (np_array c neg) = Ok (Array2 c (pos ++ neg))
  | _, _ => exists msg, np_vstack (np_array c pos) (np_array c neg) = Raise (ValueError msg)
  end.
Proof.
  intros Hc. destruct pos as [|p pos], neg as [|q neg]; unfold np_vstack; cbn.
  - done.
  - rewrite decide_False by done. eauto.
  - rewrite decide_False by done. eauto.
  - by rewrite decide_True.
Qed.

Section EdgeRuns.
Context {R : NumpyRandom} {Ras : Rasterio} {TC : TileCache} {Sk : Sklearn}.

Lemma run_pipeline_to_training (species_name : string) (taxon_key : json) (b : bbox)
    (output_dir : string) (positives : list (json * json)) (w : world)
    (m : mosaic) (t : transform) (coords negs : list coord) (g1 : rng_state) :
  load_mosaic b = Ok (m, t) ->
  mapM as_coord positives = Ok coords ->
  let valid := List.filter (resolves_inside m t) coords in
  generate_negatives valid b (Z.of_nat (length valid) * 5) default_seed (w_rng w)
    = (Ok negs, g1) ->
  run_pipeline species_name taxon_key b output_dir positives w =
    (train (np_array (n_channels m) (map (embedding_at m t) valid))
           (np_array (n_channels m)
              (map (embedding_at m t) (List.filter (resolves_inside m t) negs)))
     ≫= fun md =>
       all_pixels ← lift (reshape_pixels m);
       probabilities ← lift (predict_batched (Z.to_nat batch_size) md all_pixels);
       lift (log_stats probabilities);;
       write_outputs species_name taxon_key output_dir m t probabilities valid)
      (World g1 (w_trace w ++
                 [CallGenerateNegatives (length valid) (Z.of_nat (length valid) * 5)])).
Proof.
  intros Hm Hc valid Hn. unfold run_pipeline, train_and_write, score_and_write. rewrite Hm, Hc.
  unfold mbind at 1 2, M_bind at 1 2, lift at 1 2.
  unfold mbind at 1, M_bind at 1. rewrite prepare_samples_eq. fold valid.
  rewrite Hn. cbn [fmap result_fmap]. by rewrite sample_embeddings_eq.
Qed.

(** (X11) For a mosaic with at least one channel: when some occurrence
    lies in the mosaic but none of the generated negatives does (in
    particular when no draw was accepted), the run raises the [ValueError]
    of [np.vstack], before [fit] is called and before anything is
    written. *)
Theorem run_without_negatives (species_name : string) (taxon_key : json) (b : bbox)
    (output_dir : string) (positives : list (json * json)) (w : world)
    (m : mosaic) (t : transform) (coords negs : list coord) (g1 : rng_state) :
  load_mosaic b = Ok (m, t) ->
  mapM as_coord positives = Ok coords ->
  n_channels m <> 0%nat ->
  let valid := List.filter (resolves_inside m t) coords in
  generate_negatives valid b (Z.of_nat (length valid) * 5) default_seed (w_rng w)
    = (Ok negs, g1) ->
  valid <> [] ->
  List.filter (resolves_inside m t) negs = [] ->
  exists msg,
    run_pipeline species_name taxon_key b output_dir positives w =
      (Raise (ValueError msg),
       World g1 (w_trace w ++
                 [CallGenerateNegatives (length valid) (Z.of_nat (length valid) * 5)])).
Proof.
  intros Hm Hc Hch valid Hn Hv Hnone.
  rewrite (run_pipeline_to_training _ _ _ _ _ _ _ _ _ _ _ Hm Hc Hn). fold valid.
  rewrite Hnone. cbn [map].
  pose proof (training_stack (n_channels m) (map (embedding_at m t) valid) [] Hch) as Hs.
  destruct (map (embedding_at m t) valid) as [|x xs] eqn:E.
  { destruct valid; [done|discriminate]. }
  destruct Hs as [msg Hs]. exists msg.
  unfold mbind at 1, M_bind at 1, train, mbind at 1, M_bind at 1, lift at 1.
  by rewrite Hs.
Qed.

(** (X10) When no fetched occurrence lies in the mosaic, the run does not stop:
    it asks for zero negatives, stacks two empty arrays into two rows of no
    column and calls [fit] with k = 1 on them and an empty label list; if
    [fit] raises, the run raises the same, with nothing written. *)
Theorem run_without_valid_positive (species_name : string) (taxon_key : json) (b : bbox)
    (output_dir : string) (positives : list (json * json)) (w : world)
    (m : mosaic) (t : transform) (coords : list coord) :
  load_mosaic b = Ok (m, t) ->
  mapM as_coord positives = Ok coords ->
  List.filter (resolves_inside m t) coords = [] ->
  exists r w' tail,
    run_pipeline species_name taxon_key b output_dir positives w = (r, w') /\
    w_trace w' = w_trace w ++ CallGenerateNegatives 0 0 :: CallFit 1 2 :: tail /\
    forall e, fit 1 (Array2 0 [[]; []]) [] = Raise e -> r = Raise e /\ tail = [].
Proof.
  intros Hm Hc Hv.
  rewrite (run_pipeline_to_training _ _ _ _ _ _ m t coords [] (np_random_seed default_seed)
             Hm Hc); [|by rewrite Hv].
  rewrite Hv. cbn [map length List.filter].
  unfold mbind at 1, M_bind at 1, train, mbind at 1, M_bind at 1, lift at 1.
  change (np_vstack (np_array (n_channels m) []) (np_array (n_channels m) []))
    with (Ok (Array2 0 [[]; []]) : result ndarray).
  cbv iota beta. unfold train_classifier, mbind at 1, M_bind at 1, emit at 1.
  cbn [w_rng w_trace np_array array_len length replicate app].
  change (n_neighbors 2) with 1. change (Z.of_nat 0 * 5) with 0. unfold lift at 1.
  destruct (fit 1 (Array2 0 [[]; []]) []) as [md|e] eqn:Hfit.
  - match goal with |- context [ ?act (World ?g ?tr) ] =>
      destruct (act (World g tr)) as [r w'] eqn:E;
      assert (appends (fun _ => True) act) as Happ
    end.
    { apply appends_bind; [apply appends_lift|]. intros px.
      apply appends_bind; [apply appends_lift|]. intros pr.
      apply appends_bind; [apply appends_lift|]. intros _.
      unfold write_outputs.
      repeat first [ apply appends_bind; [|intros ?] | by apply appends_emit
                   | apply appends_with_rng ]. }
    destruct (Happ _ _ _ E) as (tail & Htr & _). cbn [w_trace] in Htr.
    exists r, w', tail. split; [done|]. split; [|done].
    rewrite Htr, <- !app_assoc. done.
  - eexists _, _, []. split; [reflexivity|]. cbn [w_trace].
    split; [by rewrite <- app_assoc|]. by intros e' [= <-].
Qed.

End EdgeRuns.

(** ** The batches of the prediction loop *)

Lemma batches_from (B : nat) (px : list pixel) (fuel i : nat) :
  (0 < B)%nat -> (length px <= i + fuel)%nat ->
  let bs := map (fun i => slice i ((i + B) `min` length px)%nat px)
                (range_from fuel i (length px) B) in
  concat bs = drop i px /\
  Forall (fun b => (0 < length b <= B)%nat) bs /\
  (length bs = (length px - i + B - 1) `div` B)%nat.
Proof.
  intros HB. revert i. induction fuel as [|fuel IH]; intros i Hfuel.
  - rewrite range_from_done by lia. cbn. rewrite drop_ge by lia.
    split; [done|]. split; [done|]. symmetry. apply Nat.div_small. lia.
  - destruct (decide (i < length px)%nat) as [Hi|Hi].
    2: { rewrite range_from_done by lia. cbn. rewrite drop_ge by lia.
         split; [done|]. split; [done|]. symmetry. apply Nat.div_small. lia. }
    rewrite range_from_step by done. cbn [map concat length].
    destruct (IH (i + B)%nat) as (Hc & Hf & Hl); [lia|].
    split; [|split].
    + rewrite Hc. unfold slice.
      rewrite <- (take_drop ((i + B) `min` length px - i) (drop i px)) at 2.
      f_equal. rewrite drop_drop.
      destruct (decide (i + B <= length px)%nat).
      * f_equal. lia.
      * rewrite !drop_ge; [done|lia|lia].
    + constructor; [|done]. unfold slice. rewrite length_take, length_drop. lia.
    + rewrite Hl.
      destruct (decide (i + B <= length px)%nat).
      * replace (length px - i + B - 1)%nat with ((length px - (i + B) + B - 1) + 1 * B)%nat
          by lia.
        rewrite Nat.div_add by lia. lia.
      * replace (length px - (i + B) + B - 1)%nat with (B - 1)%nat by lia.
        rewrite Nat.div_small by lia.
        replace (length px - i + B - 1)%nat with ((length px - i - 1) + 1 * B)%nat by lia.
        rewrite Nat.div_add by lia. rewrite Nat.div_small by lia. done.
Qed.

Section LoopBatches.
Context {Sk : Sklearn}.

Lemma predict_batch_unfold (B : nat) (md : model) (px : list pixel)
    (probabilities : list float32) (i : nat) :
  predict_batch B md px probabilities i =
  (col ← column 1 (predict_proba md (slice i ((i + B) `min` length px)%nat px));
   slice_assign probabilities i ((i + B) `min` length px)%nat col).
Proof. reflexivity. Qed.

Lemma predict_whole_unfold (md : model) (X : list pixel) :
  predict_whole md X = (col ← column 1 (predict_proba md X); Ok (map F32.of_f64 col)).
Proof. reflexivity. Qed.

(** The loop from index [i] on, for a classifier that returns one row per
    pixel: [predict_proba] is called on each batch, the entries below [i]
    are kept and the scores of the batches follow them. *)
Lemma predict_loop_batches (B : nat) (md : model) (px : list pixel)
    (fuel i : nat) (probabilities : list float32) :
  (forall X, length (predict_proba md X) = length X) ->
  (0 < B)%nat ->
  length probabilities = length px ->
  (length px <= i + fuel)%nat ->
  for_each (predict_batch B md px) (range_from fuel i (length px) B) probabilities =
  (cols ← mapM (predict_whole md)
            (map (fun i => slice i ((i + B) `min` length px)%nat px)
                 (range_from fuel i (length px) B));
   Ok (take i probabilities ++ concat cols)).
Proof.
  intros Hrows HB. set (n := length px).
  revert i probabilities. induction fuel as [|fuel IH]; intros i probabilities Hlen Hfuel.
  - rewrite range_from_done by lia. cbn.
    rewrite take_ge by lia. by rewrite app_nil_r.
  - destruct (decide (i < n)%nat) as [Hi|Hi].
    2: { rewrite range_from_done by lia. cbn.
         rewrite take_ge by lia. by rewrite app_nil_r. }
    rewrite range_from_step by done. cbn [for_each map].
    set (e := ((i + B) `min` n)%nat).
    change (mapM (predict_whole md) (slice i e px :: ?l))
      with (y ← predict_whole md (slice i e px);
            k ← mapM (predict_whole md) l; mret (y :: k)).
    rewrite predict_batch_unfold, (predict_whole_unfold md (slice i e px)). fold n e.
    destruct (column 1 (predict_proba md (slice i e px))) as [col|err] eqn:Ecol;
      cbn [mbind result_bind]; [|done].
    assert (length col = (e - i)%nat) as Hcol.
    { apply column_length in Ecol. rewrite Ecol, Hrows. unfold slice.
      rewrite length_take, length_drop. fold n. lia. }
    unfold slice_assign.
    assert (length (slice i e probabilities) = (e - i)%nat) as Hsl.
    { unfold slice. rewrite length_take, length_drop. lia. }
    rewrite Hsl, decide_True by done. cbn [mbind result_bind].
    rewrite IH.
    2: { rewrite !length_app, length_take, length_map, length_drop. lia. }
    2: { lia. }
    destruct (mapM (predict_whole md) _) as [cols|err]; cbn [mbind result_bind mret result_ret];
      [|done].
    f_equal. cbn [concat]. rewrite (app_assoc _ _ (concat cols)). f_equal.
    rewrite app_assoc.
    assert (length (take i probabilities ++ map F32.of_f64 col) = e) as He.
    { rewrite length_app, length_take, length_map. lia. }
    destruct (decide (i + B <= n)%nat).
    + replace (i + B)%nat with e by lia. by rewrite take_app_length'.
    + rewrite take_ge; [|rewrite length_app, length_drop; lia].
      rewrite drop_ge by lia. by rewrite app_nil_r.
Qed.

(** (X12) For a classifier that returns one row per pixel, the prediction
    loop calls [predict_proba] on consecutive batches of the pixel list and
    its result is their positive-class columns, as float32, end to end.
    The batches put end to end are the pixel list, each pixel in one batch;
    no batch is empty or longer than the batch size; there are ceil(n / B)
    of them. *)
Theorem batches_partition (B : nat) (md : model) (all_pixels : list pixel) :
  (0 < B)%nat ->
  (forall X, length (predict_proba md X) = length X) ->
  exists bs,
    batches B all_pixels = Ok bs /\
    predict_batched B md all_pixels =
      (cols ← mapM (predict_whole md) bs; Ok (concat cols)) /\
    concat bs = all_pixels /\
    Forall (fun b => (0 < length b <= B)%nat) bs /\
    (length bs = (length all_pixels + B - 1) `div` B)%nat.
Proof.
  intros HB Hrows. unfold batches, predict_batched, py_range. rewrite decide_False by lia.
  eexists. split; [reflexivity|]. cbn [mbind result_bind]. split.
  { rewrite (predict_loop_batches B md all_pixels _ 0 _ Hrows HB);
      [done|by rewrite length_replicate|lia]. }
  destruct (batches_from B all_pixels (length all_pixels) 0 HB) as (Hc & Hf & Hl); [lia|].
  cbn zeta in *. rewrite Nat.sub_0_r in Hl. done.
Qed.

End LoopBatches.

(** ** Integers as floats *)

Lemma digits2_pos_size (p : positive) : digits2_pos p = Pos.size p.
Proof. induction p; cbn; by rewrite ?IHp. Qed.

Lemma digits2_pos_bounds (p : positive) :
  2 ^ (Z.pos (digits2_pos p) - 1) <= Z.pos p < 2 ^ Z.pos (digits2_pos p).
Proof.
  rewrite digits2_pos_size. split.
  - pose proof (Pos.size_le p) as H.
    assert (Z.pos (2 ^ Pos.size p) <= Z.pos p~0) as H' by exact H.
    rewrite Pos2Z.inj_pow in H'.
    replace (Z.pos (Pos.size p)) with (Z.succ (Z.pos (Pos.size p) - 1)) in H' by lia.
    rewrite Z.pow_succ_r in H' by lia. lia.
  - pose proof (Pos.size_gt p) as H.
    assert (Z.pos p < Z.pos (2 ^ Pos.size p)) as H' by exact H.
    by rewrite Pos2Z.inj_pow in H'.
Qed.

Lemma iter_xO_mul (p q : positive) : Z.pos (Pos.iter xO p q) = Z.pos p * 2 ^ Z.pos q.
Proof.
  induction q using Pos.peano_ind.
  - cbn. lia.
  - rewrite Pos.iter_succ, Pos2Z.inj_xO, IHq, Pos2Z.inj_succ, Z.pow_succ_r by lia. lia.
Qed.

Lemma iter_xO_digits (p q : positive) :
  digits2_pos (Pos.iter xO p q) = (digits2_pos p + q)%positive.
Proof.
  induction q using Pos.peano_ind.
  - cbn. lia.
  - rewrite Pos.iter_succ. cbn. rewrite IHq. lia.
Qed.

Lemma binary_round_aux_exact (m : positive) (e : Z) :
  Z.pos (digits2_pos m) = 53 -> -1074 <= e <= 971 ->
  binary_round_aux 53 1024 false (Z.pos m) e loc_Exact = S754_finite false m e.
Proof.
  intros Hd He. unfold binary_round_aux, shr_fexp, fexp, emin. cbn [Zdigits2].
  rewrite Hd.
  replace (Z.max (53 + e - 53) (3 - 1024 - 53) - e) with 0 by lia.
  cbn [shr shr_record_of_loc shr_m loc_of_shr_record round_nearest_even Zdigits2].
  rewrite Hd.
  replace (Z.max (53 + e - 53) (3 - 1024 - 53) - e) with 0 by lia.
  cbn [shr shr_record_of_loc shr_m].
  replace (e <=? 1024 - 53) with true by lia. done.
Qed.

(** The float of a positive integer below 2^53: the integer itself, the
    mantissa shifted to 53 bits. *)
Lemma of_Z_key (n : Z) :
  0 < n < 2 ^ 53 ->
  exists d, 2 ^ (d - 1) <= n < 2 ^ d /\ 1 <= d <= 53 /\
    SFkey (F64.of_Z n) = Some (1, d - 53, n * 2 ^ (53 - d)).
Proof.
  intros Hn. destruct n as [|p|p]; try lia.
  pose proof (digits2_pos_bounds p) as Hb.
  set (d := Z.pos (digits2_pos p)) in *.
  assert (1 <= d <= 53) as Hd.
  { split; [lia|]. destruct (decide (d <= 53)); [done|].
    assert (2 ^ 53 <= 2 ^ (d - 1)) by (apply Z.pow_le_mono_r; lia). lia. }
  exists d. split; [done|]. split; [done|].
  unfold F64.of_Z, binary_normalize, binary_round, shl_align, fexp, emin, F64.prec, F64.emax.
  fold d. replace (Z.max (d + 0 - 53) (3 - 1024 - 53) - 0) with (d - 53) by lia.
  destruct (d - 53) as [|q|q] eqn:Eq; try lia.
  - replace (Z.max (d + 0 - 53) (3 - 1024 - 53)) with 0 by lia.
    rewrite binary_round_aux_exact by (fold d; lia). cbn.
    replace d with 53 by lia. do 4 f_equal. lia.
  - rewrite binary_round_aux_exact.
    + cbn. rewrite iter_xO_mul. replace (Z.max _ _) with (Z.neg q) by lia.
      do 4 f_equal. lia.
    + rewrite iter_xO_digits. fold d. lia.
    + lia.
Qed.

Lemma of_Z_leb (a b : Z) :
  0 <= a < 2 ^ 53 -> 0 <= b < 2 ^ 53 ->
  SFleb (F64.of_Z a) (F64.of_Z b) = (a <=? b).
Proof.
  intros Ha Hb.
  assert (forall n, 0 <= n < 2 ^ 53 ->
            exists k, SFkey (F64.of_Z n) = Some k /\
              ((n = 0 /\ k = (0, 0, 0)) \/
               (exists d, 0 < n /\ 2 ^ (d - 1) <= n < 2 ^ d /\ 1 <= d <= 53 /\
                          k = (1, d - 53, n * 2 ^ (53 - d))))) as Hkey.
  { intros n Hn. destruct (decide (n = 0)) as [->|].
    - exists (0, 0, 0). split; [done|]. by left.
    - destruct (of_Z_key n) as (d & ? & ? & ?); [lia|].
      eexists. split; [done|]. right. exists d. repeat split; try done; lia. }
  destruct (Hkey a Ha) as (ka & Ka & Hka), (Hkey b Hb) as (kb & Kb & Hkb).
  assert (forall d1 d2 x y,
            2 ^ (d1 - 1) <= x < 2 ^ d1 -> 2 ^ (d2 - 1) <= y < 2 ^ d2 ->
            1 <= d1 -> 1 <= d2 -> x <= y -> d1 <= d2) as Hmono.
  { intros d1 d2 x y Hx Hy H1 H2 Hxy. destruct (decide (d1 <= d2)); [done|].
    assert (2 ^ d2 <= 2 ^ (d1 - 1)) by (apply Z.pow_le_mono_r; lia). lia. }
  destruct (Z.leb_spec a b) as [Hab|Hab].
  - apply SFleb_key. exists ka, kb. split; [done|]. split; [done|].
    destruct Hka as [[-> ->]|(da & ? & Hda & ? & ->)],
             Hkb as [[-> ->]|(db & ? & Hdb & ? & ->)]; unfold lex3_lt; cbn [fst snd];
      try lia; auto.
    pose proof (Hmono da db a b Hda Hdb ltac:(lia) ltac:(lia) Hab).
    destruct (decide (da = db)) as [->|]; [|left; right; split; [done|]; left; lia].
    assert (0 < 2 ^ (53 - db)) by (apply Z.pow_pos_nonneg; lia).
    destruct (decide (a = b)) as [->|]; [by right|].
    left. right. split; [done|]. right. split; [done|]. nia.
  - destruct (SFleb (F64.of_Z a) (F64.of_Z b)) eqn:E; [|done]. exfalso.
    apply SFleb_key in E as (ka' & kb' & Ka' & Kb' & H).
    assert (ka' = ka) as -> by congruence. assert (kb' = kb) as -> by congruence.
    destruct Hka as [[-> ->]|(da & ? & Hda & ? & ->)],
             Hkb as [[-> ->]|(db & ? & Hdb & ? & ->)]; try lia.
    + destruct H as [H|H]; [unfold lex3_lt in H; cbn in H; lia|].
      injection H as ? ? ?. lia.
    + pose proof (Hmono db da b a Hdb Hda ltac:(lia) ltac:(lia) ltac:(lia)).
      assert (0 < 2 ^ (53 - db)) by (apply Z.pow_pos_nonneg; lia).
      destruct H as [H|H].
      * unfold lex3_lt in H; cbn [fst snd] in H.
        destruct H as [?|[_ [?|[? ?]]]]; try lia.
        replace da with db in * by lia. nia.
      * injection H as ? ?. replace da with db in * by lia. nia.
Qed.

(** ** Pagination *)

Section Pagination.
Context {G : Gbif}.

Lemma fetch_pages_from (records : list json) (taxon_key : json) (b : bbox)
    (fuel offset : nat) :
  serves records taxon_key b ->
  Z.of_nat (length records) < 2 ^ 53 ->
  (offset <= length records)%nat ->
  ((length records - offset) `div` 300 < fuel)%nat ->
  fetch_pages fuel taxon_key b (take offset records) offset = Some (Ok records).
Proof.
  intros Hs Hbig. revert offset. induction fuel as [|fuel IH]; intros offset Hoff Hfuel; [lia|].
  cbn [fetch_pages]. destruct (Hs offset) as (data & -> & Hres & Hcount).
  unfold dict_get_default. rewrite Hres, Hcount. cbn [from_option id truthy].
  destruct (decide (offset = length records)) as [->|Hne].
  - rewrite drop_all. cbn. by rewrite firstn_all.
  - assert (length (take 300 (drop offset records)) <> 0)%nat as Hlen.
    { rewrite length_take, length_drop. lia. }
    rewrite bool_decide_eq_false_2 by done. cbn [negb].
    assert (take offset records ++ take 300 (drop offset records)
            = take (offset + 300) records) as -> by apply take_take_drop.
    unfold reached_count, F64.geb.
    rewrite of_Z_leb; [|lia|rewrite length_take; lia].
    rewrite length_take.
    destruct (Z.leb_spec (Z.of_nat (length records))
                (Z.of_nat ((offset + 300) `min` length records))) as [Hle|Hgt].
    + by rewrite take_ge by lia.
    + apply IH; [lia|].
      assert (length records - offset = (length records - (offset + 300)) + 1 * 300)%nat
        as Hsplit by lia.
      rewrite Hsplit, Nat.div_add in Hfuel by lia. lia.
Qed.

(** (X3) Against a server that pages a list of records as documented, 300 at a
    time with the total count, [fetch_occurrences] terminates after at
    most [len / 300 + 1] requests and returns the coordinates of all the
    records that have both, in the order of the server: no record is
    skipped or fetched twice. *)
Theorem fetch_occurrences_complete (records : list json) (taxon_key : json) (b : bbox)
    (fuel : nat) :
  serves records taxon_key b ->
  Z.of_nat (length records) < 2 ^ 53 ->
  (length records `div` 300 < fuel)%nat ->
  fetch_pages fuel taxon_key b [] 0 = Some (Ok records) /\
  fetch_occurrences fuel taxon_key b = Some (filter_records records) /\
  forall out, filter_records records = Ok out -> out = omap record_coord records.
Proof.
  intros Hs Hbig Hfuel.
  pose proof (fetch_pages_from records taxon_key b fuel 0 Hs Hbig) as E.
  rewrite Nat.sub_0_r in E. change (take 0 records) with (@nil json) in E.
  specialize (E ltac:(lia) Hfuel).
  split; [done|]. split.
  - unfold fetch_occurrences. by rewrite E.
  - apply filter_records_spec.
Qed.

End Pagination.

(** ** Failures before the pipeline *)

Section EarlyFailures.
Context {R : NumpyRandom} {Ras : Rasterio} {TC : TileCache} {Sk : Sklearn} {G : Gbif}.

(** (X1) A species the service does not resolve (a match response without a
    [usageKey], or with a falsy one: null, 0, an empty string) makes the
    run raise [ValueError], with no occurrence fetched, nothing logged and
    nothing written. *)
Theorem run_species_not_found (fuel : nat) (species_name : string) (b : bbox)
    (output_dir : string) (w : world) (data : gmap string json) :
  species_match species_name = Ok data ->
  (data !! "usageKey" = None \/
   exists key, data !! "usageKey" = Some key /\ truthy key = false) ->
  get_species_key species_name = Raise (ValueError "Species not found") /\
  run fuel species_name b output_dir w = Some (Raise (ValueError "Species not found"), w).
Proof.
  intros Hm Hkey.
  assert (get_species_key species_name = Raise (ValueError "Species not found")) as E.
  { unfold get_species_key. rewrite Hm. cbn [mbind result_bind]. unfold dict_get.
    destruct Hkey as [->|(key & -> & Hf)]; cbn; [done|]. by rewrite Hf. }
  split; [done|]. unfold run. by rewrite E.
Qed.

(** (X2) An error response of the service, to the species match or to the first
    page of the occurrence search, is raised by the run as it is, with
    nothing logged and nothing written. *)
Theorem run_service_error (fuel : nat) (species_name : string) (b : bbox)
    (output_dir : string) (w : world) (e : exn) :
  species_match species_name = Raise e \/
  (exists taxon_key, get_species_key species_name = Ok taxon_key /\
                     occurrence_search taxon_key b 0 = Raise e /\ fuel <> 0%nat) ->
  run fuel species_name b output_dir w = Some (Raise e, w).
Proof.
  intros [Hm|(key & Hk & Hs & Hf)]; unfold run.
  - unfold get_species_key. by rewrite Hm.
  - rewrite Hk. unfold fetch_occurrences. destruct fuel as [|fuel]; [done|].
    cbn [fetch_pages]. by rewrite Hs.
Qed.

End EarlyFailures.

(** ** Stitching the tiles *)

Section Stitching.
Context `{Rb : RasterioBounds}.

Lemma unravel_index W C row col k :
  (col < W)%nat -> (k < C)%nat ->
  unravel W C ((row * W + col) * C + k) = (row, col, k).
Proof.
  intros Hc Hk. unfold unravel.
  assert (E1 : (((row * W + col) * C + k) `div` C = row * W + col)%nat).
  { rewrite Nat.div_add_l by lia. rewrite Nat.div_small by lia. lia. }
  rewrite E1. f_equal; [f_equal|].
  - replace ((row * W + col) * C + k)%nat with (row * (W * C) + (col * C + k))%nat by lia.
    rewrite Nat.div_add_l by nia. rewrite Nat.div_small by nia. lia.
  - rewrite Nat.add_comm, Nat.Div0.mod_add. apply Nat.mod_small; lia.
  - rewrite Nat.add_comm, Nat.Div0.mod_add. apply Nat.mod_small; lia.
Qed.

Lemma flat_index_bound Hh W C row col k :
  (row < Hh)%nat -> (col < W)%nat -> (k < C)%nat ->
  ((row * W + col) * C + k < Hh * W * C)%nat.
Proof.
  intros Hr Hc Hk.
  assert (row * W + col < Hh * W)%nat by nia.
  nia.
Qed.

Lemma tiles_lookup_elem tiles key T :
  tiles_lookup tiles key = Some T -> exists k, (k, T) ∈ tiles.
Proof.
  unfold tiles_lookup. destruct (List.find _ tiles) as [[k T']|] eqn:E; [|discriminate].
  intros [= <-]. apply find_some in E as [E _]. exists k. by apply list_elem_of_In.
Qed.

Lemma placed_initial tiles th tw c lats lons :
  placed tiles th tw lats lons 0 0
    (Mosaic (length lats * th) (length lons * tw) c
       (replicate (length lats * th * (length lons * tw) * c) (S754_zero false))).
Proof.
  repeat split; cbn [mosaic_h mosaic_w n_channels mosaic_data].
  - by rewrite length_replicate.
  - intros bi bj lat lon r q k Hi Hj Hr Hq Hk.
    apply lookup_lt_Some in Hi, Hj.
    rewrite bool_decide_eq_false_2 by lia.
    apply lookup_replicate_2.
    apply flat_index_bound; [nia|nia|done].
Qed.

Lemma assign_block_placed tiles th tw lats lons i j lat lon T m :
  same_shape tiles th tw (n_channels m) ->
  lats !! i = Some lat -> lons !! j = Some lon ->
  tiles_lookup tiles (lon, lat) = Some T ->
  placed tiles th tw lats lons i j m ->
  exists m', assign_block m (i * th) (j * tw) T = Ok m' /\
    n_channels m' = n_channels m /\
    placed tiles th tw lats lons i (S j) m'.
Proof.
  intros Hun Hi Hj HT (Hh & Hw & Hlen & Hval).
  destruct (tiles_lookup_elem _ _ _ HT) as [key Hin].
  unfold same_shape in Hun. rewrite Forall_forall in Hun.
  destruct (Hun _ Hin) as (Er & Ec & Ech). cbn [snd] in Er, Ec, Ech.
  pose proof (lookup_lt_Some _ _ _ Hi) as Li.
  pose proof (lookup_lt_Some _ _ _ Hj) as Lj.
  unfold assign_block. cbv zeta. rewrite Er, Ec, Ech, Hh, Hw.
  assert (E1 : ((i * th) `min` (length lats * th) = i * th)%nat) by nia.
  assert (E2 : ((j * tw) `min` (length lons * tw) = j * tw)%nat) by nia.
  assert (E3 : ((i * th + th) `min` (length lats * th) - i * th = th)%nat) by nia.
  assert (E4 : ((j * tw + tw) `min` (length lons * tw) - j * tw = tw)%nat) by nia.
  rewrite E1, E2, E3, E4.
  unfold broadcasts.
  rewrite (bool_decide_eq_true_2 (th = th)), (bool_decide_eq_true_2 (tw = tw)),
    (bool_decide_eq_true_2 (n_channels m = n_channels m)) by done.
  cbn [orb andb].
  eexists. split; [reflexivity|]. split; [reflexivity|].
  repeat split; cbn [mosaic_h mosaic_w n_channels mosaic_data].
  - rewrite length_imap. by rewrite Hlen, Hh, Hw.
  - intros bi bj lat' lon' r q k Hbi Hbj Hr Hq Hk.
    pose proof (lookup_lt_Some _ _ _ Hbj) as Lbj.
    rewrite list_lookup_imap.
    specialize (Hval bi bj lat' lon' r q k Hbi Hbj Hr Hq Hk).
    rewrite Hw in Hval. rewrite Hval. cbn [fmap option_fmap option_map].
    rewrite unravel_index by (lia || nia).
    f_equal.
    destruct (decide (bi = i /\ bj = j)) as [[-> ->]|Hne].
    + assert (lat' = lat) by congruence. assert (lon' = lon) by congruence. subst lat' lon'.
      rewrite !bool_decide_eq_true_2 by lia. cbn [andb].
      rewrite (bool_decide_eq_true_2 (_ \/ _)) by lia.
      rewrite HT. unfold broadcast_index.
      replace (i * th + r - i * th)%nat with r by lia.
      replace (j * tw + q - j * tw)%nat with q by lia.
      repeat case_decide; repeat f_equal; lia.
    + assert (Hout : bool_decide (i * th <= bi * th + r < i * th + th)%nat
                     && bool_decide (j * tw <= bj * tw + q < j * tw + tw)%nat = false).
      { apply andb_false_iff.
        destruct (decide (bi = i)) as [->|Hb].
        - right. apply bool_decide_eq_false_2. intros [A B].
          assert (bj = j) by nia. tauto.
        - left. apply bool_decide_eq_false_2. intros [A B]. apply Hb. nia. }
      rewrite Hout.
      destruct (decide (bi < i \/ bi = i /\ bj < j)%nat) as [Hd|Hd].
      * rewrite !bool_decide_eq_true_2 by lia. done.
      * rewrite !bool_decide_eq_false_2 by lia. done.
Qed.

Lemma placed_skip tiles th tw lats lons i j lat lon m :
  lats !! i = Some lat -> lons !! j = Some lon ->
  tiles_lookup tiles (lon, lat) = None ->
  placed tiles th tw lats lons i j m ->
  placed tiles th tw lats lons i (S j) m.
Proof.
  intros Hi Hj HT (Hh & Hw & Hlen & Hval). repeat split; try done.
  intros bi bj lat' lon' r q k Hbi Hbj Hr Hq Hk.
  rewrite (Hval bi bj lat' lon' r q k) by done. f_equal.
  destruct (decide (bi = i /\ bj = j)) as [[-> ->]|Hne].
  - assert (lat' = lat) by congruence. assert (lon' = lon) by congruence. subst lat' lon'.
    rewrite HT. by repeat case_bool_decide.
  - destruct (decide (bi < i \/ bi = i /\ bj < j)%nat) as [Hd|Hd].
    + rewrite !bool_decide_eq_true_2 by lia. done.
    + rewrite !bool_decide_eq_false_2 by lia. done.
Qed.

Lemma placed_row_end tiles th tw lats lons i m :
  placed tiles th tw lats lons i (length lons) m ->
  placed tiles th tw lats lons (S i) 0 m.
Proof.
  intros (Hh & Hw & Hlen & Hval). repeat split; try done.
  intros bi bj lat' lon' r q k Hbi Hbj Hr Hq Hk.
  rewrite (Hval bi bj lat' lon' r q k) by done. f_equal.
  apply lookup_lt_Some in Hbj.
  destruct (decide (bi < i \/ bi = i /\ bj < length lons)%nat) as [Hd|Hd].
  - rewrite !bool_decide_eq_true_2 by lia. done.
  - rewrite !bool_decide_eq_false_2 by lia. done.
Qed.

Lemma place_row tiles th tw c lats lons i lat :
  same_shape tiles th tw c -> lats !! i = Some lat ->
  forall suffix prefix m,
    lons = prefix ++ suffix -> n_channels m = c ->
    placed tiles th tw lats lons i (length prefix) m ->
    exists m',
      for_each (fun (m : mosaic) '(j, tlon) =>
                  match tiles_lookup tiles (tlon, lat) with
                  | Some T => assign_block m (i * th) (j * tw) T
                  | None => Ok m
                  end)
        (imap (fun n => pair (length prefix + n)%nat) suffix) m = Ok m' /\
      n_channels m' = c /\
      placed tiles th tw lats lons i (length lons) m'.
Proof.
  intros Hun Hi suffix. induction suffix as [|lon suffix IH]; intros prefix m E Hc Hp.
  - exists m. rewrite app_nil_r in E. subst lons. done.
  - assert (Hj : lons !! length prefix = Some lon).
    { subst lons. by rewrite list_lookup_middle. }
    rewrite imap_cons. cbn [for_each]. rewrite Nat.add_0_r.
    assert (exists m1,
      match tiles_lookup tiles (lon, lat) with
      | Some T => assign_block m (i * th) (length prefix * tw) T
      | None => Ok m
      end = Ok m1 /\ n_channels m1 = c /\
      placed tiles th tw lats lons i (S (length prefix)) m1) as (m1 & E1 & Hc1 & Hp1).
    { destruct (tiles_lookup tiles (lon, lat)) as [T|] eqn:HT.
      - rewrite <- Hc in Hun.
        destruct (assign_block_placed _ _ _ _ _ _ _ _ _ _ _ Hun Hi Hj HT Hp)
          as (m1 & ? & ? & ?).
        exists m1. split; [done|]. split; [congruence|done].
      - exists m. eauto using placed_skip. }
    rewrite E1. cbn [mbind result_bind].
    destruct (IH (prefix ++ [lon]) m1) as (m' & E' & ? & ?).
    + by rewrite <- app_assoc.
    + done.
    + rewrite length_app. cbn [length]. by rewrite Nat.add_1_r.
    + exists m'. split; [|done]. rewrite <- E'. f_equal.
      apply imap_ext. intros n x _. cbn. rewrite length_app. cbn [length]. f_equal. lia.
Qed.

Lemma place_rows tiles th tw c lats lons :
  same_shape tiles th tw c ->
  forall suffix prefix m,
    lats = prefix ++ suffix -> n_channels m = c ->
    placed tiles th tw lats lons (length prefix) 0 m ->
    exists m',
      for_each (fun (m : mosaic) '(i, tlat) =>
        for_each (fun (m : mosaic) '(j, tlon) =>
                    match tiles_lookup tiles (tlon, tlat) with
                    | Some T => assign_block m (i * th) (j * tw) T
                    | None => Ok m
                    end) (enumerate lons) m)
        (imap (fun n => pair (length prefix + n)%nat) suffix) m = Ok m' /\
      n_channels m' = c /\
      placed tiles th tw lats lons (length lats) 0 m'.
Proof.
  intros Hun suffix. induction suffix as [|lat suffix IH]; intros prefix m E Hc Hp.
  - exists m. rewrite app_nil_r in E. subst lats. done.
  - assert (Hi : lats !! length prefix = Some lat).
    { subst lats. by rewrite list_lookup_middle. }
    rewrite imap_cons. cbn [for_each]. rewrite Nat.add_0_r.
    destruct (place_row _ _ _ _ _ _ _ _ Hun Hi lons [] m eq_refl Hc Hp)
      as (m1 & E1 & Hc1 & Hp1).
    unfold enumerate. cbn [length Nat.add] in E1.
    match goal with
    | |- context [for_each ?f (imap pair lons) m] =>
        replace (for_each f (imap pair lons) m) with (Ok m1 : result mosaic)
          by (symmetry; exact E1)
    end.
    cbn [mbind result_bind].
    destruct (IH (prefix ++ [lat]) m1) as (m' & E' & ? & ?).
    + by rewrite <- app_assoc.
    + done.
    + rewrite length_app. cbn [length]. rewrite Nat.add_1_r. by apply placed_row_end.
    + exists m'. split; [|done]. rewrite <- E'. f_equal.
      apply imap_ext. intros n x _. cbn. rewrite length_app. cbn [length]. f_equal. lia.
Qed.

Lemma place_tiles_placed tiles th tw c lats lons :
  same_shape tiles th tw c ->
  exists m,
    place_tiles tiles th tw lats lons
      (Mosaic (length lats * th) (length lons * tw) c
         (replicate (length lats * th * (length lons * tw) * c) (S754_zero false)))
    = Ok m /\
    n_channels m = c /\
    placed tiles th tw lats lons (length lats) 0 m.
Proof.
  intros Hun. unfold place_tiles, enumerate at 2.
  apply (place_rows _ _ _ _ _ _ Hun lats []); [done|done|].
  apply placed_initial.
Qed.

End Stitching.
(** ** The order of the tile grid *)

Lemma SFeqb_key (x y : spec_float) :
  SFeqb x y = true <-> exists a, SFkey x = Some a /\ SFkey y = Some a.
Proof.
  unfold SFeqb. rewrite SFcompare_key.
  destruct (SFkey x) as [a|], (SFkey y) as [b|]; split;
    try discriminate; try (intros (? & ? & ?); discriminate).
  - intros E. exists a. split; [done|]. f_equal. symmetry.
    apply lex3_compare_Eq. by destruct (lex3_compare a b).
  - intros (a' & [= ->] & [= ->]).
    assert (E : lex3_compare a' a' = Eq) by by apply lex3_compare_Eq.
    by rewrite E.
Qed.

Lemma SFeqb_refl (x : spec_float) : F64.is_nan x = false -> SFeqb x x = true.
Proof. intros N. apply SFeqb_key. destruct (is_nan_key x N) as [a ?]. eauto. Qed.

Lemma SFeqb_sym (x y : spec_float) : SFeqb x y = true -> SFeqb y x = true.
Proof. rewrite !SFeqb_key. intros (a & ? & ?). eauto. Qed.

Lemma SFeqb_trans (x y z : spec_float) :
  SFeqb x y = true -> SFeqb y z = true -> SFeqb x z = true.
Proof.
  rewrite !SFeqb_key. intros (a & ? & ?) (b & ? & ?).
  exists a. split; [done|congruence].
Qed.

Lemma SFltb_total (x y : spec_float) :
  F64.is_nan x = false -> F64.is_nan y = false ->
  SFltb y x = false -> SFeqb y x = false -> SFltb x y = true.
Proof.
  intros Nx Ny L E.
  destruct (is_nan_key x Nx) as [a Ka], (is_nan_key y Ny) as [b Kb].
  destruct (SFltb_false_key y x b a Kb Ka L) as [->|Lt].
  - assert (SFeqb y x = true) by (apply SFeqb_key; eauto). congruence.
  - apply SFltb_key. eauto 6.
Qed.

Lemma SFltb_asym (x y : spec_float) : SFltb x y = true -> SFltb y x = false.
Proof.
  intros L. destruct (SFltb y x) eqn:L'; [|done].
  apply SFltb_key in L as (a & b & Ka & Kb & L).
  apply SFltb_key in L' as (b' & a' & Kb' & Ka' & L').
  assert (a' = a) by congruence. assert (b' = b) by congruence. subst.
  unfold lex3_lt in *. lia.
Qed.

Lemma py_set_subset (xs : list float64) (y : float64) : y ∈ py_set xs -> y ∈ xs.
Proof.
  revert y. induction xs as [|x xs IH]; intros y; cbn [py_set]; [done|].
  rewrite !elem_of_cons. intros [->|Hin]; [auto|].
  apply list_elem_of_In, filter_In in Hin as [Hin _].
  right. by apply IH, list_elem_of_In.
Qed.

Lemma py_set_represents (xs : list float64) (x : float64) :
  x ∈ xs -> F64.is_nan x = false ->
  exists y, y ∈ py_set xs /\ SFeqb y x = true.
Proof.
  induction xs as [|x0 xs IH]; [by intros ?%elem_of_nil|].
  rewrite elem_of_cons. intros [->|Hin] N; cbn [py_set].
  - exists x0. split; [apply elem_of_cons; auto|by apply SFeqb_refl].
  - destruct (IH Hin N) as (y & Hy & E).
    destruct (SFeqb y x0) eqn:E0.
    + exists x0. split; [apply elem_of_cons; auto|].
      eauto using SFeqb_sym, SFeqb_trans.
    + exists y. split; [|done]. apply elem_of_cons. right.
      apply list_elem_of_In, filter_In. split; [by apply list_elem_of_In|].
      by rewrite E0.
Qed.

Lemma distinct_floats_filter (f : float64 -> bool) (l : list float64) :
  distinct_floats l -> distinct_floats (List.filter f l).
Proof.
  induction l as [|x l IH]; [done|]. cbn [distinct_floats List.filter].
  intros [Hx Hl]. destruct (f x); cbn [distinct_floats]; [|auto].
  split; [|auto]. rewrite Forall_forall in Hx |- *.
  intros y Hy. apply Hx. apply list_elem_of_In, filter_In in Hy as [Hy _].
  by apply list_elem_of_In.
Qed.

Lemma py_set_distinct (xs : list float64) : distinct_floats (py_set xs).
Proof.
  induction xs as [|x xs IH]; [done|]. cbn [py_set distinct_floats]. split.
  - rewrite Forall_forall. intros y Hy.
    apply list_elem_of_In, filter_In in Hy as [_ Hy].
    by destruct (SFeqb y x).
  - by apply distinct_floats_filter.
Qed.

Lemma insert_asc_elem (x y : float64) (l : list float64) :
  y ∈ insert_asc x l <-> y = x \/ y ∈ l.
Proof.
  induction l as [|z l IH]; cbn [insert_asc].
  - rewrite list_elem_of_singleton, elem_of_nil. tauto.
  - destruct (SFltb z x); rewrite !elem_of_cons; [rewrite IH|]; tauto.
Qed.

Lemma insert_desc_elem (x y : float64) (l : list float64) :
  y ∈ insert_desc x l <-> y = x \/ y ∈ l.
Proof.
  induction l as [|z l IH]; cbn [insert_desc].
  - rewrite list_elem_of_singleton, elem_of_nil. tauto.
  - destruct (SFltb x z); rewrite !elem_of_cons; [rewrite IH|]; tauto.
Qed.

Lemma sorted_asc_elem (y : float64) (xs : list float64) :
  y ∈ sorted_asc xs <-> y ∈ xs.
Proof.
  induction xs as [|x xs IH]; [done|].
  unfold sorted_asc in *. cbn [foldr]. rewrite insert_asc_elem, elem_of_cons, IH. tauto.
Qed.

Lemma sorted_desc_elem (y : float64) (xs : list float64) :
  y ∈ sorted_desc xs <-> y ∈ xs.
Proof.
  induction xs as [|x xs IH]; [done|].
  unfold sorted_desc in *. cbn [foldr]. rewrite insert_desc_elem, elem_of_cons, IH. tauto.
Qed.

Lemma insert_asc_increasing (x : float64) (l : list float64) :
  F64.is_nan x = false -> Forall (fun y => F64.is_nan y = false) l ->
  Forall (fun y => SFeqb y x = false) l ->
  increasing l -> increasing (insert_asc x l).
Proof.
  intros Nx. induction l as [|z l IH]; intros Nl Dl Il; cbn [insert_asc].
  - by cbn.
  - apply Forall_cons in Nl as [Nz Nl]. apply Forall_cons in Dl as [Dz Dl].
    destruct Il as [Hz Il]. destruct (SFltb z x) eqn:L.
    + cbn [increasing]. split; [|auto].
      rewrite Forall_forall. intros y [->|Hy]%insert_asc_elem; [done|].
      rewrite Forall_forall in Hz. auto.
    + assert (Lx : SFltb x z = true) by by apply SFltb_total.
      cbn [increasing]. split; [|done]. apply Forall_cons. split; [done|].
      rewrite Forall_forall in Hz |- *. eauto using SFltb_trans.
Qed.

Lemma insert_desc_decreasing (x : float64) (l : list float64) :
  F64.is_nan x = false -> Forall (fun y => F64.is_nan y = false) l ->
  Forall (fun y => SFeqb y x = false) l ->
  decreasing l -> decreasing (insert_desc x l).
Proof.
  intros Nx. induction l as [|z l IH]; intros Nl Dl Il; cbn [insert_desc].
  - by cbn.
  - apply Forall_cons in Nl as [Nz Nl]. apply Forall_cons in Dl as [Dz Dl].
    destruct Il as [Hz Il]. destruct (SFltb x z) eqn:L.
    + cbn [decreasing]. split; [|auto].
      rewrite Forall_forall. intros y [->|Hy]%insert_desc_elem; [done|].
      rewrite Forall_forall in Hz. auto.
    + assert (Lx : SFltb z x = true).
      { apply SFltb_total; try done.
        destruct (SFeqb x z) eqn:E; [|done]. apply SFeqb_sym in E. congruence. }
      cbn [decreasing]. split; [|done]. apply Forall_cons. split; [done|].
      rewrite Forall_forall in Hz |- *. eauto using SFltb_trans.
Qed.

Lemma sorted_asc_increasing (xs : list float64) :
  Forall (fun y => F64.is_nan y = false) xs -> distinct_floats xs ->
  increasing (sorted_asc xs).
Proof.
  induction xs as [|x xs IH]; [done|].
  intros [Nx Nl]%Forall_cons [Dx Dl]. unfold sorted_asc in *. cbn [foldr].
  apply insert_asc_increasing; [done| | |auto].
  - rewrite Forall_forall in Nl |- *. intros y Hy. by apply Nl, sorted_asc_elem.
  - rewrite Forall_forall in Dx |- *. intros y Hy. by apply Dx, sorted_asc_elem.
Qed.

Lemma sorted_desc_decreasing (xs : list float64) :
  Forall (fun y => F64.is_nan y = false) xs -> distinct_floats xs ->
  decreasing (sorted_desc xs).
Proof.
  induction xs as [|x xs IH]; [done|].
  intros [Nx Nl]%Forall_cons [Dx Dl]. unfold sorted_desc in *. cbn [foldr].
  apply insert_desc_decreasing; [done| | |auto].
  - rewrite Forall_forall in Nl |- *. intros y Hy. by apply Nl, sorted_desc_elem.
  - rewrite Forall_forall in Dx |- *. intros y Hy. by apply Dx, sorted_desc_elem.
Qed.

Lemma py_set_not_nan (xs : list float64) :
  Forall (fun y => F64.is_nan y = false) xs ->
  Forall (fun y => F64.is_nan y = false) (py_set xs).
Proof.
  rewrite !Forall_forall. intros Hx y Hy. by apply Hx, py_set_subset.
Qed.

Lemma py_min_increasing (x : float64) (l : list float64) :
  increasing (x :: l) -> py_min (x :: l) = Ok x.
Proof.
  cbn [py_min increasing]. intros [Hx _]. f_equal.
  induction l as [|y l IH]; [done|]. apply Forall_cons in Hx as [Hy Hx].
  cbn [foldl]. rewrite (SFltb_asym _ _ Hy). auto.
Qed.

Lemma py_max_decreasing (x : float64) (l : list float64) :
  decreasing (x :: l) -> py_max (x :: l) = Ok x.
Proof.
  cbn [py_max decreasing]. intros [Hx _]. f_equal.
  induction l as [|y l IH]; [done|]. apply Forall_cons in Hx as [Hy Hx].
  cbn [foldl]. rewrite (SFltb_asym _ _ Hy). auto.
Qed.

Lemma tile_lons_increasing (tiles : list (coord * tile)) :
  keys_not_nan tiles -> increasing (tile_lons tiles).
Proof.
  intros Hk. apply sorted_asc_increasing; [|apply py_set_distinct].
  apply py_set_not_nan. apply Forall_fmap.
  eapply Forall_impl; [exact Hk|]. by intros ? [? ?].
Qed.

Lemma tile_lats_decreasing (tiles : list (coord * tile)) :
  keys_not_nan tiles -> decreasing (tile_lats tiles).
Proof.
  intros Hk. apply sorted_desc_decreasing; [|apply py_set_distinct].
  apply py_set_not_nan. apply Forall_fmap.
  eapply Forall_impl; [exact Hk|]. by intros ? [? ?].
Qed.

Lemma tile_lons_nonempty (tiles : list (coord * tile)) :
  tiles <> [] -> exists west rest, tile_lons tiles = west :: rest.
Proof.
  destruct tiles as [|kv tiles]; [done|]. intros _.
  destruct (tile_lons (kv :: tiles)) as [|west rest] eqn:E; [|eauto].
  assert (kv.1.1 ∈ tile_lons (kv :: tiles)).
  { apply sorted_asc_elem. cbn [map py_set]. apply elem_of_cons. auto. }
  rewrite E in *. by apply elem_of_nil in H.
Qed.

Lemma tile_lats_nonempty (tiles : list (coord * tile)) :
  tiles <> [] -> exists north rest, tile_lats tiles = north :: rest.
Proof.
  destruct tiles as [|kv tiles]; [done|]. intros _.
  destruct (tile_lats (kv :: tiles)) as [|north rest] eqn:E; [|eauto].
  assert (kv.1.2 ∈ tile_lats (kv :: tiles)).
  { apply sorted_desc_elem. cbn [map py_set]. apply elem_of_cons. auto. }
  rewrite E in *. by apply elem_of_nil in H.
Qed.
Section StitchResults.
Context `{Rb : RasterioBounds}.

Lemma stitch_tiles_eq (tiles : list (coord * tile)) (th tw c : nat) :
  tiles <> [] -> same_shape tiles th tw c ->
  exists m,
    n_channels m = c /\
    placed tiles th tw (tile_lats tiles) (tile_lons tiles) (length (tile_lats tiles)) 0 m /\
    stitch_tiles tiles =
      (west ← py_min (tile_lons tiles);
       north ← py_max (tile_lats tiles);
       t ← from_bounds
             west
             (F64.sub (F64.add north lit_0_1)
                (F64.mul lit_0_1 (F64.of_Z (Z.of_nat (length (tile_lats tiles))))))
             (F64.add west
                (F64.mul lit_0_1 (F64.of_Z (Z.of_nat (length (tile_lons tiles))))))
             (F64.add north lit_0_1) (mosaic_w m) (mosaic_h m);
       Ok (m, t)).
Proof.
  intros Hne Hun. destruct tiles as [|[k0 T0] tiles']; [done|].
  pose proof Hun as Hun'. apply Forall_cons in Hun' as [(Er & Ec & Ech) _].
  cbn [snd] in Er, Ec, Ech.
  destruct (place_tiles_placed _ _ _ _ (tile_lats ((k0, T0) :: tiles'))
              (tile_lons ((k0, T0) :: tiles')) Hun) as (m & E & Hc & Hp).
  exists m. split; [done|]. split; [done|].
  destruct Hp as (Hh & Hw & _).
  unfold stitch_tiles. cbv zeta. rewrite Er, Ec, Ech, E, Hh, Hw. reflexivity.
Qed.

Lemma placed_lookup (tiles : list (coord * tile)) (th tw : nat)
    (lats lons : list float64) (m : mosaic) (i j r q k : nat) (lat lon : float64) :
  placed tiles th tw lats lons (length lats) 0 m ->
  lats !! i = Some lat -> lons !! j = Some lon ->
  (r < th)%nat -> (q < tw)%nat -> (k < n_channels m)%nat ->
  mosaic_at m (i * th + r) (j * tw + q) !! k =
    Some (match tiles_lookup tiles (lon, lat) with
          | Some T => F32.of_f64 (tile_at T r q k)
          | None => S754_zero false
          end).
Proof.
  intros (Hh & Hw & Hlen & Hval) Hi Hj Hr Hq Hk.
  unfold mosaic_at, flat_pixel, pixel. rewrite lookup_take_lt by done. rewrite lookup_drop.
  rewrite (Hval i j lat lon r q k) by done.
  apply lookup_lt_Some in Hi. by rewrite bool_decide_eq_true_2 by lia.
Qed.

Lemma bind_ok_inv {A B} (x : result A) (f : A -> result B) (b : B) :
  x ≫= f = Ok b -> exists a, x = Ok a /\ f a = Ok b.
Proof. destruct x as [a|e]; [eauto|discriminate]. Qed.

Lemma stitch_tiles_ok_placed (tiles : list (coord * tile)) (th tw c : nat)
    (m : mosaic) (t : transform) :
  same_shape tiles th tw c -> stitch_tiles tiles = Ok (m, t) ->
  n_channels m = c /\
  placed tiles th tw (tile_lats tiles) (tile_lons tiles) (length (tile_lats tiles)) 0 m.
Proof.
  intros Hun E.
  assert (Hne : tiles <> []) by (intros ->; discriminate).
  destruct (stitch_tiles_eq tiles th tw c Hne Hun) as (m' & Hc & Hp & E').
  rewrite E' in E.
  apply bind_ok_inv in E as (west & _ & E).
  apply bind_ok_inv in E as (north & _ & E).
  apply bind_ok_inv in E as (t' & _ & E).
  injection E as -> ->. done.
Qed.

Lemma tiles_lookup_key (tiles : list (coord * tile)) (key : coord) (T : tile)
    (lon lat : float64) :
  distinct_keys tiles -> (key, T) ∈ tiles ->
  SFeqb lon key.1 = true -> SFeqb lat key.2 = true ->
  tiles_lookup tiles (lon, lat) = Some T.
Proof.
  intros Hd Hin Elon Elat. unfold tiles_lookup.
  assert (Hk : key_eqb key (lon, lat) = true).
  { unfold key_eqb. cbn [fst snd].
    by rewrite (SFeqb_sym _ _ Elon), (SFeqb_sym _ _ Elat). }
  destruct (List.find _ tiles) as [[key' T']|] eqn:E.
  - apply find_some in E as [Hin' Hk']. cbn [fst] in Hk'.
    apply list_elem_of_In, list_elem_of_lookup in Hin' as [n' Hn'].
    apply list_elem_of_lookup in Hin as [n Hn].
    assert (n' = n) as ->.
    { apply (Hd n' n _ _ Hn' Hn). cbn [fst]. unfold key_eqb in *. cbn [fst snd] in *.
      apply andb_true_iff in Hk' as [A B]. apply andb_true_iff. split.
      - eapply SFeqb_trans; [exact A|done].
      - eapply SFeqb_trans; [exact B|done]. }
    cbn. congruence.
  - apply list_elem_of_In in Hin. pose proof (find_none _ _ E _ Hin) as F.
    cbn [fst] in F. congruence.
Qed.

(** (X6) [load_mosaic], lines 112-145: when every tile has the shape
    (th, tw, c) the placement never fails, and the mosaic has one block of
    th x tw pixels for each latitude and longitude met among the keys, with
    c channels; its bounds start at the smallest longitude and end one step
    above the largest latitude. *)
Theorem stitch_tiles_shape (tiles : list (coord * tile)) (th tw c : nat) :
  tiles <> [] -> same_shape tiles th tw c ->
  exists m west north,
    py_min (tile_lons tiles) = Ok west /\
    py_max (tile_lats tiles) = Ok north /\
    mosaic_h m = (length (tile_lats tiles) * th)%nat /\
    mosaic_w m = (length (tile_lons tiles) * tw)%nat /\
    n_channels m = c /\
    length (mosaic_data m) = (mosaic_h m * mosaic_w m * c)%nat /\
    stitch_tiles tiles =
      (t ← from_bounds
             west
             (F64.sub (F64.add north lit_0_1)
                (F64.mul lit_0_1 (F64.of_Z (Z.of_nat (length (tile_lats tiles))))))
             (F64.add west
                (F64.mul lit_0_1 (F64.of_Z (Z.of_nat (length (tile_lons tiles))))))
             (F64.add north lit_0_1) (mosaic_w m) (mosaic_h m);
       Ok (m, t)).
Proof.
  intros Hne Hun.
  destruct (stitch_tiles_eq tiles th tw c Hne Hun) as (m & Hc & Hp & E).
  destruct (tile_lons_nonempty tiles Hne) as (w0 & wr & Ew).
  destruct (tile_lats_nonempty tiles Hne) as (n0 & nr & En).
  destruct Hp as (Hh & Hw & Hlen & _).
  eexists m, _, _. split; [by rewrite Ew|]. split; [by rewrite En|].
  repeat split; try done.
  - by rewrite Hlen, Hc.
  - rewrite E, Ew, En. reflexivity.
Qed.

(** (X7) [load_mosaic], lines 126-133: in the stitched mosaic the block in row i
    and column j of the grid holds the tile stored under the i-th latitude
    from the north and the j-th longitude from the west, cast to float32,
    and zeros when the dictionary has no tile there. *)
Theorem stitch_tiles_places (tiles : list (coord * tile)) (th tw c : nat)
    (m : mosaic) (t : transform) (i j r q k : nat) (lat lon : float64) :
  same_shape tiles th tw c -> stitch_tiles tiles = Ok (m, t) ->
  tile_lats tiles !! i = Some lat -> tile_lons tiles !! j = Some lon ->
  (r < th)%nat -> (q < tw)%nat -> (k < c)%nat ->
  mosaic_at m (i * th + r) (j * tw + q) !! k =
    Some (match tiles_lookup tiles (lon, lat) with
          | Some T => F32.of_f64 (tile_at T r q k)
          | None => S754_zero false
          end).
Proof.
  intros Hun E Hi Hj Hr Hq Hk.
  destruct (stitch_tiles_ok_placed _ _ _ _ _ _ Hun E) as [Hc Hp].
  eapply placed_lookup; eauto. by rewrite Hc.
Qed.

(** (X8) [load_mosaic], lines 119-133: no loaded tile is lost.  When the keys
    have no NaN, every tile of the dictionary fills one block of the
    mosaic, the one of its own latitude and longitude. *)
Theorem stitch_tiles_keeps_every_tile (tiles : list (coord * tile)) (th tw c : nat)
    (m : mosaic) (t : transform) (key : coord) (T : tile) :
  same_shape tiles th tw c -> keys_not_nan tiles -> distinct_keys tiles ->
  stitch_tiles tiles = Ok (m, t) -> (key, T) ∈ tiles ->
  exists i j lat lon,
    tile_lats tiles !! i = Some lat /\ SFeqb lat key.2 = true /\
    tile_lons tiles !! j = Some lon /\ SFeqb lon key.1 = true /\
    forall r q k, (r < th)%nat -> (q < tw)%nat -> (k < c)%nat ->
      mosaic_at m (i * th + r) (j * tw + q) !! k = Some (F32.of_f64 (tile_at T r q k)).
Proof.
  intros Hun Hnan Hd E Hin.
  destruct (stitch_tiles_ok_placed _ _ _ _ _ _ Hun E) as [Hc Hp].
  unfold keys_not_nan in Hnan. rewrite Forall_forall in Hnan.
  destruct (Hnan _ Hin) as [Nlon Nlat]. cbn [fst snd] in Nlon, Nlat.
  destruct (py_set_represents (map (fun kv : coord * tile => kv.1.1) tiles) key.1)
    as (lon & Hlon & Elon); [|done|].
  { apply (list_elem_of_fmap_2 (fun kv : coord * tile => kv.1.1) _ _ Hin). }
  destruct (py_set_represents (map (fun kv : coord * tile => kv.1.2) tiles) key.2)
    as (lat & Hlat & Elat); [|done|].
  { apply (list_elem_of_fmap_2 (fun kv : coord * tile => kv.1.2) _ _ Hin). }
  apply sorted_asc_elem, list_elem_of_lookup in Hlon as [j Hj].
  apply sorted_desc_elem, list_elem_of_lookup in Hlat as [i Hi].
  exists i, j, lat, lon. repeat split; try done.
  intros r q k Hr Hq Hk.
  rewrite (placed_lookup _ _ _ _ _ _ i j r q k lat lon Hp Hi Hj) by (done || by rewrite Hc).
  by rewrite (tiles_lookup_key tiles key T lon lat).
Qed.

End StitchResults.

(** (X9) [load_mosaic], lines 119-121 and 136-137: when the keys have no NaN,
    the longitudes of the grid grow strictly from the first column on and
    the latitudes fall strictly from the first row on, so that the origin
    of the mosaic is the west edge of column 0 and the latitude of row 0. *)
Theorem tile_grid_order (tiles : list (coord * tile)) :
  tiles <> [] -> keys_not_nan tiles ->
  increasing (tile_lons tiles) /\ decreasing (tile_lats tiles) /\
  exists west north,
    tile_lons tiles !! 0%nat = Some west /\ tile_lats tiles !! 0%nat = Some north /\
    py_min (tile_lons tiles) = Ok west /\ py_max (tile_lats tiles) = Ok north.
Proof.
  intros Hne Hk.
  pose proof (tile_lons_increasing tiles Hk) as Hi.
  pose proof (tile_lats_decreasing tiles Hk) as Hd.
  split; [done|]. split; [done|].
  destruct (tile_lons_nonempty tiles Hne) as (w0 & wr & Ew).
  destruct (tile_lats_nonempty tiles Hne) as (n0 & nr & En).
  rewrite Ew, En in *. exists w0, n0. repeat split.
  - by apply py_min_increasing.
  - by apply py_max_decreasing.
Qed.

(** ** The further properties on the small environment *)

(** The four candidates of the 2 x 3 raster come lowest first. *)
Lemma candidates_ascending_witness :
  @extract_candidates Demo.rng Demo.rasterio Demo.the_grid 3
    (mosaic_data Demo.the_mosaic) 0 = (Ok Demo2.the_candidates, 0) /\
  ascending Demo2.the_candidates.
Proof.
  assert (@extract_candidates Demo.rng Demo.rasterio Demo.the_grid 3
            (mosaic_data Demo.the_mosaic) 0 = (Ok Demo2.the_candidates, 0)) as E
    by (vm_compute; reflexivity).
  split; [exact E|].
  exact (@candidates_ascending Demo.rng Demo.rasterio demo_rng_spec Demo.the_grid 3
           (mosaic_data Demo.the_mosaic) 0 0 Demo2.the_candidates E).
Defined.

(** A raster of two cells below the threshold. *)
Lemma no_candidates_witness :
  Forall (fun x => F32.geb x (F32.of_f64 lit_0_6) = false) [Demo.f32 1 10; Demo.f32 3 10] /\
  @extract_candidates Demo.rng Demo.rasterio Demo.the_grid 2
    [Demo.f32 1 10; Demo.f32 3 10] 0 = (Ok [], 0).
Proof.
  assert (Forall (fun x => F32.geb x (F32.of_f64 lit_0_6) = false)
            [Demo.f32 1 10; Demo.f32 3 10]) as H by (repeat constructor).
  split; [exact H|].
  exact (@no_candidates Demo.rng Demo.rasterio Demo.the_grid 2
           [Demo.f32 1 10; Demo.f32 3 10] 0 H).
Defined.

Lemma demo_run_returns :
  match @run Demo.rng Demo.rasterio Demo.tile_cache Demo.sklearn Demo.gbif
    5 "Quercus robur" Demo.cambridge "out" Demo.world0 with
  | Some (Ok _, _) => true
  | _ => false
  end = true.
Proof. vm_compute. reflexivity. Qed.

(** The complete run of the small environment. *)
Lemma run_all_or_nothing_witness :
  exists r w',
    @run Demo.rng Demo.rasterio Demo.tile_cache Demo.sklearn Demo.gbif
    5 "Quercus robur" Demo.cambridge "out" Demo.world0 = Some (r, w') /\
    exists tail, w_trace w' = w_trace Demo.world0 ++ tail /\
      ((exists e, r = Raise e /\ outputs tail = []) \/
       (r = Ok () /\ tail = [LogError "Need at least 5 occurrences"]) \/
       (r = Ok () /\ complete_outputs "out" (outputs tail))).
Proof.
  pose proof demo_run_returns as Hret.
  destruct (@run Demo.rng Demo.rasterio Demo.tile_cache Demo.sklearn Demo.gbif
    5 "Quercus robur" Demo.cambridge "out" Demo.world0) as [[r w']|] eqn:E; [|discriminate Hret].
  exists r, w'. split; [reflexivity|].
  exact (@run_all_or_nothing Demo.rng Demo.rasterio Demo.tile_cache Demo.sklearn Demo.gbif
           demo_rng_spec 5 "Quercus robur" Demo.cambridge "out" Demo.world0 w' r E).
Defined.

(** The stages of the complete run of the small environment. *)
Lemma run_complete_trace_witness :
  @get_species_key Demo.gbif "Quercus robur" = Ok Demo.taxon_key /\
  @fetch_occurrences Demo.gbif 5 Demo.taxon_key Demo.cambridge = Some (Ok Demo.fetched) /\
  (5 <= length Demo.fetched)%nat /\
  exists w',
  @run Demo.rng Demo.rasterio Demo.tile_cache Demo.sklearn Demo.gbif
    5 "Quercus robur" Demo.cambridge "out" Demo.world0 = Some (Ok (), w') /\
  exists (m : mosaic) (t : @transform Demo.rasterio) coords k n_train band feats,
    @load_mosaic Demo.rasterio Demo.tile_cache Demo.cambridge = Ok (m, t) /\
    mapM as_coord Demo.fetched = Ok coords /\
    1 <= k /\
    band <> [] /\
    Z.of_nat (length feats) <= 5000 /\
    w_trace w' = w_trace Demo.world0 ++
      [ CallGenerateNegatives
          (length (List.filter (@resolves_inside Demo.rasterio m t) coords))
          (5 * Z.of_nat (length (List.filter (@resolves_inside Demo.rasterio m t) coords)));
        CallFit k n_train;
        Mkdir "out";
        WriteFile (path_join "out" "probability.tif")
          (Raster (mosaic_h m) (mosaic_w m) band);
        WriteFile (path_join "out" "candidates.geojson")
          (CandidateCollection feats
             (Metadata "Quercus robur" Demo.taxon_key
                (length (List.filter (@resolves_inside Demo.rasterio m t) coords))
                (length feats) lit_0_6));
        WriteFile (path_join "out" "occurrences.geojson")
          (OccurrenceCollection (List.filter (@resolves_inside Demo.rasterio m t) coords)) ].
Proof.
  assert (@get_species_key Demo.gbif "Quercus robur" = Ok Demo.taxon_key) as Hk
    by (vm_compute; reflexivity).
  assert (@fetch_occurrences Demo.gbif 5 Demo.taxon_key Demo.cambridge
          = Some (Ok Demo.fetched)) as Hf by (vm_compute; reflexivity).
  assert (5 <= length Demo.fetched)%nat as Hl by (cbn; lia).
  split; [exact Hk|]. split; [exact Hf|]. split; [exact Hl|].
  pose proof demo_run_returns as Hret.
  destruct (@run Demo.rng Demo.rasterio Demo.tile_cache Demo.sklearn Demo.gbif
    5 "Quercus robur" Demo.cambridge "out" Demo.world0) as [[[[]|e] w']|] eqn:E; [|discriminate Hret|discriminate Hret].
  exists w'. split; [reflexivity|].
  exact (@run_complete_trace Demo.rng Demo.rasterio Demo.tile_cache Demo.sklearn Demo.gbif
           demo_rng_spec 5 "Quercus robur" Demo.cambridge "out" Demo.world0
           w' Demo.taxon_key Demo.fetched Hk Hf Hl E).
Defined.

(** The raster of the complete run of the small environment. *)
Lemma run_raster_scores_witness :
  @get_species_key Demo.gbif "Quercus robur" = Ok Demo.taxon_key /\
  @fetch_occurrences Demo.gbif 5 Demo.taxon_key Demo.cambridge = Some (Ok Demo.fetched) /\
  (5 <= length Demo.fetched)%nat /\
  exists w',
  @run Demo.rng Demo.rasterio Demo.tile_cache Demo.sklearn Demo.gbif
    5 "Quercus robur" Demo.cambridge "out" Demo.world0 = Some (Ok (), w') /\
  exists (m : mosaic) (t : @transform Demo.rasterio) k X_train y_train
         (md : @model Demo.sklearn) band,
    @load_mosaic Demo.rasterio Demo.tile_cache Demo.cambridge = Ok (m, t) /\
    @fit Demo.sklearn k X_train y_train = Ok md /\
    WriteFile (path_join "out" "probability.tif")
      (Raster (mosaic_h m) (mosaic_w m) band) ∈ w_trace w' /\
    length band = (mosaic_h m * mosaic_w m)%nat /\
    forall c : coord, @resolves_inside Demo.rasterio m t c = true ->
      exists row p,
        @predict_proba Demo.sklearn md [@embedding_at Demo.rasterio m t c] = [row] /\
        row !! 1%nat = Some p /\
        band !! (Z.to_nat (@rowcol Demo.rasterio t c.1 c.2).1 * mosaic_w m
                 + Z.to_nat (@rowcol Demo.rasterio t c.1 c.2).2)%nat
          = Some (F32.of_f64 p).
Proof.
  assert (@get_species_key Demo.gbif "Quercus robur" = Ok Demo.taxon_key) as Hk
    by (vm_compute; reflexivity).
  assert (@fetch_occurrences Demo.gbif 5 Demo.taxon_key Demo.cambridge
          = Some (Ok Demo.fetched)) as Hf by (vm_compute; reflexivity).
  assert (5 <= length Demo.fetched)%nat as Hl by (cbn; lia).
  split; [exact Hk|]. split; [exact Hf|]. split; [exact Hl|].
  pose proof demo_run_returns as Hret.
  destruct (@run Demo.rng Demo.rasterio Demo.tile_cache Demo.sklearn Demo.gbif
    5 "Quercus robur" Demo.cambridge "out" Demo.world0) as [[[[]|e] w']|] eqn:E; [|discriminate Hret|discriminate Hret].
  exists w'. split; [reflexivity|].
  exact (@run_raster_scores Demo.rng Demo.rasterio Demo.tile_cache Demo.sklearn Demo.gbif
           demo_sklearn_spec demo_rng_spec 5 "Quercus robur" Demo.cambridge "out"
           Demo.world0 w' Demo.taxon_key Demo.fetched Hk Hf Hl E).
Defined.

(** In a box that is a single point, on a positive, every draw is
    rejected: the loop for a target of 2 runs its 200 iterations. *)
Lemma generate_negatives_budget_witness :
  @generate_negatives_loop Demo.rng Demo.the_positives Demo2.point_box 2 42 0
    = (Ok (NegLoop [] 200), Demo2.exhausted.2) /\
  Z.of_nat (length (negatives (NegLoop [] 200))) < 2 /\
  Z.of_nat (iterations (NegLoop [] 200)) = 100 * 2.
Proof.
  assert (@generate_negatives_loop Demo.rng Demo.the_positives Demo2.point_box 2 42 0
          = (Ok (NegLoop [] 200), Demo2.exhausted.2)) as E by (vm_compute; reflexivity).
  assert (Z.of_nat (length (negatives (NegLoop [] 200))) < 2) as Hlt by (cbn; lia).
  split; [exact E|]. split; [exact Hlt|].
  exact (@generate_negatives_budget Demo.rng Demo.the_positives Demo2.point_box 2 42 0
           Demo2.exhausted.2 (NegLoop [] 200) E Hlt).
Defined.

(** One positive without a longitude. *)
Lemma generate_negatives_nan_positive_witness :
  (S754_nan, Demo.dec 5225 100) ∈ [(S754_nan, Demo.dec 5225 100)] /\
  0 <= 42 < 2 ^ 32 /\ finite_widths Demo.cambridge /\
  (forall negs g',
     @generate_negatives Demo.rng [(S754_nan, Demo.dec 5225 100)] Demo.cambridge 3 42 0
       = (Ok negs, g') -> negs = []) /\
  exists g',
    @generate_negatives Demo.rng [(S754_nan, Demo.dec 5225 100)] Demo.cambridge 3 42 0
      = (Ok [], g').
Proof.
  assert ((S754_nan, Demo.dec 5225 100) ∈ [(S754_nan, Demo.dec 5225 100)]) as Hin
    by apply list_elem_of_here.
  assert (0 <= 42 < 2 ^ 32) as Hs by lia.
  split; [exact Hin|]. split; [exact Hs|]. split; [exact demo_cambridge_finite|].
  destruct (@generate_negatives_nan_positive Demo.rng [(S754_nan, Demo.dec 5225 100)]
              Demo.cambridge 3 42 0 (S754_nan, Demo.dec 5225 100) Hin (or_introl eq_refl))
    as [Hempty Hret].
  split; [exact Hempty|]. exact (Hret Hs demo_cambridge_finite).
Defined.

(** The five occurrences in the mosaic, and a box away from it: the 25
    negatives all fall outside the mosaic. *)
Lemma run_without_negatives_witness :
  @load_mosaic Demo.rasterio Demo.tile_cache Demo2.far_box
    = Ok (Demo.the_mosaic, Demo.the_grid : @transform Demo.rasterio) /\
  mapM as_coord Demo.fetched = Ok Demo.fetched_coords /\
  n_channels Demo.the_mosaic <> 0%nat /\
  List.filter (@resolves_inside Demo.rasterio Demo.the_mosaic Demo.the_grid)
    Demo.fetched_coords <> [] /\
  exists negs,
    @generate_negatives Demo.rng
      (List.filter (@resolves_inside Demo.rasterio Demo.the_mosaic Demo.the_grid)
         Demo.fetched_coords)
      Demo2.far_box
      (Z.of_nat (length (List.filter
                           (@resolves_inside Demo.rasterio Demo.the_mosaic Demo.the_grid)
                           Demo.fetched_coords)) * 5)
      default_seed (w_rng Demo.world0) = (Ok negs, Demo2.far_negatives.2) /\
    List.filter (@resolves_inside Demo.rasterio Demo.the_mosaic Demo.the_grid) negs = [] /\
    exists msg,
      @run_pipeline Demo.rng Demo.rasterio Demo.tile_cache Demo.sklearn
        "Quercus robur" Demo.taxon_key Demo2.far_box "out" Demo.fetched Demo.world0 =
        (Raise (ValueError msg),
         @World Demo.rng Demo2.far_negatives.2
           (w_trace Demo.world0 ++
            [CallGenerateNegatives
               (length (List.filter
                          (@resolves_inside Demo.rasterio Demo.the_mosaic Demo.the_grid)
                          Demo.fetched_coords))
               (Z.of_nat (length (List.filter
                                    (@resolves_inside Demo.rasterio Demo.the_mosaic
                                       Demo.the_grid)
                                    Demo.fetched_coords)) * 5)])).
Proof.
  assert (@load_mosaic Demo.rasterio Demo.tile_cache Demo2.far_box
          = Ok (Demo.the_mosaic, Demo.the_grid : @transform Demo.rasterio)) as Hm
    by reflexivity.
  assert (mapM as_coord Demo.fetched = Ok Demo.fetched_coords) as Hc
    by (vm_compute; reflexivity).
  assert (n_channels Demo.the_mosaic <> 0%nat) as Hch by (cbn; lia).
  assert (List.filter (@resolves_inside Demo.rasterio Demo.the_mosaic Demo.the_grid)
            Demo.fetched_coords <> []) as Hv by (vm_compute; discriminate).
  split; [exact Hm|]. split; [exact Hc|]. split; [exact Hch|]. split; [exact Hv|].
  destruct Demo2.far_negatives.1 as [negs|e] eqn:En; [|vm_compute in En; discriminate].
  assert (@generate_negatives Demo.rng
            (List.filter (@resolves_inside Demo.rasterio Demo.the_mosaic Demo.the_grid)
               Demo.fetched_coords)
            Demo2.far_box
            (Z.of_nat (length (List.filter
                                 (@resolves_inside Demo.rasterio Demo.the_mosaic Demo.the_grid)
                                 Demo.fetched_coords)) * 5)
            default_seed (w_rng Demo.world0) = (Ok negs, Demo2.far_negatives.2)) as Hn.
  { vm_compute. vm_compute in En. by rewrite <- En. }
  assert (List.filter (@resolves_inside Demo.rasterio Demo.the_mosaic Demo.the_grid) negs
          = []) as Hnone.
  { vm_compute in En. injection En as <-. vm_compute. reflexivity. }
  exists negs. split; [exact Hn|]. split; [exact Hnone|].
  exact (@run_without_negatives Demo.rng Demo.rasterio Demo.tile_cache Demo.sklearn
           "Quercus robur" Demo.taxon_key Demo2.far_box "out" Demo.fetched Demo.world0
           Demo.the_mosaic Demo.the_grid Demo.fetched_coords negs Demo2.far_negatives.2
           Hm Hc Hch Hn Hv Hnone).
Defined.

(** Five occurrences east of the mosaic. *)
Lemma run_without_valid_positive_witness :
  @load_mosaic Demo.rasterio Demo.tile_cache Demo.cambridge
    = Ok (Demo.the_mosaic, Demo.the_grid : @transform Demo.rasterio) /\
  mapM as_coord Demo2.far_fetched = Ok Demo2.far_coords /\
  List.filter (@resolves_inside Demo.rasterio Demo.the_mosaic Demo.the_grid)
    Demo2.far_coords = [] /\
  exists r w' tail,
    @run_pipeline Demo.rng Demo.rasterio Demo.tile_cache Demo.sklearn
      "Quercus robur" Demo.taxon_key Demo.cambridge "out" Demo2.far_fetched Demo.world0
      = (r, w') /\
    w_trace w' = w_trace Demo.world0 ++ CallGenerateNegatives 0 0 :: CallFit 1 2 :: tail /\
    forall e, @fit Demo.sklearn 1 (Array2 0 [[]; []]) [] = Raise e -> r = Raise e /\ tail = [].
Proof.
  assert (@load_mosaic Demo.rasterio Demo.tile_cache Demo.cambridge
          = Ok (Demo.the_mosaic, Demo.the_grid : @transform Demo.rasterio)) as Hm
    by reflexivity.
  assert (mapM as_coord Demo2.far_fetched = Ok Demo2.far_coords) as Hc
    by (vm_compute; reflexivity).
  assert (List.filter (@resolves_inside Demo.rasterio Demo.the_mosaic Demo.the_grid)
            Demo2.far_coords = []) as Hv by (vm_compute; reflexivity).
  split; [exact Hm|]. split; [exact Hc|]. split; [exact Hv|].
  exact (@run_without_valid_positive Demo.rng Demo.rasterio Demo.tile_cache Demo.sklearn
           "Quercus robur" Demo.taxon_key Demo.cambridge "out" Demo2.far_fetched
           Demo.world0 Demo.the_mosaic Demo.the_grid Demo2.far_coords Hm Hc Hv).
Defined.

(** Five pixels in batches of 2. *)
Lemma batches_partition_witness :
  (0 < 2)%nat /\
  (forall X, length (@predict_proba Demo.sklearn () X) = length X) /\
  exists bs,
    batches 2 Demo2.five_pixels = Ok bs /\
    @predict_batched Demo.sklearn 2 () Demo2.five_pixels =
      (cols ← mapM (@predict_whole Demo.sklearn ()) bs; Ok (concat cols)) /\
    concat bs = Demo2.five_pixels /\
    Forall (fun b => (0 < length b <= 2)%nat) bs /\
    (length bs = (length Demo2.five_pixels + 2 - 1) `div` 2)%nat.
Proof.
  assert (0 < 2)%nat as H by lia.
  assert (forall X, length (@predict_proba Demo.sklearn () X) = length X) as Hrows
    by (intros X; apply length_map).
  split; [exact H|]. split; [exact Hrows|].
  exact (@batches_partition Demo.sklearn 2 () Demo2.five_pixels H Hrows).
Defined.

Lemma demo_paged_serves :
  @serves (Demo2.gbif_paged Demo2.many_records) Demo2.many_records Demo.taxon_key
    Demo.cambridge.
Proof.
  intros offset. eexists. split; [reflexivity|]. split.
  - apply lookup_insert_eq.
  - rewrite lookup_insert_ne by done. apply lookup_insert_eq.
Qed.

(** 307 records, served in two pages. *)
Lemma fetch_occurrences_complete_witness :
  @serves (Demo2.gbif_paged Demo2.many_records) Demo2.many_records Demo.taxon_key
    Demo.cambridge /\
  Z.of_nat (length Demo2.many_records) < 2 ^ 53 /\
  (length Demo2.many_records `div` 300 < 5)%nat /\
  @fetch_pages (Demo2.gbif_paged Demo2.many_records) 5 Demo.taxon_key Demo.cambridge [] 0
    = Some (Ok Demo2.many_records) /\
  @fetch_occurrences (Demo2.gbif_paged Demo2.many_records) 5 Demo.taxon_key Demo.cambridge
    = Some (filter_records Demo2.many_records) /\
  forall out, filter_records Demo2.many_records = Ok out ->
              out = omap record_coord Demo2.many_records.
Proof.
  assert (Z.of_nat (length Demo2.many_records) < 2 ^ 53) as Hbig by (vm_compute; reflexivity).
  assert (length Demo2.many_records `div` 300 < 5)%nat as Hfuel
    by (apply Nat.ltb_lt; vm_compute; reflexivity).
  split; [exact demo_paged_serves|]. split; [exact Hbig|]. split; [exact Hfuel|].
  exact (@fetch_occurrences_complete (Demo2.gbif_paged Demo2.many_records)
           Demo2.many_records Demo.taxon_key Demo.cambridge 5
           demo_paged_serves Hbig Hfuel).
Defined.

(** A match response without a [usageKey]. *)
Lemma run_species_not_found_witness :
  @species_match Demo2.gbif_unknown "Quercus robur"
    = Ok (<["matchType" := JString "NONE"]> ∅) /\
  ((<["matchType" := JString "NONE"]> ∅ : gmap string json) !! "usageKey" = None \/
   exists key, (<["matchType" := JString "NONE"]> ∅ : gmap string json) !! "usageKey"
               = Some key /\ truthy key = false) /\
  @get_species_key Demo2.gbif_unknown "Quercus robur"
    = Raise (ValueError "Species not found") /\
  @run Demo.rng Demo.rasterio Demo.tile_cache Demo.sklearn Demo2.gbif_unknown
    5 "Quercus robur" Demo.cambridge "out" Demo.world0
    = Some (Raise (ValueError "Species not found"), Demo.world0).
Proof.
  assert (@species_match Demo2.gbif_unknown "Quercus robur"
          = Ok (<["matchType" := JString "NONE"]> ∅)) as Hm by reflexivity.
  assert ((<["matchType" := JString "NONE"]> ∅ : gmap string json) !! "usageKey" = None \/
          exists key, (<["matchType" := JString "NONE"]> ∅ : gmap string json) !! "usageKey"
                      = Some key /\ truthy key = false) as Hk
    by (left; vm_compute; reflexivity).
  split; [exact Hm|]. split; [exact Hk|].
  exact (@run_species_not_found Demo.rng Demo.rasterio Demo.tile_cache Demo.sklearn
           Demo2.gbif_unknown 5 "Quercus robur" Demo.cambridge "out" Demo.world0
           (<["matchType" := JString "NONE"]> ∅) Hm Hk).
Defined.

(** A service that answers every request with an error. *)
Lemma run_service_error_witness :
  (@species_match Demo2.gbif_down "Quercus robur" = Raise HTTPError \/
   exists taxon_key,
     @get_species_key Demo2.gbif_down "Quercus robur" = Ok taxon_key /\
     @occurrence_search Demo2.gbif_down taxon_key Demo.cambridge 0 = Raise HTTPError /\
     5%nat <> 0%nat) /\
  @run Demo.rng Demo.rasterio Demo.tile_cache Demo.sklearn Demo2.gbif_down
    5 "Quercus robur" Demo.cambridge "out" Demo.world0 = Some (Raise HTTPError, Demo.world0).
Proof.
  assert (@species_match Demo2.gbif_down "Quercus robur" = Raise HTTPError \/
          exists taxon_key,
            @get_species_key Demo2.gbif_down "Quercus robur" = Ok taxon_key /\
            @occurrence_search Demo2.gbif_down taxon_key Demo.cambridge 0 = Raise HTTPError /\
            5%nat <> 0%nat) as H by (left; reflexivity).
  split; [exact H|].
  exact (@run_service_error Demo.rng Demo.rasterio Demo.tile_cache Demo.sklearn
           Demo2.gbif_down 5 "Quercus robur" Demo.cambridge "out" Demo.world0 HTTPError H).
Defined.

Lemma demo_two_tiles_shape : same_shape Demo2.two_tiles 2 2 1.
Proof. repeat constructor. Qed.

Lemma demo_two_tiles_not_nan : keys_not_nan Demo2.two_tiles.
Proof. repeat constructor. Qed.

Lemma demo_two_tiles_distinct : distinct_keys Demo2.two_tiles.
Proof.
  intros [|[|i]] [|[|j]] kv1 kv2 E1 E2 Hk; try done;
    cbn in E1, E2; simplify_eq; vm_compute in Hk; discriminate.
Qed.

Lemma demo_two_tiles_stitched :
  @stitch_tiles Demo.rasterio Demo2.bounds Demo2.two_tiles
    = Ok (Demo2.the_stitched, Demo2.the_bounds : @transform Demo.rasterio).
Proof. vm_compute. reflexivity. Qed.

(** Two tiles of 2 x 2 pixels on the diagonal of a 2 x 2 grid: a mosaic of
    4 x 4 pixels. *)
Lemma stitch_tiles_shape_witness :
  Demo2.two_tiles <> [] /\ same_shape Demo2.two_tiles 2 2 1 /\
  exists m west north,
    py_min (tile_lons Demo2.two_tiles) = Ok west /\
    py_max (tile_lats Demo2.two_tiles) = Ok north /\
    mosaic_h m = (length (tile_lats Demo2.two_tiles) * 2)%nat /\
    mosaic_w m = (length (tile_lons Demo2.two_tiles) * 2)%nat /\
    n_channels m = 1%nat /\
    length (mosaic_data m) = (mosaic_h m * mosaic_w m * 1)%nat /\
    @stitch_tiles Demo.rasterio Demo2.bounds Demo2.two_tiles =
      (t ← @from_bounds Demo.rasterio Demo2.bounds
             west
             (F64.sub (F64.add north lit_0_1)
                (F64.mul lit_0_1 (F64.of_Z (Z.of_nat (length (tile_lats Demo2.two_tiles))))))
             (F64.add west
                (F64.mul lit_0_1 (F64.of_Z (Z.of_nat (length (tile_lons Demo2.two_tiles))))))
             (F64.add north lit_0_1) (mosaic_w m) (mosaic_h m);
       Ok (m, t)).
Proof.
  assert (Demo2.two_tiles <> []) as Hne by discriminate.
  split; [exact Hne|]. split; [exact demo_two_tiles_shape|].
  exact (@stitch_tiles_shape Demo.rasterio Demo2.bounds Demo2.two_tiles 2 2 1
           Hne demo_two_tiles_shape).
Defined.

(** The south-west tile is in the second row of blocks, the first column;
    the block north of it holds zeros. *)
Lemma stitch_tiles_places_witness :
  same_shape Demo2.two_tiles 2 2 1 /\
  @stitch_tiles Demo.rasterio Demo2.bounds Demo2.two_tiles
    = Ok (Demo2.the_stitched, Demo2.the_bounds : @transform Demo.rasterio) /\
  tile_lats Demo2.two_tiles !! 1%nat = Some (Demo.dec 5215 100) /\
  tile_lons Demo2.two_tiles !! 0%nat = Some (Demo.dec 5 100) /\
  (1 < 2)%nat /\ (0 < 2)%nat /\ (0 < 1)%nat /\
  mosaic_at Demo2.the_stitched (1 * 2 + 1) (0 * 2 + 0) !! 0%nat =
    Some (match tiles_lookup Demo2.two_tiles (Demo.dec 5 100, Demo.dec 5215 100) with
          | Some T => F32.of_f64 (tile_at T 1 0 0)
          | None => S754_zero false
          end).
Proof.
  assert (tile_lats Demo2.two_tiles !! 1%nat = Some (Demo.dec 5215 100)) as Hi
    by (vm_compute; reflexivity).
  assert (tile_lons Demo2.two_tiles !! 0%nat = Some (Demo.dec 5 100)) as Hj
    by (vm_compute; reflexivity).
  assert (1 < 2)%nat as Hr by lia.
  assert (0 < 2)%nat as Hq by lia.
  assert (0 < 1)%nat as Hk by lia.
  split; [exact demo_two_tiles_shape|]. split; [exact demo_two_tiles_stitched|].
  split; [exact Hi|]. split; [exact Hj|].
  split; [exact Hr|]. split; [exact Hq|]. split; [exact Hk|].
  exact (@stitch_tiles_places Demo.rasterio Demo2.bounds Demo2.two_tiles 2 2 1
           Demo2.the_stitched Demo2.the_bounds 1 0 1 0 0
           (Demo.dec 5215 100) (Demo.dec 5 100)
           demo_two_tiles_shape demo_two_tiles_stitched Hi Hj Hr Hq Hk).
Defined.

(** The north-east tile is in the mosaic. *)
Lemma stitch_tiles_keeps_every_tile_witness :
  same_shape Demo2.two_tiles 2 2 1 /\ keys_not_nan Demo2.two_tiles /\
  distinct_keys Demo2.two_tiles /\
  @stitch_tiles Demo.rasterio Demo2.bounds Demo2.two_tiles
    = Ok (Demo2.the_stitched, Demo2.the_bounds : @transform Demo.rasterio) /\
  ((Demo.dec 15 100, Demo.dec 5225 100), Demo2.tile_of [5; 6; 7; 8]) ∈ Demo2.two_tiles /\
  exists i j lat lon,
    tile_lats Demo2.two_tiles !! i = Some lat /\
    SFeqb lat ((Demo.dec 15 100, Demo.dec 5225 100)).2 = true /\
    tile_lons Demo2.two_tiles !! j = Some lon /\
    SFeqb lon ((Demo.dec 15 100, Demo.dec 5225 100)).1 = true /\
    forall r q k, (r < 2)%nat -> (q < 2)%nat -> (k < 1)%nat ->
      mosaic_at Demo2.the_stitched (i * 2 + r) (j * 2 + q) !! k
      = Some (F32.of_f64 (tile_at (Demo2.tile_of [5; 6; 7; 8]) r q k)).
Proof.
  assert (((Demo.dec 15 100, Demo.dec 5225 100), Demo2.tile_of [5; 6; 7; 8])
          ∈ Demo2.two_tiles) as Hin by apply list_elem_of_further, list_elem_of_here.
  split; [exact demo_two_tiles_shape|]. split; [exact demo_two_tiles_not_nan|].
  split; [exact demo_two_tiles_distinct|]. split; [exact demo_two_tiles_stitched|].
  split; [exact Hin|].
  exact (@stitch_tiles_keeps_every_tile Demo.rasterio Demo2.bounds Demo2.two_tiles 2 2 1
           Demo2.the_stitched Demo2.the_bounds (Demo.dec 15 100, Demo.dec 5225 100)
           (Demo2.tile_of [5; 6; 7; 8])
           demo_two_tiles_shape demo_two_tiles_not_nan demo_two_tiles_distinct
           demo_two_tiles_stitched Hin).
Defined.

(** The grid of the two tiles. *)
Lemma tile_grid_order_witness :
  Demo2.two_tiles <> [] /\ keys_not_nan Demo2.two_tiles /\
  increasing (tile_lons Demo2.two_tiles) /\ decreasing (tile_lats Demo2.two_tiles) /\
  exists west north,
    tile_lons Demo2.two_tiles !! 0%nat = Some west /\
    tile_lats Demo2.two_tiles !! 0%nat = Some north /\
    py_min (tile_lons Demo2.two_tiles) = Ok west /\
    py_max (tile_lats Demo2.two_tiles) = Ok north.
Proof.
  assert (Demo2.two_tiles <> []) as Hne by discriminate.
  split; [exact Hne|]. split; [exact demo_two_tiles_not_nan|].
  exact (tile_grid_order Demo2.two_tiles Hne demo_two_tiles_not_nan).
Defined.
